(** * Expense forecasting engine: a shallow embedding of
      [backend/api_server.py] ([predict_expenses]) and its properties.

    Numbers: the Python code computes on binary64 floats.  Here every
    number is an exact rational ([Q]); rounding error of the float
    operations is not modelled.  NaN only arises in the source from
    missing or unparsable cells (modelled by [CNaN] / [None]) and is
    removed by [fillna(0)] before any arithmetic.

    Library calls whose behaviour is not defined in the repository
    (the numeric-string parser behind [pd.to_numeric], the date parser
    [pd.to_datetime], the square root inside [Series.std]) are the
    fields of the interface [Pandas]; the pickled model bank is the
    record [ModelData].

    The sort of line 85: [predict_expenses] is modelled with a stable
    sort by month ([sort_by]); the sort that pandas runs by default,
    NumPy's quicksort, is modelled next to it ([np_sort_by]).  The two
    agree on frames of at most 17 rows and on frames whose months are
    pairwise different ([np_sort_by_model]); on a longer frame with a
    repeated month they can differ. *)

From Stdlib Require Import QArith Qround Qabs Lqa ZArith Lia.
From Stdlib Require Import String Ascii List DecimalString Permutation.
From stdpp Require Import gmap strings list fin_maps sorting.

Local Open Scope string_scope.
Local Open Scope Q_scope.

(** ** Data model *)

(** api_server.py, lines 30-33. *)
Definition EXPENSE_CATEGORIES : list string :=
  ["Groceries"; "Transportation"; "Entertainment"; "Dining Out";
   "Utilities"; "Shopping"; "Healthcare"; "Subscriptions"].

(** A JSON scalar found under a category key of a history entry. *)
Inductive jvalue :=
  | JNum (q : Q)
  | JStr (s : string)
  | JNull.

(** One entry of [user_history]: a dict with a ['month'] string and
    any number of other keys (category amounts).  The endpoint checks
    that ['month'] is present; entries whose month is not a string are
    outside this model. *)
Record MonthlyRecord := {
  month : string;
  amounts : gmap string jvalue
}.

(** What [pd.to_datetime] yields, as far as the code reads it. *)
Record Timestamp := { ts_year : Z; ts_month : Z }.

(** External library functions used by [predict_expenses]. *)
Class Pandas := {
  (* [pd.to_numeric] on one string cell; [None] is NaN (errors='coerce') *)
  to_numeric_str : string -> option Q;
  (* [pd.to_datetime] on one string; [None] when it raises *)
  to_datetime : string -> option Timestamp;
  (* the square root inside [Series.std] *)
  np_sqrt : Q -> Q
}.

(** A cell of the DataFrame. *)
Inductive cell :=
  | CNum (q : Q)
  | CStr (s : string)
  | CNaN.

Record Row := {
  row_month : string;
  row_cells : gmap string cell
}.

(** The DataFrame without its ['month'] column, which is [row_month]:
    the column labels and the rows; every row has a cell for every
    column label. *)
Record DataFrame := {
  df_columns : gset string;
  df_rows : list Row
}.

(** The unpickled [model_data] dict. *)
Record ModelData := {
  feature_columns : list string;
  scalers : gmap string (list Q -> list Q);
  models : gmap string (list Q -> Q)
}.

(** Values stored in the returned dict. *)
Inductive pyvalue :=
  | PyNum (q : Q)
  | PyInt (z : Z)
  | PyStr (s : string)
  | PyDict (d : list (string * Q)).

(** A Python dict in insertion order. *)
Definition pydict := list (string * pyvalue).

Inductive exn :=
  | RuntimeError (msg : string)
  | KeyError (key : string)
  | IndexError
  | DateParseError (text : string).

Inductive outcome (A : Type) :=
  | Returned (a : A)
  | Raised (e : exn).
Arguments Returned {A} a.
Arguments Raised {A} e.

Definition bind {A B} (m : outcome A) (k : A -> outcome B) : outcome B :=
  match m with
  | Returned a => k a
  | Raised e => Raised e
  end.

Notation "'let*' x ':=' m 'in' k" := (bind m (fun x => k))
  (at level 10, x name, m at level 100, k at level 200).

Definition alist_get {V} (k : string) (d : list (string * V)) : option V :=
  snd <$> find (fun kv => String.eqb (fst kv) k) d.

Definition dict_get (k : string) (d : pydict) : option pyvalue :=
  alist_get k d.

Definition dict_keys (d : pydict) : list string := map fst d.

(** ** Numeric helpers *)

#[global] Instance Qlt_decision : RelDecision Qlt.
Proof.
  intros x y. destruct (Qlt_le_dec x y) as [Hlt | Hle].
  - left. exact Hlt.
  - right. apply Qle_not_lt. exact Hle.
Defined.

Definition Qsum (l : list Q) : Q := fold_right Qplus 0 l.

(** [np.mean] / [Series.mean] on a non-empty sequence.  (On an empty
    one NumPy gives NaN; the code never calls it there.) *)
Definition mean (l : list Q) : Q := Qsum l / inject_Z (Z.of_nat (length l)).

(** Python's [round(x)] to an integer: ties go to the even neighbour. *)
Definition round_half_even (q : Q) : Z :=
  let f := Qfloor q in
  let d := q - inject_Z f in
  if Qle_bool d (1 # 2)
  then (if Qeq_bool d (1 # 2) then (if Z.even f then f else f + 1)%Z else f)
  else (f + 1)%Z.

(** [round(x, 2)]. *)
Definition round2 (q : Q) : Q := round_half_even (q * 100) # 100.

(** [max(0, x)]. *)
Definition max0 (q : Q) : Q := if Qle_bool q 0 then 0 else q.

(** [Series.std()]: sample standard deviation (ddof = 1).  The code
    calls it on columns of six or more values only. *)
Definition std `{Pandas} (l : list Q) : Q :=
  let m := mean l in
  np_sqrt (Qsum (map (fun x => (x - m) * (x - m)) l)
           / inject_Z (Z.of_nat (length l) - 1)).

(** The [1e-6] of line 131. *)
Definition eps : Q := 1 # 1000000.

(** ** The DataFrame stage (api_server.py, lines 58-82) *)

Definition cell_of_jvalue (v : jvalue) : cell :=
  match v with
  | JNum q => CNum q
  | JStr s => CStr s
  | JNull => CNaN
  end.

(** [pd.DataFrame(user_history)]: the columns are the keys that occur
    in some entry; a key missing from an entry gives NaN there. *)
Definition pd_DataFrame (user_history : list MonthlyRecord) : DataFrame :=
  let cols : gset string := ⋃ (map (fun r => dom (amounts r)) user_history) in
  {| df_columns := cols;
     df_rows :=
       map (fun r =>
              {| row_month := month r;
                 row_cells := (cell_of_jvalue <$> amounts r)
                                ∪ gset_to_gmap CNaN cols |})
           user_history |}.

Definition map_cells (f : gmap string cell -> gmap string cell)
    (df : DataFrame) : DataFrame :=
  {| df_columns := df_columns df;
     df_rows :=
       map (fun r => {| row_month := row_month r;
                        row_cells := f (row_cells r) |})
           (df_rows df) |}.

(** [df.fillna(0)]. *)
Definition fillna0 (df : DataFrame) : DataFrame :=
  map_cells (fmap (fun c => match c with CNaN => CNum 0 | _ => c end)) df.

(** One cell through [pd.to_numeric(_, errors='coerce')] then
    [.fillna(0)]. *)
Definition to_numeric_fillna `{Pandas} (c : cell) : Q :=
  match c with
  | CNum q => q
  | CStr s => default 0 (to_numeric_str s)
  | CNaN => 0
  end.

(** [df[cat] = pd.to_numeric(df[cat], errors='coerce').fillna(0)] for
    a [cat] that is a column of [df]. *)
Definition coerce_column `{Pandas} (cat : string) (df : DataFrame)
    : DataFrame :=
  map_cells (alter (fun c => CNum (to_numeric_fillna c)) cat) df.

(** [df[cat] = 0] for a new column. *)
Definition add_zero_column (cat : string) (df : DataFrame) : DataFrame :=
  {| df_columns := {[cat]} ∪ df_columns df;
     df_rows := df_rows (map_cells (insert cat (CNum 0)) df) |}.

(** The values of a numeric column, [df[cat]]. *)
Definition cell_value (o : option cell) : Q :=
  match o with
  | Some (CNum q) => q
  | _ => 0
  end.

Definition column (cat : string) (df : DataFrame) : list Q :=
  map (fun r => cell_value (row_cells r !! cat)) (df_rows df).

(** Lines 65-72: one iteration of the loop that coerces the category
    columns that exist and collects the categories with a positive
    sum. *)
Definition usage_step `{Pandas} (st : DataFrame * gset string)
    (cat : string) : DataFrame * gset string :=
  let '(df, user_categories) := st in
  if decide (cat ∈ df_columns df) then
    let df' := coerce_column cat df in
    if decide (0 < Qsum (column cat df'))
    then (df', {[cat]} ∪ user_categories)
    else (df', user_categories)
  else (df, user_categories).

Definition usage_loop `{Pandas} (df : DataFrame)
    : DataFrame * gset string :=
  fold_left usage_step EXPENSE_CATEGORIES (df, ∅).

(** Lines 77-82: every category becomes a numeric column. *)
Definition ensure_step `{Pandas} (df : DataFrame) (cat : string)
    : DataFrame :=
  if decide (cat ∈ df_columns df)
  then coerce_column cat df
  else add_zero_column cat df.

Definition ensure_loop `{Pandas} (df : DataFrame) : DataFrame :=
  fold_left ensure_step EXPENSE_CATEGORIES df.

(** ** Sorting by month (line 85) *)

(** [df.sort_values('month')] compares the month strings as Python
    compares [str]: lexicographically by code point.  The model of
    [predict_expenses] sorts by a stable insertion sort: rows of the
    same month keep their order.  This is the order that pandas gives
    for frames of at most 17 rows, which NumPy sorts by insertion, and
    wherever the months are pairwise different, since there is one
    sorted order then ([np_sort_by_model]).  On a longer frame with a
    repeated month the sort that pandas runs can move the rows of that
    month, see [np_sort_by] below; statements that depend on the order
    of such rows are made for the former two cases only. *)
Fixpoint insert_by {A} (key : A -> string) (x : A) (l : list A) : list A :=
  match l with
  | [] => [x]
  | y :: l' =>
      if String.leb (key x) (key y) then x :: y :: l'
      else y :: insert_by key x l'
  end.

Fixpoint sort_by {A} (key : A -> string) (l : list A) : list A :=
  match l with
  | [] => []
  | x :: l' => insert_by key x (sort_by key l')
  end.

Definition sort_values_month (df : DataFrame) : DataFrame :=
  {| df_columns := df_columns df;
     df_rows := sort_by row_month (df_rows df) |}.

(** ** NumPy's quicksort, which [sort_values] runs (line 85) *)

(** [df.sort_values('month')] asks NumPy for the order of the rows:
    [argsort] of the month column with the default kind 'quicksort',
    and takes the rows in that order.  On a column of Python strings
    this is NumPy's introsort over an array [tosort] of row positions:
    a range of more than 17 positions is partitioned around the median
    of its first, middle and last row, and a shorter range is sorted by
    insertion, so that rows of the same month can change places from
    18 rows on.  The row positions are natural numbers and [tosort] is
    a list updated by index. *)


(** The row at position [p] of [tosort]. *)
Definition at_pos (tosort : list nat) (p : nat) : nat := nth p tosort 0%nat.

(** [v[*p]]: the key of the row at position [p] of [tosort]. *)
Definition key_at (keys : list string) (tosort : list nat) (p : nat)
    : string :=
  nth (at_pos tosort p) keys EmptyString.

(** [INTP_SWAP] of the entries at two positions. *)
Definition swap_pos (p q : nat) (tosort : list nat) : list nat :=
  <[q := at_pos tosort p]> (<[p := at_pos tosort q]> tosort).

(** The three conditional swaps that leave the median of the first,
    middle and last key in the middle. *)
Definition median_of_three (keys : list string) (pl pm pr : nat)
    (tosort : list nat) : list nat :=
  let a1 := if String.ltb (key_at keys tosort pm) (key_at keys tosort pl)
            then swap_pos pm pl tosort else tosort in
  let a2 := if String.ltb (key_at keys a1 pr) (key_at keys a1 pm)
            then swap_pos pr pm a1 else a1 in
  if String.ltb (key_at keys a2 pm) (key_at keys a2 pl)
  then swap_pos pm pl a2 else a2.

(** How many leading elements satisfy [f]. *)
Fixpoint run_length {A} (f : A -> bool) (l : list A) : nat :=
  match l with
  | [] => 0
  | x :: l' => if f x then S (run_length f l') else 0
  end.

(** [do ++pi; while (v[*pi] < vp)]: the first position after [pi]
    whose key is not below the pivot. *)
Definition scan_up (keys : list string) (tosort : list nat) (vp : string)
    (pi : nat) : nat :=
  (S pi + run_length (fun row => String.ltb (nth row keys EmptyString) vp)
                     (skipn (S pi) tosort))%nat.

(** [do --pj; while (vp < v[*pj])]: the last position before [pj]
    whose key is not above the pivot. *)
Definition scan_down (keys : list string) (tosort : list nat) (vp : string)
    (pj : nat) : nat :=
  (pj - 1 - run_length (fun row => String.ltb vp (nth row keys EmptyString))
                       (rev (firstn pj tosort)))%nat.

(** The [for (;;)] loop of the partition: scan from both ends, stop
    when the scans meet, otherwise swap and go on.  The distance
    between the two positions shrinks with every round; [fuel] bounds
    the rounds. *)
Fixpoint partition_loop (fuel : nat) (keys : list string) (vp : string)
    (tosort : list nat) (pi pj : nat) : option (list nat * nat) :=
  let pi' := scan_up keys tosort vp pi in
  let pj' := scan_down keys tosort vp pj in
  if (pj' <=? pi')%nat then Some (tosort, pi')
  else
    match fuel with
    | O => None
    | S fuel' =>
        partition_loop fuel' keys vp (swap_pos pi' pj' tosort) pi' pj'
    end.

(** The inner [while] of the insertion sort: the rows before [pj]
    whose key is above that of row [vi] move one place up, down to
    position [pl], and [vi] takes the free place. *)
Fixpoint shift_up (keys : list string) (vi : nat) (pl : nat)
    (tosort : list nat) (pj : nat) : list nat :=
  match pj with
  | O => <[0%nat := vi]> tosort
  | S pk =>
      if (pl <? pj)%nat
         && String.ltb (nth vi keys EmptyString) (key_at keys tosort pk)
      then shift_up keys vi pl (<[pj := at_pos tosort pk]> tosort) pk
      else <[pj := vi]> tosort
  end.

(** The insertion sort of the positions [pl] to [pr]. *)
Definition insertion_sort (keys : list string) (pl pr : nat)
    (tosort : list nat) : list nat :=
  fold_left (fun a pi => shift_up keys (at_pos a pi) pl a pi)
            (seq (S pl) (pr - pl)) tosort.

(** NumPy's heapsort of the positions [pl] to [pr] of [tosort], on
    which the quicksort falls back for a part whose depth budget is
    used up.  Its code is not modelled: it is the field of the
    interface [Numpy], and what is used of it is that it sorts the
    range ([heapsort_sorts] below). *)
Class Numpy := {
  npy_aheapsort : list string -> nat -> nat -> list nat -> list nat
}.

(** The sort of the positions [pl] to [pr], with the depth budget
    [cdepth].  After a partition the loop goes on with the smaller
    part and the larger one waits on the stack; a part taken from the
    stack with its budget used up goes to heapsort.  [fuel] bounds the
    nesting of the partitions; the number of rows is enough. *)
Fixpoint quicksort_range `{Numpy} (fuel : nat) (keys : list string)
    (tosort : list nat) (pl pr : nat) (cdepth : Z) : option (list nat) :=
  if (16 <? pr - pl)%nat then
    match fuel with
    | O => None
    | S fuel' =>
        let pm := (pl + (pr - pl) / 2)%nat in
        let a := median_of_three keys pl pm pr tosort in
        let vp := key_at keys a pm in
        match partition_loop (pr - pl) keys vp
                (swap_pos pm (pr - 1) a) pl (pr - 1) with
        | None => None
        | Some (a', pi) =>
            let a'' := swap_pos pi (pr - 1) a' in
            let cdepth' := (cdepth - 1)%Z in
            if (pi - pl <? pr - pi)%nat then
              match quicksort_range fuel' keys a'' pl (pi - 1) cdepth' with
              | Some sorted =>
                  if (cdepth' <? 0)%Z
                  then Some (npy_aheapsort keys (pi + 1) pr sorted)
                  else quicksort_range fuel' keys sorted (pi + 1) pr cdepth'
              | None => None
              end
            else
              match quicksort_range fuel' keys a'' (pi + 1) pr cdepth' with
              | Some sorted =>
                  if (cdepth' <? 0)%Z
                  then Some (npy_aheapsort keys pl (pi - 1) sorted)
                  else quicksort_range fuel' keys sorted pl (pi - 1) cdepth'
              | None => None
              end
        end
    end
  else Some (insertion_sort keys pl pr tosort).

(** [keys.argsort(kind='quicksort')]: the row positions in sorted
    order; the depth budget is twice the position of the highest bit
    of the number of rows. *)
Definition np_argsort `{Numpy} (keys : list string) : option (list nat) :=
  let num := length keys in
  quicksort_range num keys (seq 0 num) 0 (num - 1)
                  (2 * Z.log2 (Z.of_nat num)).

(** The rows in the order that [argsort] gives. *)
Definition take_rows {A} (l : list A) (indexer : list nat)
    : option (list A) :=
  mapM (fun i => l !! i) indexer.

(** [sort_values] by a string key, as pandas and NumPy run it. *)
Definition np_sort_by `{Numpy} {A} (key : A -> string) (l : list A)
    : option (list A) :=
  match np_argsort (map key l) with
  | Some indexer => take_rows l indexer
  | None => None
  end.

(** ** Feature building (lines 87-107) *)

(** [s.tail(3)] / [l[-3:]]. *)
Definition tail3 {A} (l : list A) : list A := skipn (length l - 3) l.

(** [float(values[-k]) if len(values) >= k else 0]. *)
Definition lag (k : nat) (values : list Q) : Q :=
  if (k <=? length values)%nat then nth (length values - k) values 0 else 0.

Definition next_month_num (last_month_date : Timestamp) : Z :=
  (ts_month last_month_date mod 12 + 1)%Z.

(** One iteration of the loop of lines 99-104. *)
Definition lag_step (last_3_months : DataFrame) (features : gmap string Q)
    (category : string) : gmap string Q :=
  let values := column category last_3_months in
  <[category +:+ "_rolling_avg_3" := mean values]>
    (<[category +:+ "_lag3" := lag 3 values]>
       (<[category +:+ "_lag2" := lag 2 values]>
          (<[category +:+ "_lag1" := lag 1 values]> features))).

(** The [features] dict for a sorted, fully numeric frame whose last
    month parsed to [last_month_date]. *)
Definition build_features (df : DataFrame) (last_month_date : Timestamp)
    : gmap string Q :=
  let last_3_months :=
    {| df_columns := df_columns df; df_rows := tail3 (df_rows df) |} in
  fold_left (lag_step last_3_months) EXPENSE_CATEGORIES
    {["month_num" := inject_Z (next_month_num last_month_date)]}.

(** [pd.DataFrame([features])[feature_columns]]: the row of feature
    values in the trained order; a missing label is a [KeyError]. *)
Fixpoint select_columns (cols : list string) (features : gmap string Q)
    : outcome (list Q) :=
  match cols with
  | [] => Returned []
  | c :: cols' =>
      match features !! c with
      | None => Raised (KeyError c)
      | Some v =>
          let* vs := select_columns cols' features in Returned (v :: vs)
      end
  end.

(** ** Prediction (lines 111-122) *)

Definition predict_category (md : ModelData) (X : list Q)
    (user_categories : gset string) (category : string) : outcome Q :=
  if decide (category ∈ user_categories) then
    match scalers md !! category with
    | None => Raised (KeyError category)
    | Some scaler =>
        match models md !! category with
        | None => Raised (KeyError category)
        | Some model => Returned (max0 (round2 (model (scaler X))))
        end
    end
  else Returned 0.

Fixpoint predict_loop (md : ModelData) (X : list Q)
    (user_categories : gset string) (cats : list string)
    : outcome (list (string * Q)) :=
  match cats with
  | [] => Returned []
  | category :: cats' =>
      let* p := predict_category md X user_categories category in
      let* ps := predict_loop md X user_categories cats' in
      Returned ((category, p) :: ps)
  end.

(** ** Confidence (lines 124-139) *)

(** Line 131. *)
Definition coefficient_of_variation `{Pandas} (values : list Q) : Q :=
  std values / (mean values + eps).

(** Lines 128-132. *)
Definition category_variances `{Pandas} (df : DataFrame) : list Q :=
  omap (fun cat =>
          if decide (cat ∈ df_columns df) then
            if decide (0 < Qsum (column cat df))
            then Some (coefficient_of_variation (column cat df))
            else None
          else None)
       EXPENSE_CATEGORIES.

Definition confidence_of `{Pandas} (n : nat) (df : DataFrame) : string :=
  if (6 <=? n)%nat then
    match category_variances df with
    | [] => "medium"
    | cvs =>
        let avg_cv := mean cvs in
        if decide (avg_cv < 3 # 10) then "high"
        else if decide (6 # 10 < avg_cv) then "low"
        else "medium"
    end
  else "medium".

(** ** The target-month label (line 146) *)

Definition str_of_int (z : Z) : string := NilZero.string_of_int (Z.to_int z).

(** [f"{n:02d}"]. *)
Definition format_02d (n : Z) : string :=
  let s := str_of_int n in
  if (String.length s <? 2)%nat then "0" +:+ s else s.

Definition next_month_label (last_month_date : Timestamp) : string :=
  str_of_int (ts_year last_month_date) +:+ "-"
    +:+ format_02d (next_month_num last_month_date).

(** ** [predict_expenses] (lines 35-147) *)

Definition insufficient_history_result : pydict :=
  [("predictions", PyDict (map (fun cat => (cat, 0)) EXPENSE_CATEGORIES));
   ("total", PyNum 0);
   ("confidence", PyStr "low");
   ("message",
    PyStr "Need at least 3 months of history for accurate predictions")].

(** Lines 58-85: the frame, numeric in every category column and
    sorted by month, together with [user_categories]. *)
Definition prepare `{Pandas} (user_history : list MonthlyRecord)
    : DataFrame * gset string :=
  let df := fillna0 (pd_DataFrame user_history) in
  let '(df, user_categories) := usage_loop df in
  let df := ensure_loop df in
  (sort_values_month df, user_categories).

(** Line 94: [pd.to_datetime(df['month'].iloc[-1])]. *)
Definition last_month_date_of `{Pandas} (df : DataFrame)
    : outcome Timestamp :=
  match last (map row_month (df_rows df)) with
  | None => Raised IndexError
  | Some m =>
      match to_datetime m with
      | Some d => Returned d
      | None => Raised (DateParseError m)
      end
  end.

Definition predict_expenses `{Pandas} (model_data : option ModelData)
    (user_history : list MonthlyRecord) : outcome pydict :=
  match model_data with
  | None => Raised (RuntimeError "Model not loaded")
  | Some md =>
      if (length user_history <? 3)%nat then
        Returned insufficient_history_result
      else
        let '(df, user_categories) := prepare user_history in
        let* last_month_date := last_month_date_of df in
        let features := build_features df last_month_date in
        let* X := select_columns (feature_columns md) features in
        let* predictions :=
          predict_loop md X user_categories EXPENSE_CATEGORIES in
        let total := round2 (Qsum (map snd predictions)) in
        let confidence := confidence_of (length user_history) df in
        Returned
          [("predictions", PyDict predictions);
           ("total", PyNum total);
           ("confidence", PyStr confidence);
           ("history_months", PyInt (Z.of_nat (length user_history)));
           ("next_month", PyStr (next_month_label last_month_date))]
  end.

(** The [features] dict that [predict_expenses] builds on its way
    (lines 58-104), for a history of at least three entries. *)
Definition feature_vector `{Pandas} (user_history : list MonthlyRecord)
    : outcome (gmap string Q) :=
  let df := fst (prepare user_history) in
  let* last_month_date := last_month_date_of df in
  Returned (build_features df last_month_date).

(** ** Notions of the specification, stated on the history itself *)

(** An entry's amount in a category after numeric coercion: a missing
    key, a null and an unparsable string count as 0. *)
Definition coerced_amount `{Pandas} (cat : string) (r : MonthlyRecord) : Q :=
  match amounts r !! cat with
  | Some (JNum q) => q
  | Some (JStr s) => default 0 (to_numeric_str s)
  | Some JNull | None => 0
  end.

Definition historical_sum `{Pandas} (cat : string)
    (user_history : list MonthlyRecord) : Q :=
  Qsum (map (coerced_amount cat) user_history).

(** The history in ascending month order. *)
Definition sort_history (user_history : list MonthlyRecord)
    : list MonthlyRecord :=
  sort_by month user_history.

(** UsageMask: the categories with a strictly positive historical sum. *)
Definition active_categories `{Pandas} (user_history : list MonthlyRecord)
    : list string :=
  filter (fun cat => 0 < historical_sum cat user_history) EXPENSE_CATEGORIES.

(** A category's coefficient of variation over the history. *)
Definition history_cv `{Pandas} (user_history : list MonthlyRecord)
    (cat : string) : Q :=
  coefficient_of_variation
    (map (coerced_amount cat) (sort_history user_history)).

(** The average coefficient of variation over the active categories;
    [None] when there is none (NumPy's mean of nothing is NaN). *)
Definition average_cv `{Pandas} (user_history : list MonthlyRecord)
    : option Q :=
  match active_categories user_history with
  | [] => None
  | cats => Some (mean (map (history_cv user_history) cats))
  end.

(** The thresholds of the ConfidenceEstimator; every comparison with
    NaN is false. *)
Definition classify (avg : option Q) : string :=
  match avg with
  | Some a =>
      if decide (a < 3 # 10) then "high"
      else if decide (6 # 10 < a) then "low"
      else "medium"
  | None => "medium"
  end.

Definition tier_rank (confidence : string) : nat :=
  if String.eqb confidence "high" then 2
  else if String.eqb confidence "medium" then 1
  else 0.

(** ** The ConfidenceEstimator in the words of the specification *)

(** The definitions of this part follow the specification's sentence
    on the confidence and not the code, and they use none of the code's
    numeric helpers: the coefficient of variation of a category is the
    standard deviation of its monthly amounts divided by their mean
    plus one millionth, and the estimator reads the average of these
    over the categories whose amounts have a positive total.  The
    standard deviation is the sample one (divisor: one less than the
    number of months), which is what [Series.std] computes.  The
    amounts are taken entry by entry, in the order of the request. *)
Fixpoint spec_total (amounts : list Q) : Q :=
  match amounts with
  | [] => 0
  | x :: rest => x + spec_total rest
  end.

Definition spec_mean (amounts : list Q) : Q :=
  spec_total amounts / inject_Z (Z.of_nat (length amounts)).

Definition spec_standard_deviation `{Pandas} (amounts : list Q) : Q :=
  np_sqrt (spec_total (map (fun x => (x - spec_mean amounts) ^ 2) amounts)
           / (inject_Z (Z.of_nat (length amounts)) - 1)).

Definition spec_coefficient_of_variation `{Pandas} (amounts : list Q) : Q :=
  spec_standard_deviation amounts / (spec_mean amounts + (1 # 1000000)).

Definition spec_amounts `{Pandas} (cat : string)
    (user_history : list MonthlyRecord) : list Q :=
  map (coerced_amount cat) user_history.

Definition spec_average_cv `{Pandas} (user_history : list MonthlyRecord)
    : option Q :=
  match filter (fun cat => 0 < spec_total (spec_amounts cat user_history))
               EXPENSE_CATEGORIES with
  | [] => None
  | cats =>
      Some (spec_mean
              (map (fun cat =>
                      spec_coefficient_of_variation
                        (spec_amounts cat user_history))
                   cats))
  end.

(** The square root is a function of the number: it gives equal
    results on two fractions of the same value. *)
Definition sqrt_respects_value `{Pandas} : Prop :=
  forall a b : Q, a == b -> np_sqrt a == np_sqrt b.

(** ** Notions used in the proofs *)

(** Two rows (or entries) are in month order. *)
Definition key_le {A} (key : A -> string) (x y : A) : Prop :=
  String.leb (key x) (key y) = true.

(** The key of a row position in the array that [argsort] sorts. *)
Definition row_key (keys : list string) (row : nat) : string :=
  nth row keys EmptyString.

(** What the insertion sort of [insertion_sort] does to the rows in
    place, listed from the last to the first: the new row goes below
    the rows whose key is above its own. *)
Fixpoint insert_right (keys : list string) (vi : nat) (above : list nat)
    : list nat :=
  match above with
  | [] => [vi]
  | y :: above' =>
      if String.ltb (row_key keys vi) (row_key keys y)
      then y :: insert_right keys vi above'
      else vi :: y :: above'
  end.

(** Stable order of row positions: by key, and by position among rows
    of the same key. *)
Definition stable_le (k : nat -> string) (i j : nat) : Prop :=
  String.leb (k i) (k j) = true /\
  (String.leb (k j) (k i) = true -> (i <= j)%nat).

(** Key order of row positions. *)
Definition rows_le (keys : list string) (i j : nat) : Prop :=
  String.leb (row_key keys i) (row_key keys j) = true.

(** The array [a'] is the array [a] with the rows of the positions
    [pl] to [pr] rearranged: the same length, the same rows outside,
    and every row of the range of one array in the range of the
    other. *)
Definition range_perm (pl pr : nat) (a a' : list nat) : Prop :=
  length a' = length a /\
  (forall p, (p < pl \/ pr < p)%nat -> at_pos a' p = at_pos a p) /\
  (forall p, (pl <= p <= pr)%nat ->
             exists p', (pl <= p' <= pr)%nat /\ at_pos a' p = at_pos a p') /\
  (forall p, (pl <= p <= pr)%nat ->
             exists p', (pl <= p' <= pr)%nat /\ at_pos a' p' = at_pos a p).

(** The rows at the positions [pl] to [pr] are in key order. *)
Definition sorted_between (keys : list string) (pl pr : nat) (a : list nat)
    : Prop :=
  forall p q, (pl <= p)%nat -> (p <= q)%nat -> (q <= pr)%nat ->
              String.leb (key_at keys a p) (key_at keys a q) = true.

(** What is used of NumPy's heapsort: it puts the rows of the range in
    key order and leaves the rest of the array alone. *)
Definition heapsort_sorts `{Numpy} : Prop :=
  forall (keys : list string) (pl pr : nat) (a : list nat),
    (pl <= pr)%nat -> (pr < length a)%nat ->
    range_perm pl pr a (npy_aheapsort keys pl pr a) /\
    sorted_between keys pl pr (npy_aheapsort keys pl pr a).

(** What a cell is worth once coerced; an absent cell is worth 0. *)
Definition cell_num `{Pandas} (o : option cell) : Q :=
  match o with
  | Some c => to_numeric_fillna c
  | None => 0
  end.

(** A column seen as (month, coerced amount) pairs, row by row. *)
Definition keyed_view `{Pandas} (cat : string) (df : DataFrame)
    : list (string * Q) :=
  map (fun r => (row_month r, cell_num (row_cells r !! cat))) (df_rows df).

(** No row has a cell outside the column labels. *)
Definition frame_ok (df : DataFrame) : Prop :=
  forall r c, In r (df_rows df) -> c ∉ df_columns df ->
              row_cells r !! c = None.

(** The cells of a column are numbers (or absent). *)
Definition numeric_at `{Pandas} (cat : string) (df : DataFrame) : Prop :=
  forall r, In r (df_rows df) ->
            cell_value (row_cells r !! cat) = cell_num (row_cells r !! cat).

(** A column holds a positive coerced sum. *)
Definition used_in `{Pandas} (df : DataFrame) (cat : string) : Prop :=
  cat ∈ df_columns df /\ 0 < Qsum (map snd (keyed_view cat df)).

(** An amount with at most two decimals. *)
Definition two_decimals (q : Q) : Prop := exists z : Z, q == z # 100.

(** The four keys that one iteration of the lag loop writes. *)
Definition feature_keys (category : string) : list string :=
  [category +:+ "_lag1"; category +:+ "_lag2";
   category +:+ "_lag3"; category +:+ "_rolling_avg_3"].

(** The labels that the [features] dict always has. *)
Definition trained_label (k : string) : Prop :=
  k = "month_num"
  \/ exists category,
       In category EXPENSE_CATEGORIES /\ In k (feature_keys category).

(** ** A concrete library instance and model bank, for running the code *)

Module Sample.

Fixpoint digits_value (acc : Z) (s : string) : option Z :=
  match s with
  | "" => Some acc
  | String a s' =>
      match Ascii.is_nat a with
      | Some d => digits_value (10 * acc + Z.of_nat d) s'
      | None => None
      end
  end.

(** Unsigned decimal integers only; anything else is NaN. *)
Definition parse_number (s : string) : option Q :=
  match s with
  | "" => None
  | _ => inject_Z <$> digits_value 0 s
  end.

(** ["YYYY-MM"], the format of the endpoint's documentation. *)
Definition parse_year_month (s : string) : option Timestamp :=
  if (String.length s =? 7)%nat then
    match digits_value 0 (substring 0 4 s), String.get 4 s,
          digits_value 0 (substring 5 2 s) with
    | Some y, Some "-"%char, Some m =>
        if ((1 <=? m) && (m <=? 12))%Z
        then Some {| ts_year := y; ts_month := m |}
        else None
    | _, _, _ => None
    end
  else None.

(** Square root to six decimal places. *)
Definition sqrt6 (q : Q) : Q :=
  Z.sqrt (Qfloor (q * 1000000000000)) # 1000000.

#[global] Instance pandas : Pandas :=
  {| to_numeric_str := parse_number;
     to_datetime := parse_year_month;
     np_sqrt := sqrt6 |}.

(** A stand-in for NumPy's heapsort that sorts the range too. *)
#[global] Instance numpy : Numpy :=
  {| npy_aheapsort := insertion_sort |}.

(** The column order that train_model.py stores (lines 35-47). *)
Definition trained_columns : list string :=
  "month_num" ::
  flat_map (fun category =>
              [category +:+ "_lag1"; category +:+ "_lag2";
               category +:+ "_lag3"; category +:+ "_rolling_avg_3"])
           EXPENSE_CATEGORIES.

(** A bank whose scalers are the identity and whose model for every
    category answers the sum of the features divided by 7. *)
Definition bank : ModelData :=
  {| feature_columns := trained_columns;
     scalers := list_to_map (map (fun c => (c, fun x => x)) EXPENSE_CATEGORIES);
     models := list_to_map
                 (map (fun c => (c, fun x : list Q => Qred (Qsum x / 7)))
                      EXPENSE_CATEGORIES) |}.

Definition entry (m : string) (kvs : list (string * jvalue)) : MonthlyRecord :=
  {| month := m; amounts := list_to_map kvs |}.

(** Three months of groceries only, out of order, ending in December. *)
Definition groceries_2024 : list MonthlyRecord :=
  [entry "2024-12" [("Groceries", JNum 320)];
   entry "2024-10" [("Groceries", JStr "300"); ("Shopping", JNull)];
   entry "2024-11" [("Groceries", JNum 310); ("Utilities", JStr "n/a")]].

Definition month_of (m : string) (groceries : Q) : MonthlyRecord :=
  entry m [("Groceries", JNum groceries)].

(** Six months of identical grocery spending. *)
Definition steady : list MonthlyRecord :=
  [month_of "2024-01" 300; month_of "2024-02" 300; month_of "2024-03" 300;
   month_of "2024-04" 300; month_of "2024-05" 300; month_of "2024-06" 300].

(** Six months of erratic grocery spending. *)
Definition erratic : list MonthlyRecord :=
  [month_of "2024-01" 100; month_of "2024-02" 900; month_of "2024-03" 50;
   month_of "2024-04" 800; month_of "2024-05" 20; month_of "2024-06" 700].

(** Six months without any spending. *)
Definition idle : list MonthlyRecord :=
  [entry "2024-01" []; entry "2024-02" []; entry "2024-03" [];
   entry "2024-04" []; entry "2024-05" []; entry "2024-06" []].

(** What the code returns, or the empty dict when it raises. *)
Definition run (h : list MonthlyRecord) : pydict :=
  match predict_expenses (Some bank) h with
  | Returned r => r
  | Raised _ => []
  end.

End Sample.

(** ** Further notions used in the proofs *)

(** Two categories would write a common key in the lag loop. *)
Definition keys_clash (c c' : string) : bool :=
  existsb (fun k => existsb (String.eqb k) (feature_keys c'))
          (feature_keys c).

(** No two different categories of the fixed list write a common key. *)
Definition category_keys_apart : bool :=
  forallb (fun c =>
             forallb (fun c' => String.eqb c c' || negb (keys_clash c c'))
                     EXPENSE_CATEGORIES)
          EXPENSE_CATEGORIES.

(** ** The [/api/predict] endpoint (api_server.py, lines 157-201) *)

(** An item of the request's history list when it is a JSON object,
    as in the endpoint's documentation: a dict that may lack the
    ['month'] key. *)
Record HistoryItem := {
  item_month : option string;
  item_amounts : gmap string jvalue
}.

(** What the request body holds under ['history']. *)
Inductive history_field :=
  | NoHistory
  | NotAList
  | HistoryList (items : list HistoryItem).

(** [request.get_json()]; [EmptyBody] is any body that Python takes as
    false. *)
Inductive request_json :=
  | EmptyBody
  | Body (history : history_field).

(** The endpoint's answer: [jsonify(result)] with status 200,
    [jsonify({'error': message})] with status 400, or
    [jsonify({'error': str(e)})] with status 500. *)
Inductive api_response :=
  | Ok200 (result : pydict)
  | BadRequest400 (error : string)
  | ServerError500 (e : exn).

(** Lines 187-189, for items that are JSON objects: the first item
    without ['month'] stops the request.  Items of other JSON types are
    covered by [check_entries] below. *)
Fixpoint validate_history (items : list HistoryItem)
    : option (list MonthlyRecord) :=
  match items with
  | [] => Some []
  | item :: items' =>
      match item_month item with
      | None => None
      | Some m =>
          cons {| month := m; amounts := item_amounts item |}
            <$> validate_history items'
      end
  end.

Definition predict `{Pandas} (model_data : option ModelData)
    (data : request_json) : api_response :=
  match data with
  | EmptyBody => BadRequest400 "Missing history data"
  | Body NoHistory => BadRequest400 "Missing history data"
  | Body NotAList => BadRequest400 "History must be a non-empty list"
  | Body (HistoryList []) => BadRequest400 "History must be a non-empty list"
  | Body (HistoryList items) =>
      match validate_history items with
      | None => BadRequest400 "Each history entry must have a month field"
      | Some history =>
          match predict_expenses model_data history with
          | Returned result => Ok200 result
          | Raised e => ServerError500 e
          end
      end
  end.

(** *** The request checks on any JSON body (lines 176-189) *)

(** [validate_history] above covers the requests of the endpoint's
    documentation, whose history items are JSON objects.  The checks
    themselves run on whatever JSON value the body parses to; they are
    modelled here on every such value; the fields of an object are the
    items of the Python dict, so their keys are pairwise different.  (A
    body that does not parse makes [get_json] raise, which the handler
    answers with 500.) *)
#[warnings="-register-all"]
Inductive json :=
  | JsNull
  | JsBool (b : bool)
  | JsNumber (q : Q)
  | JsString (s : string)
  | JsArray (elements : list json)
  | JsObject (fields : list (string * json)).

(** [not v]: [None], [False], zero and the empty string, list and dict
    count as false. *)
Definition py_not (v : json) : bool :=
  match v with
  | JsNull => true
  | JsBool b => negb b
  | JsNumber q => Qeq_bool q 0
  | JsString s => match s with EmptyString => true | _ => false end
  | JsArray elements => match elements with [] => true | _ => false end
  | JsObject fields => match fields with [] => true | _ => false end
  end.

(** [key in v]: a dict is searched for the key, a string for the
    substring and a list for an equal element; on [None], a boolean or
    a number Python raises TypeError, which is [None] here. *)
Definition py_in (key : string) (v : json) : option bool :=
  match v with
  | JsObject fields => Some (existsb (fun kv => String.eqb key (fst kv)) fields)
  | JsString s =>
      Some (match String.index 0 key s with Some _ => true | None => false end)
  | JsArray elements =>
      Some (existsb (fun x => match x with
                              | JsString s => String.eqb key s
                              | _ => false
                              end) elements)
  | JsNull | JsBool _ | JsNumber _ => None
  end.

(** [v[key]] for a string [key]: the value that a dict holds under the
    key; [None] when Python raises (KeyError on a dict without the key,
    TypeError on a string or a list, which take integer indices). *)
Definition py_getitem (key : string) (v : json) : option json :=
  match v with
  | JsObject fields =>
      snd <$> find (fun kv => String.eqb key (fst kv)) fields
  | _ => None
  end.

(** How the checks end: with the answer 400, with an exception (the
    handler of lines 199-201 answers 500), or with the call
    [predict_expenses(history)] of line 193. *)
Inductive request_check :=
  | Refused (error : string)
  | Crashed
  | Passed (history : list json).

(** Lines 187-189. *)
Fixpoint check_entries (history entries : list json) : request_check :=
  match entries with
  | [] => Passed history
  | entry :: entries' =>
      match py_in "month" entry with
      | None => Crashed
      | Some false => Refused "Each history entry must have a month field"
      | Some true => check_entries history entries'
      end
  end.

(** Lines 176-189. *)
Definition check_request (data : json) : request_check :=
  if py_not data then Refused "Missing history data"
  else
    match py_in "history" data with
    | None => Crashed
    | Some false => Refused "Missing history data"
    | Some true =>
        match py_getitem "history" data with
        | None => Crashed
        | Some (JsArray []) => Refused "History must be a non-empty list"
        | Some (JsArray history) => check_entries history history
        | Some _ => Refused "History must be a non-empty list"
        end
    end.

(** A typed item of [validate_history] as the JSON object that it
    stands for. *)
Definition jvalue_json (v : jvalue) : json :=
  match v with
  | JNum q => JsNumber q
  | JStr s => JsString s
  | JNull => JsNull
  end.

Definition item_json (item : HistoryItem) : json :=
  JsObject
    ((match item_month item with
      | Some m => [("month", JsString m)]
      | None => []
      end)
     ++ map (fun kv => (fst kv, jvalue_json (snd kv)))
            (map_to_list (delete "month" (item_amounts item))))%list.

(** The loop over the entries stops at the first entry for which
    ['month' in entry] is not true; [verdict] is what it is there. *)
Definition stops_with (verdict : option bool) (entries : list json) : Prop :=
  exists (i : nat) (entry : json),
    entries !! i = Some entry /\
    py_in "month" entry = verdict /\
    forall (j : nat) (e : json),
      (j < i)%nat -> entries !! j = Some e -> py_in "month" e = Some true.

(** ** The [/api/recommendations] endpoint (lines 210-282) *)

Record Recommendation := {
  rec_type : string;
  rec_message : string;
  rec_action : string
}.

(** The request body: [RecBody predictions current_budget], each of
    the two keys present or not; the predictions are a dict of numbers,
    in the order of the JSON object. *)
Inductive rec_request :=
  | RecEmptyBody
  | RecBody (predictions : option (list (string * Q)))
            (current_budget : option Q).

Record RecommendationReport := {
  recommendations : list Recommendation;
  predicted_total : Q;
  budget_difference : Q;
  savings_potential : Q
}.

Inductive rec_response :=
  | RecOk200 (report : RecommendationReport)
  | RecBadRequest400 (error : string)
  | RecZeroDivision500.

(** Python's [sum]: a left fold from 0. *)
Definition py_sum (l : list Q) : Q := fold_left Qplus l 0.

Fixpoint zeros (n : nat) : string :=
  match n with
  | O => ""
  | S n' => "0" +:+ zeros n'
  end.

(** [f"{q:.2f}"], [f"{q:.1f}"]: [digits] decimals, for [digits >= 1]. *)
Definition format_fixed (digits : nat) (q : Q) : string :=
  let scale := (10 ^ Z.of_nat digits)%Z in
  let n := round_half_even (Qabs q * inject_Z scale) in
  let fraction := str_of_int (n mod scale) in
  (if decide (q < 0) then "-" else "")
    +:+ str_of_int (n / scale) +:+ "."
    +:+ zeros (digits - String.length fraction) +:+ fraction.

(** [high_categories.sort(key=lambda x: x[1], reverse=True)]: a stable
    sort by descending amount. *)
Fixpoint insert_desc (x : string * Q) (l : list (string * Q))
    : list (string * Q) :=
  match l with
  | [] => [x]
  | y :: l' =>
      if Qle_bool (snd y) (snd x) then x :: y :: l'
      else y :: insert_desc x l'
  end.

Definition sort_desc (l : list (string * Q)) : list (string * Q) :=
  fold_right insert_desc [] l.

(** Lines 235-248. *)
Definition budget_recommendations (total_predicted current_budget : Q)
    : list Recommendation :=
  if decide (current_budget < total_predicted) then
    let difference := total_predicted - current_budget in
    [{| rec_type := "warning";
        rec_message :=
          "Your predicted expenses ($" +:+ format_fixed 2 total_predicted
            +:+ ") exceed your budget by $" +:+ format_fixed 2 difference;
        rec_action :=
          "Consider reducing spending in high-expense categories" |}]
  else if decide (total_predicted < current_budget * (7 # 10)) then
    let difference := current_budget - total_predicted in
    [{| rec_type := "success";
        rec_message :=
          "You're on track to save $" +:+ format_fixed 2 difference
            +:+ " this month!";
        rec_action :=
          "Consider putting extra savings into an emergency fund" |}]
  else [].

(** Lines 251-253. *)
Definition high_categories (predictions : list (string * Q))
    : list (string * Q) :=
  sort_desc
    (List.filter
       (fun kv => negb (Qle_bool (snd kv) 0)
                  && negb (String.eqb (fst kv) "total"))
       predictions).

Definition category_tip (top_category : string) (pct : Q) : Recommendation :=
  {| rec_type := "tip";
     rec_message :=
       top_category +:+ " is your largest expense at "
         +:+ format_fixed 1 pct +:+ "% of total spending";
     rec_action :=
       "Look for ways to optimize " +:+ top_category +:+ " costs" |}.

Definition general_tip : Recommendation :=
  {| rec_type := "tip";
     rec_message := "Track your expenses weekly to stay on budget";
     rec_action := "Set up spending alerts for each category" |}.

Definition get_recommendations (data : rec_request) : rec_response :=
  match data with
  | RecEmptyBody | RecBody None _ =>
      RecBadRequest400 "Missing predictions data"
  | RecBody (Some predictions) budget =>
      let current_budget := default 2000 budget in
      let total_predicted := py_sum (map snd predictions) in
      let recs := budget_recommendations total_predicted current_budget in
      let finish (recs : list Recommendation) :=
        let recs :=
          if (length recs <? 3)%nat then (recs ++ [general_tip])%list
          else recs in
        RecOk200
          {| recommendations := recs;
             predicted_total := round2 total_predicted;
             budget_difference := round2 (current_budget - total_predicted);
             savings_potential :=
               round2 (max0 (current_budget - total_predicted)) |} in
      match high_categories predictions with
      | [] => finish recs
      | (top_category, top_amount) :: _ =>
          if Qeq_bool total_predicted 0 then RecZeroDivision500
          else
            let pct := top_amount / total_predicted * 100 in
            if decide (30 < pct)
            then finish (recs ++ [category_tip top_category pct])%list
            else finish recs
      end
  end.

(** What line 251 keeps: a positive amount under a key other than
    ['total']. *)
Definition ranked (kv : string * Q) : Prop :=
  0 < snd kv /\ fst kv <> "total".

(** ** train_model.py: [ExpensePredictor] *)

(** The fields of the object; [self_feature_columns] is [None] until
    [prepare_features] runs for training. *)
Record ExpensePredictor := {
  self_models : gmap string (list Q -> Q);
  self_scalers : gmap string (list Q -> list Q);
  self_feature_columns : option (list string);
  self_categories : list string
}.

(** [__init__] (lines 24-28). *)
Definition new_predictor : ExpensePredictor :=
  {| self_models := ∅;
     self_scalers := ∅;
     self_feature_columns := None;
     self_categories := EXPENSE_CATEGORIES |}.

(** [feature_cols] of [prepare_features] (lines 32-44). *)
Definition feature_cols (categories : list string) : list string :=
  "month_num" ::
  flat_map (fun category =>
              [category +:+ "_lag1"; category +:+ "_lag2";
               category +:+ "_lag3"; category +:+ "_rolling_avg_3"])
           categories.

(** What [train] (lines 52-121) leaves in the object: the feature
    columns of [prepare_features] and, for every category in turn, a
    fitted model and scaler.  Fitting is scikit-learn's; [fit] stands
    for the scaler and the model it yields for a category on the
    training data. *)
Definition train
    (fit : string -> (list Q -> list Q) * (list Q -> Q))
    (self : ExpensePredictor) : ExpensePredictor :=
  fold_left
    (fun self category =>
       {| self_models :=
            <[category := snd (fit category)]> (self_models self);
          self_scalers :=
            <[category := fst (fit category)]> (self_scalers self);
          self_feature_columns := self_feature_columns self;
          self_categories := self_categories self |})
    (self_categories self)
    {| self_models := self_models self;
       self_scalers := self_scalers self;
       self_feature_columns := Some (feature_cols (self_categories self));
       self_categories := self_categories self |}.

(** The dict that [save] pickles (lines 182-187) and that api_server.py
    unpickles into [model_data], of which it reads ['models'],
    ['scalers'] and ['feature_columns']. *)
Definition saved_model_data (self : ExpensePredictor) : option ModelData :=
  match self_feature_columns self with
  | None => None
  | Some columns =>
      Some {| feature_columns := columns;
              scalers := self_scalers self;
              models := self_models self |}
  end.

(** What [predict_next_month] raises: its own [ValueError], the
    [KeyError] of indexing with the [None] of an untrained object, or
    an exception that [predict_expenses] knows too. *)
Inductive trainer_exn :=
  | ValueError (msg : string)
  | KeyErrorNone
  | Other (e : exn).

(** [predictions[key] = value] on a dict kept in insertion order. *)
Fixpoint dict_set (key : string) (value : Q) (d : list (string * Q))
    : list (string * Q) :=
  match d with
  | [] => [(key, value)]
  | (k, v) :: d' =>
      if String.eqb k key then (k, value) :: d'
      else (k, v) :: dict_set key value d'
  end.

(** Lines 152-164, one iteration. *)
Definition history_lag_step (user_history last_3_months : DataFrame)
    (features : gmap string Q) (category : string) : gmap string Q :=
  if decide (category ∈ df_columns user_history) then
    let values := column category last_3_months in
    <[category +:+ "_rolling_avg_3" := mean values]>
      (<[category +:+ "_lag3" := lag 3 values]>
         (<[category +:+ "_lag2" := lag 2 values]>
            (<[category +:+ "_lag1" := lag 1 values]> features)))
  else
    <[category +:+ "_rolling_avg_3" := 0]>
      (<[category +:+ "_lag3" := 0]>
         (<[category +:+ "_lag2" := 0]>
            (<[category +:+ "_lag1" := 0]> features))).

(** Lines 171-174. *)
Fixpoint predict_all (self : ExpensePredictor) (X : list Q)
    (categories : list string) (predictions : list (string * Q))
    : trainer_exn + list (string * Q) :=
  match categories with
  | [] => inr predictions
  | category :: categories' =>
      match self_scalers self !! category with
      | None => inl (Other (KeyError category))
      | Some scaler =>
          match self_models self !! category with
          | None => inl (Other (KeyError category))
          | Some model =>
              predict_all self X categories'
                (dict_set category (max0 (round2 (model (scaler X))))
                   predictions)
          end
      end
  end.

(** [predict_next_month] (lines 123-178), for a frame whose category
    columns hold numbers. *)
Definition predict_next_month `{Pandas} (self : ExpensePredictor)
    (user_history : DataFrame) : trainer_exn + list (string * Q) :=
  if (length (df_rows user_history) <? 3)%nat then
    inl (ValueError "Need at least 3 months of history for prediction")
  else
    let user_history := sort_values_month user_history in
    let last_3_months :=
      {| df_columns := df_columns user_history;
         df_rows := tail3 (df_rows user_history) |} in
    match last (map row_month (df_rows user_history)) with
    | None => inl (Other IndexError)
    | Some m =>
        match to_datetime m with
        | None => inl (Other (DateParseError m))
        | Some last_month_date =>
            let features :=
              fold_left (history_lag_step user_history last_3_months)
                (self_categories self)
                {["month_num" :=
                    inject_Z (next_month_num last_month_date)]} in
            match self_feature_columns self with
            | None => inl KeyErrorNone
            | Some columns =>
                match select_columns columns features with
                | Raised e => inl (Other e)
                | Returned X =>
                    match predict_all self X (self_categories self) [] with
                    | inl e => inl e
                    | inr predictions =>
                        inr (dict_set "total"
                               (round2 (py_sum (map snd predictions)))
                               predictions)
                    end
                end
            end
        end
    end.

(** What one category's entry of the returned dict is. *)
Definition predicted_by (self : ExpensePredictor) (X : list Q)
    (category : string) (kv : string * Q) : Prop :=
  fst kv = category /\
  exists scaler model,
    self_scalers self !! category = Some scaler /\
    self_models self !! category = Some model /\
    snd kv = max0 (round2 (model (scaler X))).

(** [load] (lines 192-202) applied to a bank and the category list
    pickled with it. *)
Definition load (model_data : ModelData) (categories : list string)
    : ExpensePredictor :=
  {| self_models := models model_data;
     self_scalers := scalers model_data;
     self_feature_columns := Some (feature_columns model_data);
     self_categories := categories |}.

(** ** generate_training_data.py: [create_features] (lines 186-204),
       on the series of one user and one category in [month_index]
       order *)

(** [groupby('user_id')[category].shift(lag)]: every value moves [lag]
    rows down and the first [lag] rows hold NaN. *)
Definition shift {A} (lag : nat) (series : list A) : list (option A) :=
  (replicate (Nat.min lag (length series)) None
   ++ map Some (firstn (length series - lag) series))%list.

(** The lag column once line 204 has filled its NaN with 0. *)
Definition lag_column (lag : nat) (series : list Q) : list Q :=
  map (default 0) (shift lag series).

(** [x.rolling(window=3, min_periods=1).mean()]: the window slides
    over the series and holds at most the three latest values. *)
Fixpoint rolling_mean_from (window series : list Q) : list Q :=
  match series with
  | [] => []
  | x :: series' =>
      let window' := tail3 (window ++ [x]) in
      mean window' :: rolling_mean_from window' series'
  end.

Definition rolling_avg_3_column (series : list Q) : list Q :=
  rolling_mean_from [] series.

(** ** Further concrete inputs, for running the code *)

Module Demo.

Definition october : MonthlyRecord :=
  Sample.entry "2024-10" [("Groceries", JStr "300"); ("Shopping", JNull)].

Definition november : MonthlyRecord :=
  Sample.entry "2024-11" [("Groceries", JNum 310); ("Utilities", JStr "n/a")].

Definition december : MonthlyRecord :=
  Sample.entry "2024-12" [("Groceries", JNum 320)].

(** The entries of [Sample.groceries_2024] in month order. *)
Definition in_month_order : list MonthlyRecord :=
  [october; november; december].

Definition returned {A} (o : outcome A) : bool :=
  match o with
  | Returned _ => true
  | Raised _ => false
  end.

(** What [feature_vector] returns, or the empty dict when it raises. *)
Definition features_of (h : list MonthlyRecord) : gmap string Q :=
  match feature_vector h with
  | Returned features => features
  | Raised _ => ∅
  end.

(** A request with one dated item. *)
Definition one_month : list HistoryItem :=
  [{| item_month := Some "2024-01";
      item_amounts := list_to_map [("Groceries", JNum 300)] |}].

(** Predictions sent to the recommendations endpoint. *)
Definition basket : list (string * Q) :=
  [("Groceries", 300); ("Shopping", 1800); ("Utilities", 0)].

Definition cancelling : list (string * Q) :=
  [("Groceries", 5); ("Shopping", -5)].

Definition report_of (data : rec_request) : RecommendationReport :=
  match get_recommendations data with
  | RecOk200 report => report
  | _ => {| recommendations := []; predicted_total := 0;
            budget_difference := 0; savings_potential := 0 |}
  end.

(** The predictions of a returned forecast. *)
Definition predictions_of (r : pydict) : list (string * Q) :=
  match dict_get "predictions" r with
  | Some (PyDict predictions) => predictions
  | _ => []
  end.

(** A fit that yields the identity scaler and, for every category, the
    model of [Sample.bank]. *)
Definition fit (category : string) : (list Q -> list Q) * (list Q -> Q) :=
  (fun x => x, fun x => Qred (Qsum x / 7)).

(** What [predict_next_month] returns, or the empty dict when it
    raises. *)
Definition next_month_of (self : ExpensePredictor) (df : DataFrame)
    : list (string * Q) :=
  match predict_next_month self df with
  | inr d => d
  | inl _ => []
  end.

(** One user's amounts in a category, month after month. *)
Definition series : list Q := [100; 110; 120; 130; 140].

(** Twenty entries of the same month, with groceries of 1 to 20. *)
Definition january : list MonthlyRecord :=
  map (fun n => Sample.month_of "2024-01" (inject_Z (Z.of_nat n))) (seq 1 20).

(** Two years of groceries, month by month, and the same entries with
    the second year first. *)
Definition year_of (y : string) (base : Z) : list MonthlyRecord :=
  map (fun mm => Sample.month_of (y +:+ "-" +:+ fst mm)
                   (inject_Z (base + snd mm)))
      [("01", 1); ("02", 2); ("03", 3); ("04", 4); ("05", 5); ("06", 6);
       ("07", 7); ("08", 8); ("09", 9); ("10", 10); ("11", 11);
       ("12", 12)]%Z.

Definition two_years : list MonthlyRecord :=
  (year_of "2024" 200 ++ rev (year_of "2023" 100))%list.

Definition two_years_in_month_order : list MonthlyRecord :=
  (year_of "2023" 100 ++ year_of "2024" 200)%list.

(** Bodies for the request checks: a history with a number in it, one
    whose item is a string that contains the word, and one whose second
    item is an object without the key. *)
Definition body_of (entries : list json) : json :=
  JsObject [("history", JsArray entries)].

Definition dated : json := JsObject [("month", JsString "2024-01")].

Definition with_number : json := body_of [dated; JsNumber 5].

Definition with_text : json := body_of [JsString "a month ago"].

Definition without_month : json :=
  body_of [dated; JsObject [("Groceries", JsNumber 300)]; JsNumber 5].

End Demo.

(** * Properties *)

Section Orchestrator.
Context `{Pandas}.

(** What a normal return of [predict_expenses] on three or more
    entries is made of. *)
Lemma predict_expenses_returned md h r :
  (3 <= length h)%nat ->
  predict_expenses (Some md) h = Returned r ->
  exists d X predictions,
    last_month_date_of (fst (prepare h)) = Returned d /\
    select_columns (feature_columns md)
      (build_features (fst (prepare h)) d) = Returned X /\
    predict_loop md X (snd (prepare h)) EXPENSE_CATEGORIES
      = Returned predictions /\
    r = [("predictions", PyDict predictions);
         ("total", PyNum (round2 (Qsum (map snd predictions))));
         ("confidence",
          PyStr (confidence_of (length h) (fst (prepare h))));
         ("history_months", PyInt (Z.of_nat (length h)));
         ("next_month", PyStr (next_month_label d))].
Proof.
  intros Hlen Hret. unfold predict_expenses in Hret.
  destruct (Nat.ltb_spec (length h) 3) as [Hlt | _]; [lia |].
  destruct (prepare h) as [df ucs]; cbn [fst snd].
  destruct (last_month_date_of df) as [d | e] eqn:Ed; cbn [bind] in Hret;
    [| discriminate].
  destruct (select_columns _ _) as [X | e] eqn:EX; cbn [bind] in Hret;
    [| discriminate].
  destruct (predict_loop _ _ _ _) as [ps | e] eqn:Eps; cbn [bind] in Hret;
    [| discriminate].
  exists d, X, ps. injection Hret as <-. repeat split; assumption.
Qed.

Lemma predict_expenses_short md h :
  (length h < 3)%nat ->
  predict_expenses (Some md) h = Returned insufficient_history_result.
Proof.
  intros Hlen. unfold predict_expenses.
  destruct (Nat.ltb_spec (length h) 3); [reflexivity | lia].
Qed.

(** C1.  With the model bank loaded, a history of fewer than three
    entries makes [predict_expenses] return normally (no exception)
    a dict whose prediction is 0 for each of the eight categories,
    whose total is 0, whose confidence is "low", and which carries the
    message that at least three months of history are needed. *)
Theorem C1_short_history_degenerate_result md h :
  (length h < 3)%nat ->
  exists r predictions,
    predict_expenses (Some md) h = Returned r /\
    dict_get "predictions" r = Some (PyDict predictions) /\
    map fst predictions = EXPENSE_CATEGORIES /\
    (forall cat, In cat EXPENSE_CATEGORIES ->
                 alist_get cat predictions = Some 0) /\
    dict_get "total" r = Some (PyNum 0) /\
    dict_get "confidence" r = Some (PyStr "low") /\
    dict_get "message" r =
      Some (PyStr
        "Need at least 3 months of history for accurate predictions").
Proof.
  intros Hlen.
  exists insufficient_history_result,
         (map (fun cat => (cat, 0)) EXPENSE_CATEGORIES).
  split; [apply predict_expenses_short; exact Hlen |].
  repeat split; try reflexivity.
  intros cat Hin. simpl in Hin.
  repeat (destruct Hin as [<- | Hin]; [reflexivity |]).
  destruct Hin.
Qed.

(** C10.  The result for a history of fewer than three entries has
    exactly the keys predictions, total, confidence and message, so it
    has no history_months and no next_month, while every result
    returned for three or more entries has both of these keys. *)
Theorem C10_degenerate_result_keys md h :
  (length h < 3)%nat ->
  exists r,
    predict_expenses (Some md) h = Returned r /\
    dict_keys r = ["predictions"; "total"; "confidence"; "message"] /\
    dict_get "history_months" r = None /\
    dict_get "next_month" r = None /\
    (forall h' r',
       (3 <= length h')%nat ->
       predict_expenses (Some md) h' = Returned r' ->
       dict_keys r' = ["predictions"; "total"; "confidence";
                       "history_months"; "next_month"] /\
       dict_get "history_months" r'
         = Some (PyInt (Z.of_nat (length h'))) /\
       is_Some (dict_get "next_month" r')).
Proof.
  intros Hlen. exists insufficient_history_result.
  split; [apply predict_expenses_short; exact Hlen |].
  repeat split; try reflexivity.
  all: destruct (predict_expenses_returned md h' r')
         as (d & X & ps & _ & _ & _ & ->); auto.
  all: try reflexivity.
Qed.

End Orchestrator.

(** ** The month sort *)

Section Sorting.
Context {A : Type} (key : A -> string).

Lemma insert_by_Permutation x l : insert_by key x l ≡ₚ x :: l.
Proof.
  induction l as [| y l IH]; simpl; [reflexivity |].
  destruct (String.leb (key x) (key y)); [reflexivity |].
  rewrite IH. apply Permutation_swap.
Qed.

Lemma sort_by_Permutation l : sort_by key l ≡ₚ l.
Proof.
  induction l as [| x l IH]; simpl; [reflexivity |].
  rewrite insert_by_Permutation, IH. reflexivity.
Qed.

Lemma sort_by_length l : length (sort_by key l) = length l.
Proof. apply Permutation_length, sort_by_Permutation. Qed.

Lemma insert_by_head x l :
  HdRel (key_le key) x l -> insert_by key x l = x :: l.
Proof.
  destruct l as [| y l]; [reflexivity |].
  intros Hhd. apply HdRel_inv in Hhd. simpl.
  unfold key_le in Hhd. rewrite Hhd. reflexivity.
Qed.

(** A frame that is already in month order is left as it is. *)
Lemma sort_by_sorted l : Sorted (key_le key) l -> sort_by key l = l.
Proof.
  induction 1 as [| x l Hs IH Hhd]; simpl; [reflexivity |].
  rewrite IH. apply insert_by_head. exact Hhd.
Qed.

Lemma insert_by_Sorted x l :
  Sorted (key_le key) l -> Sorted (key_le key) (insert_by key x l).
Proof.
  induction 1 as [| y l Hs IH Hhd]; simpl.
  - repeat constructor.
  - destruct (String.leb (key x) (key y)) eqn:Hxy.
    + repeat constructor; assumption.
    + constructor; [exact IH |].
      assert (Hyx : (key_le key) y x).
      { destruct (String.leb_total (key x) (key y)) as [Ht | Ht];
          [congruence | exact Ht]. }
      destruct l as [| z l]; simpl.
      * constructor. exact Hyx.
      * destruct (String.leb (key x) (key z)); constructor;
          [exact Hyx | apply HdRel_inv in Hhd; exact Hhd].
Qed.

Lemma sort_by_Sorted l : Sorted (key_le key) (sort_by key l).
Proof.
  induction l as [| x l IH]; simpl; [constructor |].
  apply insert_by_Sorted, IH.
Qed.

Lemma sort_by_idempotent l : sort_by key (sort_by key l) = sort_by key l.
Proof. apply sort_by_sorted, sort_by_Sorted. Qed.

End Sorting.

Lemma insert_by_map {A B} (f : A -> B) (kA : A -> string) (kB : B -> string)
    x l :
  (forall a, kB (f a) = kA a) ->
  insert_by kB (f x) (map f l) = map f (insert_by kA x l).
Proof.
  intros Hk. induction l as [| y l IH]; simpl; [reflexivity |].
  rewrite !Hk. destruct (String.leb (kA x) (kA y)); simpl; [reflexivity |].
  rewrite IH. reflexivity.
Qed.

(** Sorting commutes with any row-wise change that keeps the months. *)
Lemma sort_by_map {A B} (f : A -> B) (kA : A -> string) (kB : B -> string) l :
  (forall a, kB (f a) = kA a) ->
  sort_by kB (map f l) = map f (sort_by kA l).
Proof.
  intros Hk. induction l as [| x l IH]; simpl; [reflexivity |].
  rewrite IH. apply insert_by_map. exact Hk.
Qed.

(** ** The sort that pandas runs, on short frames *)

Section NumpyInsertion.
Context `{Numpy}.
Variable keys : list string.

Lemma shift_up_spec vi : forall above rest x,
  shift_up keys vi 0 (rev above ++ x :: rest)%list (length above)
  = (rev (insert_right keys vi above) ++ rest)%list.
Proof.
  induction above as [| y above IH]; intros rest x.
  - reflexivity.
  - cbn [length shift_up insert_right].
    assert (Hat : at_pos (rev (y :: above) ++ x :: rest)%list (length above)
                  = y).
    { unfold at_pos. cbn [rev]. rewrite <- app_assoc.
      rewrite app_nth2 by (rewrite length_rev; lia).
      rewrite length_rev, Nat.sub_diag. reflexivity. }
    unfold key_at. rewrite Hat. fold (row_key keys vi) (row_key keys y).
    cbn [Nat.ltb Nat.leb andb].
    destruct (String.ltb (row_key keys vi) (row_key keys y)).
    + cbn [rev]. rewrite <- !app_assoc. cbn [app].
      replace (<[S (length above) := y]> (rev above ++ y :: x :: rest)%list)
        with (rev above ++ y :: y :: rest)%list.
      * rewrite IH. reflexivity.
      * symmetry. rewrite insert_app_r_alt by (rewrite length_rev; lia).
        rewrite length_rev.
        replace (S (length above) - length above)%nat with 1%nat by lia.
        reflexivity.
    + cbn [rev]. rewrite <- !app_assoc. cbn [app].
      rewrite insert_app_r_alt by (rewrite length_rev; lia).
      rewrite length_rev.
      replace (S (length above) - length above)%nat with 1%nat by lia.
      reflexivity.
Qed.

Lemma insert_right_length vi above :
  length (insert_right keys vi above) = S (length above).
Proof.
  induction above as [| y above IH]; simpl; [reflexivity |].
  destruct (String.ltb _ _); simpl; rewrite ?IH; reflexivity.
Qed.

(** The outer loop of the insertion sort, on an array whose first
    rows are already in place. *)
Lemma insertion_loop_spec : forall rest above,
  fold_left (fun a pi => shift_up keys (at_pos a pi) 0 a pi)
            (seq (length above) (length rest)) (rev above ++ rest)%list
  = rev (fold_left (fun r vi => insert_right keys vi r) rest above).
Proof.
  induction rest as [| x rest IH]; intros above.
  - cbn [length seq fold_left]. apply app_nil_r.
  - cbn [length seq fold_left].
    assert (Hat : at_pos (rev above ++ x :: rest)%list (length above) = x).
    { unfold at_pos. rewrite app_nth2 by (rewrite length_rev; lia).
      rewrite length_rev, Nat.sub_diag. reflexivity. }
    rewrite Hat, shift_up_spec.
    rewrite <- (insert_right_length x above). apply IH.
Qed.

Lemma insertion_sort_spec n :
  insertion_sort keys 0 (n - 1) (seq 0 n)
  = rev (fold_left (fun r vi => insert_right keys vi r) (seq 0 n) []).
Proof.
  destruct n as [| n]; [reflexivity |].
  unfold insertion_sort. cbn [seq fold_left insert_right].
  replace (S n - 1 - 0)%nat with (length (seq 1 n))
    by (rewrite length_seq; lia).
  apply (insertion_loop_spec (seq 1 n) [0%nat]).
Qed.

(** Up to 17 rows [argsort] is the insertion sort alone. *)
Lemma np_argsort_short :
  (length keys <= 17)%nat ->
  np_argsort keys
  = Some (rev (fold_left (fun r vi => insert_right keys vi r)
                 (seq 0 (length keys)) [])).
Proof.
  intros Hlen. unfold np_argsort.
  destruct (length keys) as [| n] eqn:En.
  - reflexivity.
  - cbn [quicksort_range].
    destruct (Nat.ltb_spec 16 (S n - 1 - 0)) as [Hlt | _]; [lia |].
    rewrite insertion_sort_spec. reflexivity.
Qed.

Lemma ltb_leb s1 s2 : String.ltb s1 s2 = negb (String.leb s2 s1).
Proof.
  unfold String.ltb, String.leb. rewrite (String.compare_antisym s2 s1).
  destruct (String.compare s1 s2); reflexivity.
Qed.

Lemma stable_le_trans (k : nat -> string) : Transitive (stable_le k).
Proof.
  intros x y z [Hxy Hxy'] [Hyz Hyz'].
  assert (Hle : forall a b c, String.leb a b = true -> String.leb b c = true ->
                              String.leb a c = true).
  { intros a b c Hab Hbc. apply Is_true_true.
    apply Is_true_true in Hab, Hbc.
    exact (transitivity (R := String.le) Hab Hbc). }
  split; [exact (Hle _ _ _ Hxy Hyz) |].
  intros Hzx. transitivity y.
  - apply Hxy'. exact (Hle _ _ _ Hyz Hzx).
  - apply Hyz'. exact (Hle _ _ _ Hzx Hxy).
Qed.

Lemma insert_right_Permutation vi above :
  insert_right keys vi above ≡ₚ vi :: above.
Proof.
  induction above as [| y above IH]; simpl; [reflexivity |].
  destruct (String.ltb _ _); [| reflexivity].
  rewrite IH. apply Permutation_swap.
Qed.

(** A row that comes after all the rows in place keeps them in stable
    order when it is inserted. *)
Lemma insert_right_Sorted vi above :
  Sorted (flip (stable_le (row_key keys))) above ->
  Forall (fun y => (y < vi)%nat) above ->
  Sorted (flip (stable_le (row_key keys))) (insert_right keys vi above).
Proof.
  induction 1 as [| y above Hs IH Hhd]; intros Hlt; simpl.
  - repeat constructor.
  - apply Forall_cons in Hlt. destruct Hlt as [Hy Hlt].
    rewrite ltb_leb.
    destruct (String.leb (row_key keys y) (row_key keys vi)) eqn:Hle;
      cbn [negb].
    + constructor; [constructor; assumption |]. constructor.
      split; [exact Hle | intros _; lia].
    + assert (Hvy : String.leb (row_key keys vi) (row_key keys y) = true).
      { destruct (String.leb_total (row_key keys vi) (row_key keys y))
          as [Ht | Ht]; [exact Ht | congruence]. }
      constructor; [apply IH, Hlt |].
      destruct above as [| z above]; simpl.
      * constructor. split; [exact Hvy | intros Hno; congruence].
      * destruct (String.ltb _ _); constructor.
        -- apply HdRel_inv in Hhd. exact Hhd.
        -- split; [exact Hvy | intros Hno; congruence].
Qed.

Lemma insertion_fold_spec : forall rest above,
  Sorted (flip (stable_le (row_key keys))) above ->
  StronglySorted lt rest ->
  Forall (fun y => Forall (fun x => (y < x)%nat) rest) above ->
  let result := fold_left (fun r vi => insert_right keys vi r) rest above in
  Sorted (flip (stable_le (row_key keys))) result /\
  result ≡ₚ (above ++ rest)%list.
Proof.
  induction rest as [| x rest IH]; intros above Hs Hlt Hbelow;
    cbn [fold_left].
  - split; [exact Hs |]. rewrite app_nil_r. reflexivity.
  - apply StronglySorted_inv in Hlt. destruct Hlt as [Hlt Hx].
    destruct (IH (insert_right keys x above)) as [Hs' Hp'].
    + apply insert_right_Sorted; [exact Hs |].
      eapply Forall_impl; [exact Hbelow |].
      intros y Hy. apply Forall_cons in Hy. tauto.
    + exact Hlt.
    + rewrite insert_right_Permutation. constructor; [exact Hx |].
      eapply Forall_impl; [exact Hbelow |].
      intros y Hy. apply Forall_cons in Hy. tauto.
    + split; [exact Hs' |]. rewrite Hp', insert_right_Permutation.
      apply Permutation_middle.
Qed.

Lemma seq_StronglySorted start len : StronglySorted lt (seq start len).
Proof.
  revert start. induction len as [| len IH]; intros start; simpl;
    constructor; [apply IH |].
  apply Forall_forall. intros x Hx.
  apply list_elem_of_In, in_seq in Hx. lia.
Qed.

(** The order of the insertion sort: sorted by key, rows of equal keys
    in their first order. *)
Lemma insertion_order_spec n :
  let order := rev (fold_left (fun r vi => insert_right keys vi r)
                      (seq 0 n) []) in
  Sorted (stable_le (row_key keys)) order /\ order ≡ₚ seq 0 n.
Proof.
  destruct (insertion_fold_spec (seq 0 n) []) as [Hs Hp].
  - constructor.
  - apply seq_StronglySorted.
  - constructor.
  - cbv zeta. split.
    + rewrite rev_alt. apply (Sorted_reverse (flip (stable_le (row_key keys)))).
      exact Hs.
    + rewrite <- Permutation_rev. exact Hp.
Qed.

End NumpyInsertion.

Section StableSort.
Context `{Numpy} {A : Type} (key : A -> string).

(** [sort_by] keeps elements of equal keys in their first order: on
    positions listed in ascending order it returns them in stable
    order. *)
Lemma insert_by_stable (k : nat -> string) i l :
  Sorted (stable_le k) l ->
  Forall (fun j => (i < j)%nat) l ->
  Sorted (stable_le k) (insert_by k i l).
Proof.
  induction 1 as [| j l Hs IH Hhd]; intros Hlt; simpl.
  - repeat constructor.
  - apply Forall_cons in Hlt. destruct Hlt as [Hj Hlt].
    destruct (String.leb (k i) (k j)) eqn:Hle.
    + constructor; [constructor; assumption |]. constructor.
      split; [exact Hle | intros _; lia].
    + assert (Hji : String.leb (k j) (k i) = true).
      { destruct (String.leb_total (k i) (k j)) as [Ht | Ht];
          [congruence | exact Ht]. }
      constructor; [apply IH, Hlt |].
      destruct l as [| z l]; simpl.
      * constructor. split; [exact Hji | intros Hno; congruence].
      * destruct (String.leb (k i) (k z)); constructor.
        -- split; [exact Hji | intros Hno; congruence].
        -- apply HdRel_inv in Hhd. exact Hhd.
Qed.

Lemma sort_by_stable (k : nat -> string) l :
  StronglySorted lt l -> Sorted (stable_le k) (sort_by k l).
Proof.
  induction 1 as [| i l Hs IH Hlt]; simpl; [constructor |].
  apply insert_by_stable; [exact IH |].
  rewrite sort_by_Permutation. exact Hlt.
Qed.

(** Sorting positions and sorting the elements at these positions go
    together. *)
Lemma insert_by_Forall2 {B} (P : B -> A -> Prop) (kB : B -> string) b a bs l :
  (forall b a, P b a -> kB b = key a) ->
  P b a -> Forall2 P bs l ->
  Forall2 P (insert_by kB b bs) (insert_by key a l).
Proof.
  intros Hk Hba. induction 1 as [| b' a' bs l Hba' Hrest IH]; simpl.
  - repeat constructor. exact Hba.
  - rewrite (Hk b a Hba), (Hk b' a' Hba').
    destruct (String.leb (key a) (key a')); repeat constructor; assumption.
Qed.

Lemma sort_by_Forall2 {B} (P : B -> A -> Prop) (kB : B -> string) bs l :
  (forall b a, P b a -> kB b = key a) ->
  Forall2 P bs l ->
  Forall2 P (sort_by kB bs) (sort_by key l).
Proof.
  intros Hk. induction 1 as [| b a bs l Hba _ IH]; simpl; [constructor |].
  apply insert_by_Forall2; assumption.
Qed.

(** Up to 17 rows the sort that pandas runs is the stable sort of the
    code model. *)
Lemma np_sort_by_short l :
  (length l <= 17)%nat -> np_sort_by key l = Some (sort_by key l).
Proof.
  intros Hlen. unfold np_sort_by.
  rewrite np_argsort_short by (rewrite length_map; exact Hlen).
  rewrite length_map.
  destruct (insertion_order_spec (map key l) (length l)) as [Hs Hp].
  cbv zeta in Hs, Hp.
  pose proof (stable_le_trans (row_key (map key l))) as Htrans.
  assert (Horder : rev (fold_left
                          (fun r vi => insert_right (map key l) vi r)
                          (seq 0 (length l)) [])
                   = sort_by (row_key (map key l)) (seq 0 (length l))).
  { apply (Sorted_unique_strong (stable_le (row_key (map key l)))).
    - intros i j _ _ [Hle Hij] [Hle' Hji].
      specialize (Hij Hle'). specialize (Hji Hle). lia.
    - exact Hs.
    - apply sort_by_stable, seq_StronglySorted.
    - rewrite Hp, sort_by_Permutation. reflexivity. }
  rewrite Horder. unfold take_rows. apply mapM_Some.
  apply sort_by_Forall2.
  - intros i a Hia. unfold row_key.
    apply nth_lookup_Some with (d := EmptyString).
    rewrite list_lookup_fmap, Hia. reflexivity.
  - apply Forall2_same_length_lookup. split; [apply length_seq |].
    intros i x a Hx Ha. apply lookup_seq in Hx. destruct Hx as [-> _].
    exact Ha.
Qed.

End StableSort.

(** ** The sort that pandas runs sorts *)

Section ArrayFacts.

Lemma at_pos_insert_eq a p x :
  (p < length a)%nat -> at_pos (<[p := x]> a) p = x.
Proof.
  intros Hp. unfold at_pos. apply nth_lookup_Some.
  apply list_lookup_insert_eq. exact Hp.
Qed.

Lemma at_pos_insert_ne a p q x :
  p <> q -> at_pos (<[p := x]> a) q = at_pos a q.
Proof.
  intros Hne. unfold at_pos. rewrite !nth_lookup.
  rewrite list_lookup_insert_ne by exact Hne. reflexivity.
Qed.

Lemma length_swap_pos p q a : length (swap_pos p q a) = length a.
Proof. unfold swap_pos. rewrite !length_insert. reflexivity. Qed.

Lemma at_pos_swap_l p q a :
  (p < length a)%nat -> (q < length a)%nat ->
  at_pos (swap_pos p q a) p = at_pos a q.
Proof.
  intros Hp Hq. unfold swap_pos.
  destruct (decide (q = p)) as [-> | Hne].
  - apply at_pos_insert_eq. rewrite length_insert. exact Hp.
  - rewrite at_pos_insert_ne by exact Hne.
    apply at_pos_insert_eq. exact Hp.
Qed.

Lemma at_pos_swap_r p q a :
  (p < length a)%nat -> (q < length a)%nat ->
  at_pos (swap_pos p q a) q = at_pos a p.
Proof.
  intros Hp Hq. unfold swap_pos.
  apply at_pos_insert_eq. rewrite length_insert. exact Hq.
Qed.

Lemma at_pos_swap_other p q a r :
  r <> p -> r <> q -> at_pos (swap_pos p q a) r = at_pos a r.
Proof.
  intros Hp Hq. unfold swap_pos.
  rewrite !at_pos_insert_ne by congruence. reflexivity.
Qed.

Lemma range_perm_refl pl pr a : range_perm pl pr a a.
Proof.
  split; [reflexivity |]. split; [reflexivity |].
  split; intros p Hp; exists p; auto.
Qed.

Lemma range_perm_trans pl pr a1 a2 a3 :
  range_perm pl pr a1 a2 -> range_perm pl pr a2 a3 -> range_perm pl pr a1 a3.
Proof.
  intros (Hl1 & Ho1 & Hf1 & Ht1) (Hl2 & Ho2 & Hf2 & Ht2).
  split; [congruence |]. split; [| split].
  - intros p Hp. rewrite Ho2, Ho1 by exact Hp. reflexivity.
  - intros p Hp. destruct (Hf2 p Hp) as (p' & Hp' & ->).
    destruct (Hf1 p' Hp') as (p'' & Hp'' & ->). eauto.
  - intros p Hp. destruct (Ht1 p Hp) as (p' & Hp' & <-).
    destruct (Ht2 p' Hp') as (p'' & Hp'' & <-). eauto.
Qed.

Lemma range_perm_weaken pl pr pl' pr' a a' :
  (pl <= pl')%nat -> (pr' <= pr)%nat ->
  range_perm pl' pr' a a' -> range_perm pl pr a a'.
Proof.
  intros Hl Hr (Hlen & Ho & Hf & Ht).
  split; [exact Hlen |]. split; [| split].
  - intros p Hp. apply Ho. lia.
  - intros p Hp.
    destruct (decide (pl' <= p <= pr')%nat) as [Hin | Hout].
    + destruct (Hf p Hin) as (p' & Hp' & Heq). exists p'. split; [lia | auto].
    + exists p. split; [exact Hp |]. apply Ho. lia.
  - intros p Hp.
    destruct (decide (pl' <= p <= pr')%nat) as [Hin | Hout].
    + destruct (Ht p Hin) as (p' & Hp' & Heq). exists p'. split; [lia | auto].
    + exists p. split; [exact Hp |]. apply Ho. lia.
Qed.

Lemma range_perm_swap pl pr p q a :
  (pl <= p <= pr)%nat -> (pl <= q <= pr)%nat ->
  (p < length a)%nat -> (q < length a)%nat ->
  range_perm pl pr a (swap_pos p q a).
Proof.
  intros Hp Hq Hpl Hql.
  split; [apply length_swap_pos |]. split; [| split].
  - intros r Hr. apply at_pos_swap_other; lia.
  - intros r Hr.
    destruct (decide (r = q)) as [-> | Hnq].
    { exists p. split; [exact Hp |]. apply at_pos_swap_r; assumption. }
    destruct (decide (r = p)) as [-> | Hnp].
    { exists q. split; [exact Hq |]. apply at_pos_swap_l; assumption. }
    exists r. split; [exact Hr |]. apply at_pos_swap_other; assumption.
  - intros r Hr.
    destruct (decide (r = p)) as [-> | Hnp].
    { exists q. split; [exact Hq |]. apply at_pos_swap_r; assumption. }
    destruct (decide (r = q)) as [-> | Hnq].
    { exists p. split; [exact Hp |]. apply at_pos_swap_l; assumption. }
    exists r. split; [exact Hr |]. apply at_pos_swap_other; assumption.
Qed.

End ArrayFacts.

Section Scans.
Variable keys : list string.

Lemma run_length_spec {A} (f : A -> bool) (d : A) l :
  (run_length f l <= length l)%nat /\
  (forall i, (i < run_length f l)%nat -> f (nth i l d) = true) /\
  ((run_length f l < length l)%nat -> f (nth (run_length f l) l d) = false).
Proof.
  induction l as [| x l (IH1 & IH2 & IH3)]; simpl.
  - split; [lia |]. split; intros; lia.
  - destruct (f x) eqn:Hx.
    + split; [lia |]. split.
      * intros [| i] Hi; [exact Hx | apply IH2; lia].
      * intros Hlt. apply IH3. lia.
    + split; [lia |]. split; [intros i Hi; lia | intros _; exact Hx].
Qed.

Lemma nth_skipn_add {A} (l : list A) m i d :
  nth i (skipn m l) d = nth (m + i) l d.
Proof. rewrite !nth_lookup, lookup_drop. reflexivity. Qed.

Lemma nth_rev_firstn {A} (l : list A) m i d :
  (m <= length l)%nat -> (i < m)%nat ->
  nth i (rev (firstn m l)) d = nth (m - 1 - i) l d.
Proof.
  intros Hm Hi. rewrite rev_nth by (rewrite length_firstn; lia).
  rewrite length_firstn, Nat.min_l by exact Hm.
  rewrite !nth_lookup, lookup_take_lt by lia.
  replace (m - S i)%nat with (m - 1 - i)%nat by lia. reflexivity.
Qed.

(** The scan upwards stops at the first row that is not below the
    pivot, at the latest at a row [s] that is known not to be. *)
Lemma scan_up_spec a vp pi s :
  (pi < s)%nat -> (s < length a)%nat ->
  String.ltb (key_at keys a s) vp = false ->
  let p' := scan_up keys a vp pi in
  (pi < p' <= s)%nat /\
  (forall p, (pi < p < p')%nat -> String.ltb (key_at keys a p) vp = true) /\
  String.ltb (key_at keys a p') vp = false.
Proof.
  intros Hpi Hs Hstop. unfold scan_up.
  set (f := fun row : nat => String.ltb (nth row keys EmptyString) vp).
  set (l := skipn (S pi) a).
  destruct (run_length_spec f 0%nat l) as (Hlen & Hrun & Hend).
  assert (Hl : length l = (length a - S pi)%nat) by apply length_skipn.
  assert (Hk : (run_length f l <= s - S pi)%nat).
  { destruct (le_lt_dec (run_length f l) (s - S pi)) as [Hle | Hgt];
      [exact Hle |].
    specialize (Hrun (s - S pi)%nat Hgt). unfold l in Hrun.
    rewrite nth_skipn_add in Hrun.
    replace (S pi + (s - S pi))%nat with s in Hrun by lia.
    unfold f in Hrun. unfold key_at, at_pos in Hstop. congruence. }
  cbv zeta. split; [lia |]. split.
  - intros p Hp. specialize (Hrun (p - S pi)%nat ltac:(lia)).
    unfold l in Hrun. rewrite nth_skipn_add in Hrun.
    replace (S pi + (p - S pi))%nat with p in Hrun by lia. exact Hrun.
  - specialize (Hend ltac:(lia)). unfold l in Hend.
    rewrite nth_skipn_add in Hend. exact Hend.
Qed.

(** The scan downwards stops at the last row that is not above the
    pivot, at the latest at a row [s] that is known not to be. *)
Lemma scan_down_spec a vp pj s :
  (s < pj)%nat -> (pj <= length a)%nat ->
  String.ltb vp (key_at keys a s) = false ->
  let p' := scan_down keys a vp pj in
  (s <= p' < pj)%nat /\
  (forall p, (p' < p < pj)%nat -> String.ltb vp (key_at keys a p) = true) /\
  String.ltb vp (key_at keys a p') = false.
Proof.
  intros Hs Hpj Hstop. unfold scan_down.
  set (g := fun row : nat => String.ltb vp (nth row keys EmptyString)).
  set (l := rev (firstn pj a)).
  destruct (run_length_spec g 0%nat l) as (Hlen & Hrun & Hend).
  assert (Hl : length l = pj).
  { unfold l. rewrite length_rev, length_firstn. lia. }
  assert (Hk : (run_length g l <= pj - 1 - s)%nat).
  { destruct (le_lt_dec (run_length g l) (pj - 1 - s)) as [Hle | Hgt];
      [exact Hle |].
    specialize (Hrun (pj - 1 - s)%nat Hgt). unfold l in Hrun.
    rewrite nth_rev_firstn in Hrun by lia.
    replace (pj - 1 - (pj - 1 - s))%nat with s in Hrun by lia.
    unfold g in Hrun. unfold key_at, at_pos in Hstop. congruence. }
  cbv zeta. split; [lia |]. split.
  - intros p Hp.
    assert (Hi : (pj - 1 - p < run_length g l)%nat) by lia.
    specialize (Hrun (pj - 1 - p)%nat Hi).
    unfold l in Hrun. rewrite nth_rev_firstn in Hrun by lia.
    replace (pj - 1 - (pj - 1 - p))%nat with p in Hrun by lia. exact Hrun.
  - assert (Hlt : (run_length g l < length l)%nat) by lia.
    specialize (Hend Hlt). rewrite Hl in Hlt. unfold l in Hend, Hlt.
    rewrite nth_rev_firstn in Hend by assumption. exact Hend.
Qed.

End Scans.

Section Partition.
Variable keys : list string.

Lemma ltb_false_leb s t : String.ltb s t = false -> String.leb t s = true.
Proof.
  rewrite ltb_leb. destruct (String.leb t s); [reflexivity | discriminate].
Qed.

Lemma leb_ltb_false s t : String.leb t s = true -> String.ltb s t = false.
Proof. rewrite ltb_leb. intros ->. reflexivity. Qed.

Lemma ltb_true_leb s t : String.ltb s t = true -> String.leb s t = true.
Proof.
  rewrite ltb_leb. intros Hlt.
  destruct (String.leb_total s t) as [Hle | Hle]; [exact Hle |].
  rewrite Hle in Hlt. discriminate Hlt.
Qed.

Lemma leb_trans s t u :
  String.leb s t = true -> String.leb t u = true -> String.leb s u = true.
Proof.
  intros Hst Htu. apply Is_true_true. apply Is_true_true in Hst, Htu.
  exact (transitivity (R := String.le) Hst Htu).
Qed.

Lemma leb_refl s : String.leb s s = true.
Proof. destruct (String.leb_total s s); assumption. Qed.

Lemma key_at_eq a a' p q :
  at_pos a' p = at_pos a q -> key_at keys a' p = key_at keys a q.
Proof. unfold key_at. intros ->. reflexivity. Qed.

(** The partition loop: when it is entered with the rows up to [pi]
    not above the pivot and the rows from [pj] on not below it, it
    ends, at a position [pi'] with all the rows before it not above the
    pivot and the rows from it on not below. *)
Lemma partition_loop_spec vp pl pr : forall fuel a pi pj,
  (pj - pi <= fuel)%nat ->
  (pl <= pi)%nat -> (pi < pj)%nat -> (pj < pr)%nat -> (pr < length a)%nat ->
  (forall p, (pl <= p <= pi)%nat -> String.leb (key_at keys a p) vp = true) ->
  (forall p, (pj <= p <= pr)%nat -> String.leb vp (key_at keys a p) = true) ->
  exists a' pi',
    partition_loop fuel keys vp a pi pj = Some (a', pi') /\
    range_perm (S pi) (pj - 1) a a' /\
    (pi < pi' <= pj)%nat /\
    (forall p, (pl <= p < pi')%nat ->
               String.leb (key_at keys a' p) vp = true) /\
    (forall p, (pi' <= p <= pr)%nat ->
               String.leb vp (key_at keys a' p) = true).
Proof.
  induction fuel as [| fuel IH]; intros a pi pj Hfuel Hpl Hlt Hpr Hlen HL HR.
  { lia. }
  cbn [partition_loop].
  destruct (scan_up_spec keys a vp pi pj Hlt ltac:(lia)
              (leb_ltb_false _ _ (HR pj ltac:(lia))))
    as (Hup & Hbelow & Hat_up).
  destruct (scan_down_spec keys a vp pj pi Hlt ltac:(lia)
              (leb_ltb_false _ _ (HL pi ltac:(lia))))
    as (Hdown & Habove & Hat_down).
  set (pi1 := scan_up keys a vp pi) in *.
  set (pj1 := scan_down keys a vp pj) in *.
  destruct (Nat.leb_spec pj1 pi1) as [Hmeet | Hmeet].
  - exists a, pi1. split; [reflexivity |].
    split; [apply range_perm_refl |]. split; [lia |]. split.
    + intros p Hp. destruct (le_lt_dec p pi) as [Hle | Hgt];
        [apply HL; lia | apply ltb_true_leb, Hbelow; lia].
    + intros p Hp. destruct (le_lt_dec pj p) as [Hle | Hgt];
        [apply HR; lia |].
      destruct (decide (p = pi1)) as [-> | Hne];
        [apply ltb_false_leb, Hat_up | apply ltb_true_leb, Habove; lia].
  - assert (Hl1 : (pi1 < length a)%nat) by lia.
    assert (Hl2 : (pj1 < length a)%nat) by lia.
    destruct (IH (swap_pos pi1 pj1 a) pi1 pj1)
      as (a' & pi' & Hrun & Hperm & Hpi' & HL' & HR').
    + lia.
    + lia.
    + exact Hmeet.
    + lia.
    + rewrite length_swap_pos. exact Hlen.
    + intros p Hp. destruct (decide (p = pi1)) as [-> | Hne].
      * rewrite (key_at_eq a _ pi1 pj1) by (apply at_pos_swap_l; assumption).
        apply ltb_false_leb, Hat_down.
      * rewrite (key_at_eq a _ p p) by (apply at_pos_swap_other; lia).
        destruct (le_lt_dec p pi) as [Hle | Hgt];
          [apply HL; lia | apply ltb_true_leb, Hbelow; lia].
    + intros p Hp. destruct (decide (p = pj1)) as [-> | Hne].
      * rewrite (key_at_eq a _ pj1 pi1) by (apply at_pos_swap_r; assumption).
        apply ltb_false_leb, Hat_up.
      * rewrite (key_at_eq a _ p p) by (apply at_pos_swap_other; lia).
        destruct (le_lt_dec pj p) as [Hle | Hgt];
          [apply HR; lia | apply ltb_true_leb, Habove; lia].
    + exists a', pi'. split; [exact Hrun |].
      split; [| split; [lia | split; assumption]].
      apply (range_perm_trans _ _ _ (swap_pos pi1 pj1 a)).
      * apply range_perm_swap; lia.
      * apply (range_perm_weaken _ _ (S pi1) (pj1 - 1)); [lia | lia |].
        exact Hperm.
Qed.

End Partition.

Section InsertionRange.
Variable keys : list string.

Lemma shift_up_range vi pre : forall above rest x pj,
  pj = (length pre + length above)%nat ->
  shift_up keys vi (length pre) (pre ++ rev above ++ x :: rest)%list pj
  = (pre ++ rev (insert_right keys vi above) ++ rest)%list.
Proof.
  induction above as [| y above IH]; intros rest x pj ->.
  - cbn [length rev app insert_right]. rewrite Nat.add_0_r.
    assert (Hins : <[length pre := vi]> (pre ++ x :: rest)%list
                   = (pre ++ vi :: rest)%list).
    { rewrite insert_app_r_alt by lia. rewrite Nat.sub_diag. reflexivity. }
    destruct (length pre) as [| k] eqn:Ek; cbn [shift_up].
    + exact Hins.
    + rewrite Nat.ltb_irrefl. cbn [andb]. exact Hins.
  - cbn [length]. rewrite Nat.add_succ_r. cbn [shift_up insert_right].
    assert (Hat : at_pos (pre ++ rev (y :: above) ++ x :: rest)%list
                    (length pre + length above) = y).
    { unfold at_pos. cbn [rev]. rewrite app_nth2 by lia.
      replace (length pre + length above - length pre)%nat
        with (length above) by lia.
      rewrite <- app_assoc. rewrite app_nth2 by (rewrite length_rev; lia).
      rewrite length_rev, Nat.sub_diag. reflexivity. }
    unfold key_at. rewrite Hat. fold (row_key keys vi) (row_key keys y).
    assert (Hlt : (length pre <? S (length pre + length above))%nat = true)
      by (apply Nat.ltb_lt; lia).
    rewrite Hlt. cbn [andb].
    assert (Hins : forall z,
              <[S (length pre + length above) := z]>
                (pre ++ rev (y :: above) ++ x :: rest)%list
              = (pre ++ rev above ++ y :: z :: rest)%list).
    { intros z. cbn [rev]. rewrite insert_app_r_alt by lia.
      rewrite <- app_assoc. cbn [app].
      rewrite insert_app_r_alt by (rewrite length_rev; lia).
      rewrite length_rev.
      replace (S (length pre + length above) - length pre - length above)%nat
        with 1%nat by lia.
      reflexivity. }
    rewrite !Hins.
    destruct (String.ltb (row_key keys vi) (row_key keys y)).
    + rewrite (IH (y :: rest) y _ eq_refl). cbn [rev].
      rewrite <- !app_assoc. reflexivity.
    + cbn [rev]. rewrite <- !app_assoc. reflexivity.
Qed.

Lemma insertion_loop_range pre post : forall rest above,
  fold_left (fun a pi => shift_up keys (at_pos a pi) (length pre) a pi)
            (seq (length pre + length above) (length rest))
            (pre ++ rev above ++ rest ++ post)%list
  = (pre ++ rev (fold_left (fun r vi => insert_right keys vi r) rest above)
         ++ post)%list.
Proof.
  induction rest as [| x rest IH]; intros above.
  - reflexivity.
  - cbn [length seq fold_left].
    assert (Hat : at_pos (pre ++ rev above ++ (x :: rest) ++ post)%list
                    (length pre + length above) = x).
    { unfold at_pos. rewrite app_nth2 by lia.
      replace (length pre + length above - length pre)%nat
        with (length above) by lia.
      rewrite app_nth2 by (rewrite length_rev; lia).
      rewrite length_rev, Nat.sub_diag. reflexivity. }
    rewrite Hat. cbn [app].
    rewrite (shift_up_range x pre above (rest ++ post) x _ eq_refl).
    rewrite <- Nat.add_succ_r, <- (insert_right_length keys x above).
    apply IH.
Qed.

Lemma rows_le_trans : Transitive (rows_le keys).
Proof. intros x y z. unfold rows_le. apply leb_trans. Qed.

Lemma insert_right_rows_Sorted vi above :
  Sorted (flip (rows_le keys)) above ->
  Sorted (flip (rows_le keys)) (insert_right keys vi above).
Proof.
  induction 1 as [| y above Hs IH Hhd]; simpl.
  - repeat constructor.
  - destruct (String.ltb (row_key keys vi) (row_key keys y)) eqn:Hlt.
    + constructor; [exact IH |].
      destruct above as [| z above]; simpl.
      * constructor. apply ltb_true_leb, Hlt.
      * destruct (String.ltb (row_key keys vi) (row_key keys z));
          constructor.
        -- apply HdRel_inv in Hhd. exact Hhd.
        -- apply ltb_true_leb, Hlt.
    + constructor; [constructor; assumption |]. constructor.
      apply ltb_false_leb, Hlt.
Qed.

Lemma insertion_fold_rows : forall rest above,
  Sorted (flip (rows_le keys)) above ->
  let result := fold_left (fun r vi => insert_right keys vi r) rest above in
  Sorted (flip (rows_le keys)) result /\ result ≡ₚ (above ++ rest)%list.
Proof.
  induction rest as [| x rest IH]; intros above Hs; cbn [fold_left].
  - split; [exact Hs |]. rewrite app_nil_r. reflexivity.
  - destruct (IH (insert_right keys x above)) as [Hs' Hp'].
    + apply insert_right_rows_Sorted, Hs.
    + split; [exact Hs' |]. rewrite Hp', insert_right_Permutation.
      apply Permutation_middle.
Qed.

End InsertionRange.

Section Segments.
Variable keys : list string.

Lemma at_pos_segment pre seg post p :
  (length pre <= p)%nat -> (p < length pre + length seg)%nat ->
  at_pos (pre ++ seg ++ post)%list p = nth (p - length pre) seg 0%nat.
Proof.
  intros Hl Hr. unfold at_pos.
  rewrite app_nth2 by lia. rewrite app_nth1 by lia. reflexivity.
Qed.

Lemma at_pos_before pre rest p :
  (p < length pre)%nat -> at_pos (pre ++ rest)%list p = nth p pre 0%nat.
Proof. intros Hp. unfold at_pos. apply app_nth1. exact Hp. Qed.

Lemma at_pos_after pre seg post p :
  (length pre + length seg <= p)%nat ->
  at_pos (pre ++ seg ++ post)%list p
  = nth (p - length pre - length seg) post 0%nat.
Proof.
  intros Hp. unfold at_pos.
  rewrite app_nth2 by lia. rewrite app_nth2 by lia. reflexivity.
Qed.

Lemma In_nth_pos (l : list nat) x :
  In x l -> exists i, (i < length l)%nat /\ nth i l 0%nat = x.
Proof. apply In_nth. Qed.

(** Rearranging a segment of the array is a permutation of the range
    that it occupies. *)
Lemma range_perm_segment pre seg seg' post :
  seg' ≡ₚ seg -> seg <> [] ->
  range_perm (length pre) (length pre + length seg - 1)
             (pre ++ seg ++ post)%list (pre ++ seg' ++ post)%list.
Proof.
  intros Hperm Hne.
  assert (Hlen : length seg' = length seg) by (apply Permutation_length, Hperm).
  assert (Hpos : (0 < length seg)%nat).
  { destruct seg; [contradiction | simpl; lia]. }
  split; [| split; [| split]].
  - rewrite !length_app, Hlen. reflexivity.
  - intros p [Hp | Hp].
    + rewrite !at_pos_before by exact Hp. reflexivity.
    + rewrite !at_pos_after by lia. rewrite Hlen. reflexivity.
  - intros p Hp. rewrite at_pos_segment by lia.
    destruct (In_nth_pos seg (nth (p - length pre) seg' 0%nat))
      as (i & Hi & Heq).
    { apply (Permutation_in _ Hperm). apply nth_In. lia. }
    exists (length pre + i)%nat. split; [lia |].
    rewrite at_pos_segment by lia.
    replace (length pre + i - length pre)%nat with i by lia.
    symmetry. exact Heq.
  - intros p Hp. rewrite at_pos_segment by lia.
    destruct (In_nth_pos seg' (nth (p - length pre) seg 0%nat))
      as (i & Hi & Heq).
    { apply (Permutation_in _ (Permutation_sym Hperm)). apply nth_In. lia. }
    exists (length pre + i)%nat. split; [lia |].
    rewrite at_pos_segment by lia.
    replace (length pre + i - length pre)%nat with i by lia.
    exact Heq.
Qed.

Lemma Sorted_nth_le {A} (R : relation A) `{!Transitive R} `{!Reflexive R}
    (l : list A) d i j :
  Sorted R l -> (i <= j)%nat -> (j < length l)%nat ->
  R (nth i l d) (nth j l d).
Proof.
  intros Hs. apply Sorted_StronglySorted in Hs; [| assumption].
  revert i j. induction Hs as [| x l Hs IH Hall]; intros i j Hij Hj.
  - simpl in Hj. lia.
  - destruct i as [| i], j as [| j]; simpl in *.
    + reflexivity.
    + rewrite Forall_forall in Hall. apply Hall.
      apply list_elem_of_In, nth_In. lia.
    + lia.
    + apply IH; lia.
Qed.

Lemma rows_le_refl : Reflexive (rows_le keys).
Proof. intros x. apply leb_refl. Qed.

Lemma sorted_between_segment pre seg post :
  Sorted (rows_le keys) seg ->
  sorted_between keys (length pre) (length pre + length seg - 1)
                 (pre ++ seg ++ post)%list.
Proof.
  intros Hs p q Hp Hpq Hq.
  destruct seg as [| x seg'].
  { simpl in Hq. replace q with p by lia. apply leb_refl. }
  unfold key_at. rewrite !at_pos_segment by (simpl in *; lia).
  apply (Sorted_nth_le (rows_le keys) (Transitive0 := rows_le_trans keys)
           (Reflexive0 := rows_le_refl));
    [exact Hs | lia | simpl in *; lia].
Qed.

(** The insertion sort of a range sorts it and leaves the rest of the
    array alone. *)
Lemma insertion_sort_range a pl pr :
  (pl <= pr)%nat -> (pr < length a)%nat ->
  range_perm pl pr a (insertion_sort keys pl pr a) /\
  sorted_between keys pl pr (insertion_sort keys pl pr a).
Proof.
  intros Hle Hlen.
  assert (Hsplit : exists pre x0 seg post,
            a = (pre ++ (x0 :: seg) ++ post)%list /\
            length pre = pl /\ length seg = (pr - pl)%nat).
  { destruct (drop pl a) as [| x0 t] eqn:Ed.
    { apply (f_equal length) in Ed. rewrite length_drop in Ed.
      simpl in Ed. lia. }
    exists (take pl a), x0, (take (pr - pl) t), (drop (pr - pl) t).
    split; [| split].
    - cbn [app]. rewrite take_drop, <- Ed, take_drop. reflexivity.
    - rewrite length_take. lia.
    - apply (f_equal length) in Ed. rewrite length_drop in Ed.
      simpl in Ed. rewrite length_take. lia. }
  destruct Hsplit as (pre & x0 & seg & post & -> & <- & Hseg).
  assert (Hpr : pr = (length pre + length seg)%nat) by lia.
  clear Hle Hlen Hseg. subst pr.
  unfold insertion_sort.
  replace (length pre + length seg - length pre)%nat with (length seg)
    by lia.
  replace (S (length pre)) with (length pre + length [x0])%nat
    by (simpl; lia).
  change (pre ++ (x0 :: seg) ++ post)%list
    with (pre ++ rev [x0] ++ seg ++ post)%list.
  rewrite insertion_loop_range.
  destruct (insertion_fold_rows keys seg [x0]) as [Hs Hp];
    [repeat constructor |].
  cbv zeta in Hs, Hp.
  set (sorted := fold_left (fun r vi => insert_right keys vi r) seg [x0]) in *.
  assert (Hp' : rev sorted ≡ₚ x0 :: seg).
  { rewrite <- Permutation_rev. exact Hp. }
  assert (Hlens : length (rev sorted) = S (length seg))
    by (rewrite (Permutation_length Hp'); reflexivity).
  change (pre ++ rev [x0] ++ seg ++ post)%list
    with (pre ++ (x0 :: seg) ++ post)%list.
  split.
  - replace (length pre + length seg)%nat
      with (length pre + length (x0 :: seg) - 1)%nat by (simpl; lia).
    apply range_perm_segment; [exact Hp' | discriminate].
  - replace (length pre + length seg)%nat
      with (length pre + length (rev sorted) - 1)%nat by lia.
    apply sorted_between_segment.
    rewrite rev_alt. apply (Sorted_reverse (flip (rows_le keys))). exact Hs.
Qed.

End Segments.

Section Quicksort.
Context `{Numpy}.
Variable keys : list string.

(** One conditional swap of the median selection. *)
Lemma cond_swap_spec lo hi a :
  lo <> hi -> (lo < length a)%nat -> (hi < length a)%nat ->
  let a' := if String.ltb (key_at keys a hi) (key_at keys a lo)
            then swap_pos hi lo a else a in
  length a' = length a /\
  String.leb (key_at keys a' lo) (key_at keys a' hi) = true /\
  (forall r, r <> lo -> r <> hi -> at_pos a' r = at_pos a r) /\
  ((at_pos a' lo = at_pos a lo /\ at_pos a' hi = at_pos a hi)
   \/ (at_pos a' lo = at_pos a hi /\ at_pos a' hi = at_pos a lo)).
Proof.
  intros Hne Hlo Hhi. cbv zeta.
  destruct (String.ltb (key_at keys a hi) (key_at keys a lo)) eqn:Hlt.
  - split; [apply length_swap_pos |]. split; [| split].
    + rewrite (key_at_eq keys a (swap_pos hi lo a) lo hi)
        by (apply at_pos_swap_r; assumption).
      rewrite (key_at_eq keys a (swap_pos hi lo a) hi lo)
        by (apply at_pos_swap_l; assumption).
      apply ltb_true_leb, Hlt.
    + intros r Hr1 Hr2. apply at_pos_swap_other; assumption.
    + right. split; [apply at_pos_swap_r | apply at_pos_swap_l]; assumption.
  - split; [reflexivity |]. split; [apply ltb_false_leb, Hlt |].
    split; [reflexivity |]. left. split; reflexivity.
Qed.

Lemma range_perm_cond_swap pl pr lo hi a :
  (pl <= lo <= pr)%nat -> (pl <= hi <= pr)%nat ->
  (lo < length a)%nat -> (hi < length a)%nat ->
  range_perm pl pr a
    (if String.ltb (key_at keys a hi) (key_at keys a lo)
     then swap_pos hi lo a else a).
Proof.
  intros Hlo Hhi Hl1 Hl2.
  destruct (String.ltb _ _);
    [apply range_perm_swap; assumption | apply range_perm_refl].
Qed.

(** After the median selection the first, middle and last row of the
    range are in order. *)
Lemma median_of_three_spec pl pm pr a :
  (pl < pm)%nat -> (pm < pr)%nat -> (pr < length a)%nat ->
  let a' := median_of_three keys pl pm pr a in
  range_perm pl pr a a' /\
  String.leb (key_at keys a' pl) (key_at keys a' pm) = true /\
  String.leb (key_at keys a' pm) (key_at keys a' pr) = true.
Proof.
  intros H1 H2 Hlen. unfold median_of_three.
  set (a1 := if String.ltb (key_at keys a pm) (key_at keys a pl)
             then swap_pos pm pl a else a).
  destruct (cond_swap_spec pl pm a) as (Hl1 & Hle1 & _ & _); [lia ..|].
  fold a1 in Hl1, Hle1.
  assert (Hp1 : range_perm pl pr a a1)
    by (apply range_perm_cond_swap; lia).
  set (a2 := if String.ltb (key_at keys a1 pr) (key_at keys a1 pm)
             then swap_pos pr pm a1 else a1).
  destruct (cond_swap_spec pm pr a1) as (Hl2 & Hle2 & Hoth2 & Hcase2);
    [lia ..|].
  fold a2 in Hl2, Hle2, Hoth2, Hcase2.
  assert (Hp2 : range_perm pl pr a1 a2)
    by (apply range_perm_cond_swap; lia).
  assert (Hlo2 : key_at keys a2 pl = key_at keys a1 pl)
    by (apply key_at_eq, Hoth2; lia).
  assert (Hlr2 : String.leb (key_at keys a2 pl) (key_at keys a2 pr) = true).
  { rewrite Hlo2. destruct Hcase2 as [[Hm Hr] | [Hm Hr]].
    - rewrite (key_at_eq keys a1 a2 pr pr Hr).
      rewrite (key_at_eq keys a1 a2 pm pm Hm) in Hle2.
      rewrite (key_at_eq keys a1 a2 pr pr Hr) in Hle2.
      exact (leb_trans _ _ _ Hle1 Hle2).
    - rewrite (key_at_eq keys a1 a2 pr pm Hr). exact Hle1. }
  set (a3 := if String.ltb (key_at keys a2 pm) (key_at keys a2 pl)
             then swap_pos pm pl a2 else a2).
  destruct (cond_swap_spec pl pm a2) as (Hl3 & Hle3 & Hoth3 & Hcase3);
    [lia ..|].
  fold a3 in Hl3, Hle3, Hoth3, Hcase3.
  assert (Hp3 : range_perm pl pr a2 a3)
    by (apply range_perm_cond_swap; lia).
  cbv zeta. split; [| split].
  - exact (range_perm_trans _ _ _ _ _ (range_perm_trans _ _ _ _ _ Hp1 Hp2)
             Hp3).
  - exact Hle3.
  - rewrite (key_at_eq keys a2 a3 pr pr) by (apply Hoth3; lia).
    destruct Hcase3 as [[Hl Hm] | [Hl Hm]].
    + rewrite (key_at_eq keys a2 a3 pm pm Hm). exact Hle2.
    + rewrite (key_at_eq keys a2 a3 pm pl Hm). exact Hlr2.
Qed.

(** Two sorted ranges around a pivot make one sorted range. *)
Lemma sorted_join vp pl pi pr a a' :
  (pl < pi)%nat -> (pi < pr)%nat ->
  (forall p, (pl <= p < pi)%nat ->
             String.leb (key_at keys a p) vp = true) ->
  key_at keys a pi = vp ->
  (forall p, (pi < p <= pr)%nat ->
             String.leb vp (key_at keys a p) = true) ->
  (forall p, (pl <= p <= pi - 1)%nat ->
             exists p', (pl <= p' <= pi - 1)%nat /\
                        at_pos a' p = at_pos a p') ->
  at_pos a' pi = at_pos a pi ->
  (forall p, (pi + 1 <= p <= pr)%nat ->
             exists p', (pi + 1 <= p' <= pr)%nat /\
                        at_pos a' p = at_pos a p') ->
  sorted_between keys pl (pi - 1) a' ->
  sorted_between keys (pi + 1) pr a' ->
  sorted_between keys pl pr a'.
Proof.
  intros Hl Hr Hbelow Hpivot Habove Hfl Hmid Hfr Hsl Hsr.
  assert (Hlow : forall p, (pl <= p < pi)%nat ->
                           String.leb (key_at keys a' p) vp = true).
  { intros p Hp. destruct (Hfl p ltac:(lia)) as (p' & Hp' & Heq).
    rewrite (key_at_eq keys a a' p p' Heq). apply Hbelow. lia. }
  assert (Hhigh : forall p, (pi < p <= pr)%nat ->
                            String.leb vp (key_at keys a' p) = true).
  { intros p Hp. destruct (Hfr p ltac:(lia)) as (p' & Hp' & Heq).
    rewrite (key_at_eq keys a a' p p' Heq). apply Habove. lia. }
  assert (Hpiv : key_at keys a' pi = vp).
  { rewrite (key_at_eq keys a a' pi pi Hmid). exact Hpivot. }
  intros p q Hp Hpq Hq.
  destruct (lt_eq_lt_dec p pi) as [[Hp1 | ->] | Hp1];
    destruct (lt_eq_lt_dec q pi) as [[Hq1 | ->] | Hq1]; try lia.
  - apply Hsl; lia.
  - rewrite Hpiv. apply Hlow. lia.
  - apply (leb_trans _ vp); [apply Hlow | apply Hhigh]; lia.
  - apply leb_refl.
  - rewrite Hpiv. apply Hhigh. lia.
  - apply Hsr; lia.
Qed.

(** One partition ends and leaves the pivot at a position [pi], no row
    above it before and no row below it after. *)
Lemma partition_spec pl pr a :
  (16 < pr - pl)%nat -> (pr < length a)%nat ->
  let pm := (pl + (pr - pl) / 2)%nat in
  let a1 := median_of_three keys pl pm pr a in
  let vp := key_at keys a1 pm in
  exists a3 pi,
    partition_loop (pr - pl) keys vp (swap_pos pm (pr - 1) a1) pl (pr - 1)
      = Some (a3, pi) /\
    let a4 := swap_pos pi (pr - 1) a3 in
    (pl < pi)%nat /\ (pi < pr)%nat /\
    range_perm pl pr a a4 /\
    (forall p, (pl <= p < pi)%nat ->
               String.leb (key_at keys a4 p) vp = true) /\
    key_at keys a4 pi = vp /\
    (forall p, (pi < p <= pr)%nat ->
               String.leb vp (key_at keys a4 p) = true).
Proof.
  intros Hbig Hlen pm a1 vp.
  assert (Hpm : (pl < pm)%nat /\ (pm + 1 < pr)%nat).
  { unfold pm. pose proof (Nat.div_mod_eq (pr - pl) 2) as Hdiv.
    pose proof (Nat.mod_upper_bound (pr - pl) 2 ltac:(lia)) as Hmod. lia. }
  destruct (median_of_three_spec pl pm pr a) as (Hp1 & Hlm & Hmr);
    [lia ..|].
  cbv zeta in Hp1, Hlm, Hmr. fold a1 in Hp1, Hlm, Hmr. fold vp in Hlm, Hmr.
  assert (Hl1 : length a1 = length a) by apply Hp1.
  set (a2 := swap_pos pm (pr - 1) a1) in *.
  assert (Hp2 : range_perm pl pr a1 a2)
    by (apply range_perm_swap; lia).
  assert (Hl2 : length a2 = length a)
    by (unfold a2; rewrite length_swap_pos; exact Hl1).
  assert (Hpivot2 : key_at keys a2 (pr - 1) = vp).
  { apply key_at_eq. apply at_pos_swap_r; lia. }
  assert (Hlo2 : key_at keys a2 pl = key_at keys a1 pl)
    by (apply key_at_eq, at_pos_swap_other; lia).
  assert (Hhi2 : key_at keys a2 pr = key_at keys a1 pr)
    by (apply key_at_eq, at_pos_swap_other; lia).
  destruct (partition_loop_spec keys vp pl pr (pr - pl) a2 pl (pr - 1))
    as (a3 & pi & Hloop & Hp3 & Hpi & Hleft & Hright).
  - lia.
  - lia.
  - lia.
  - lia.
  - lia.
  - intros p Hp. replace p with pl by lia. rewrite Hlo2. exact Hlm.
  - intros p Hp. destruct (decide (p = pr)) as [-> | Hne].
    + rewrite Hhi2. exact Hmr.
    + replace p with (pr - 1)%nat by lia. rewrite Hpivot2. apply leb_refl.
  - exists a3, pi. split; [exact Hloop |]. cbv zeta.
    set (a4 := swap_pos pi (pr - 1) a3).
    assert (Hl3 : length a3 = length a)
      by (destruct Hp3 as [-> _]; exact Hl2).
    assert (Hpivot3 : key_at keys a3 (pr - 1) = vp).
    { rewrite <- Hpivot2. apply key_at_eq.
      destruct Hp3 as (_ & Hout & _). apply Hout. lia. }
    split; [lia |]. split; [lia |]. split; [| split; [| split]].
    + apply (range_perm_trans _ _ _ a1); [exact Hp1 |].
      apply (range_perm_trans _ _ _ a2); [exact Hp2 |].
      apply (range_perm_trans _ _ _ a3).
      * apply (range_perm_weaken _ _ (S pl) (pr - 1 - 1)); [lia | lia |].
        exact Hp3.
      * apply range_perm_swap; lia.
    + intros p Hp. unfold a4.
      rewrite (key_at_eq keys a3 _ p p) by (apply at_pos_swap_other; lia).
      apply Hleft. lia.
    + unfold a4. rewrite <- Hpivot3. apply key_at_eq.
      apply at_pos_swap_l; lia.
    + intros p Hp. unfold a4.
      destruct (decide (p = pr - 1)%nat) as [-> | Hne].
      * rewrite (key_at_eq keys a3 _ (pr - 1)%nat pi)
          by (apply at_pos_swap_r; lia).
        apply Hright. lia.
      * rewrite (key_at_eq keys a3 _ p p) by (apply at_pos_swap_other; lia).
        apply Hright. lia.
Qed.

(** Sorting the two parts, in either order, sorts the range. *)
Lemma sorted_parts vp pl pi pr a4 a5 a6 l1 r1 l2 r2 :
  (pl < pi)%nat -> (pi < pr)%nat ->
  (l1 = pl /\ r1 = (pi - 1)%nat /\ l2 = (pi + 1)%nat /\ r2 = pr)
  \/ (l2 = pl /\ r2 = (pi - 1)%nat /\ l1 = (pi + 1)%nat /\ r1 = pr) ->
  (forall p, (pl <= p < pi)%nat ->
             String.leb (key_at keys a4 p) vp = true) ->
  key_at keys a4 pi = vp ->
  (forall p, (pi < p <= pr)%nat ->
             String.leb vp (key_at keys a4 p) = true) ->
  range_perm l1 r1 a4 a5 -> sorted_between keys l1 r1 a5 ->
  range_perm l2 r2 a5 a6 -> sorted_between keys l2 r2 a6 ->
  range_perm pl pr a4 a6 /\ sorted_between keys pl pr a6.
Proof.
  intros Hl Hr Horder Hbelow Hpivot Habove Hp5 Hs5 Hp6 Hs6.
  assert (Hdisjoint : (r1 < l2)%nat \/ (r2 < l1)%nat) by lia.
  assert (Hin : (pl <= l1)%nat /\ (r1 <= pr)%nat /\
                (pl <= l2)%nat /\ (r2 <= pr)%nat) by lia.
  assert (Hout : forall p, ~ (l1 <= p <= r1)%nat -> ~ (l2 <= p <= r2)%nat ->
                           at_pos a6 p = at_pos a4 p).
  { intros p H1 H2. destruct Hp5 as (_ & Ho5 & _), Hp6 as (_ & Ho6 & _).
    rewrite Ho6, Ho5 by lia. reflexivity. }
  assert (Hfrom1 : forall p, (l1 <= p <= r1)%nat ->
            exists p', (l1 <= p' <= r1)%nat /\ at_pos a6 p = at_pos a4 p').
  { intros p Hp. destruct Hp5 as (_ & _ & Hf5 & _), Hp6 as (_ & Ho6 & _).
    destruct (Hf5 p Hp) as (p' & Hp' & Heq). exists p'. split; [exact Hp' |].
    rewrite Ho6 by lia. exact Heq. }
  assert (Hfrom2 : forall p, (l2 <= p <= r2)%nat ->
            exists p', (l2 <= p' <= r2)%nat /\ at_pos a6 p = at_pos a4 p').
  { intros p Hp. destruct Hp5 as (_ & Ho5 & _), Hp6 as (_ & _ & Hf6 & _).
    destruct (Hf6 p Hp) as (p' & Hp' & Heq). exists p'. split; [exact Hp' |].
    rewrite Heq. apply Ho5. lia. }
  assert (Hsorted1 : sorted_between keys l1 r1 a6).
  { intros p q Hp Hpq Hq. destruct Hp6 as (_ & Ho6 & _).
    rewrite (key_at_eq keys a5 a6 p p), (key_at_eq keys a5 a6 q q)
      by (apply Ho6; lia).
    apply Hs5; assumption. }
  split.
  - apply (range_perm_trans _ _ _ a5).
    + apply (range_perm_weaken _ _ l1 r1); [lia | lia | exact Hp5].
    + apply (range_perm_weaken _ _ l2 r2); [lia | lia | exact Hp6].
  - destruct Horder as [(-> & -> & -> & ->) | (-> & -> & -> & ->)].
    + apply (sorted_join vp pl pi pr a4 a6); try assumption.
      apply Hout; lia.
    + apply (sorted_join vp pl pi pr a4 a6); try assumption.
      apply Hout; lia.
Qed.

(** NumPy's quicksort returns, has sorted the range and has left the
    rest of the array alone. *)
Lemma quicksort_range_spec :
  heapsort_sorts ->
  forall fuel a pl pr cdepth,
    (pr - pl <= fuel)%nat -> (pl <= pr)%nat -> (pr < length a)%nat ->
    exists a',
      quicksort_range fuel keys a pl pr cdepth = Some a' /\
      range_perm pl pr a a' /\ sorted_between keys pl pr a'.
Proof.
  intros Hheap.
  induction fuel as [| fuel IH]; intros a pl pr cdepth Hfuel Hle Hlen;
    cbn [quicksort_range];
    destruct (Nat.ltb_spec 16 (pr - pl)) as [Hbig | Hsmall].
  - lia.
  - eexists. split; [reflexivity |]. apply insertion_sort_range; assumption.
  - destruct (partition_spec pl pr a Hbig Hlen)
      as (a3 & pi & Hloop & Hpl & Hpr & Hperm & Hbelow & Hpivot & Habove).
    rewrite Hloop.
    set (a4 := swap_pos pi (pr - 1) a3) in *.
    assert (Hl4 : length a4 = length a) by apply Hperm.
    assert (Hsecond : forall a5 l2 r2,
              length a5 = length a4 ->
              (l2 <= r2)%nat -> (r2 <= pr)%nat -> (r2 - l2 <= fuel)%nat ->
              exists a6,
                (if (cdepth - 1 <? 0)%Z
                 then Some (npy_aheapsort keys l2 r2 a5)
                 else quicksort_range fuel keys a5 l2 r2 (cdepth - 1))
                = Some a6 /\
                range_perm l2 r2 a5 a6 /\ sorted_between keys l2 r2 a6).
    { intros a5 l2 r2 Hl5 H1 H2 H3.
      destruct (cdepth - 1 <? 0)%Z.
      - eexists. split; [reflexivity |]. apply Hheap; lia.
      - apply IH; lia. }
    destruct (pi - pl <? pr - pi)%nat.
    + destruct (IH a4 pl (pi - 1)%nat (cdepth - 1)%Z)
        as (a5 & Hfirst & Hp5 & Hs5); [lia | lia | lia |].
      rewrite Hfirst.
      destruct (Hsecond a5 (pi + 1)%nat pr) as (a6 & Hrun & Hp6 & Hs6);
        [apply Hp5 | lia | lia | lia |].
      exists a6. split; [exact Hrun |].
      destruct (sorted_parts _ pl pi pr a4 a5 a6 pl (pi - 1) (pi + 1) pr
                  Hpl Hpr ltac:(left; auto) Hbelow Hpivot Habove
                  Hp5 Hs5 Hp6 Hs6) as [Hp Hs].
      split; [exact (range_perm_trans _ _ _ _ _ Hperm Hp) | exact Hs].
    + destruct (IH a4 (pi + 1)%nat pr (cdepth - 1)%Z)
        as (a5 & Hfirst & Hp5 & Hs5); [lia | lia | lia |].
      rewrite Hfirst.
      destruct (Hsecond a5 pl (pi - 1)%nat) as (a6 & Hrun & Hp6 & Hs6);
        [apply Hp5 | lia | lia | lia |].
      exists a6. split; [exact Hrun |].
      destruct (sorted_parts _ pl pi pr a4 a5 a6 (pi + 1) pr pl (pi - 1)
                  Hpl Hpr ltac:(right; auto) Hbelow Hpivot Habove
                  Hp5 Hs5 Hp6 Hs6) as [Hp Hs].
      split; [exact (range_perm_trans _ _ _ _ _ Hperm Hp) | exact Hs].
  - eexists. split; [reflexivity |]. apply insertion_sort_range; assumption.
Qed.

End Quicksort.

Section ArgsortSorts.
Context `{Numpy}.

Lemma Sorted_pointwise {A} (R : relation A) (d : A) l :
  (forall p q, (p <= q)%nat -> (q < length l)%nat ->
               R (nth p l d) (nth q l d)) ->
  Sorted R l.
Proof.
  induction l as [| x l IH]; intros Hall; constructor.
  - apply IH. intros p q Hpq Hq. apply (Hall (S p) (S q)); simpl; lia.
  - destruct l as [| y l]; constructor.
    apply (Hall 0%nat 1%nat); simpl; lia.
Qed.

(** [argsort] returns the row positions in key order, every position
    once. *)
Lemma np_argsort_sorts keys :
  heapsort_sorts ->
  exists indexer,
    np_argsort keys = Some indexer /\
    indexer ≡ₚ seq 0 (length keys) /\ Sorted (rows_le keys) indexer.
Proof.
  intros Hheap. unfold np_argsort.
  destruct (length keys) as [| n] eqn:En.
  { exists []. split; [reflexivity |]. split; constructor. }
  destruct (quicksort_range_spec keys Hheap (S n) (seq 0 (S n)) 0%nat
              (S n - 1)%nat (2 * Z.log2 (Z.of_nat (S n)))%Z)
    as (indexer & Hrun & (Hlen & _ & _ & Hto) & Hsorted);
    [lia | lia | rewrite length_seq; lia |].
  exists indexer. split; [exact Hrun |].
  rewrite length_seq in Hlen. split.
  - symmetry. apply NoDup_Permutation_bis.
    + apply seq_NoDup.
    + rewrite length_seq. lia.
    + intros i Hi. apply in_seq in Hi.
      destruct (Hto i ltac:(lia)) as (p & Hp & Heq).
      unfold at_pos in Heq. rewrite seq_nth in Heq by lia.
      simpl in Heq. rewrite <- Heq. apply nth_In. lia.
  - apply (Sorted_pointwise _ 0%nat). intros p q Hpq Hq.
    apply (Hsorted p q); lia.
Qed.

Lemma Forall2_Permutation_l {A B} (P : A -> B -> Prop) l1 l2 k1 :
  l1 ≡ₚ l2 -> Forall2 P l1 k1 ->
  exists k2, Forall2 P l2 k2 /\ k1 ≡ₚ k2.
Proof.
  intros Hperm. revert k1.
  induction Hperm as [| x l1 l2 _ IH | x y l | l1 l2 l3 _ IH1 _ IH2];
    intros k1 Hall.
  - inversion Hall; subst. exists []. split; constructor.
  - inversion Hall as [| ? b ? k Hxb Hrest]; subst.
    destruct (IH k Hrest) as (k2 & Hk2 & Hp).
    exists (b :: k2). split; constructor; assumption.
  - inversion Hall as [| ? b ? k Hyb Hrest]; subst.
    inversion Hrest as [| ? c ? k' Hxc Hrest']; subst.
    exists (c :: b :: k'). split; [repeat constructor; assumption |].
    apply Permutation_swap.
  - destruct (IH1 k1 Hall) as (k2 & Hk2 & Hp12).
    destruct (IH2 k2 Hk2) as (k3 & Hk3 & Hp23).
    exists k3. split; [exact Hk3 |]. rewrite Hp12. exact Hp23.
Qed.

Lemma Forall2_lookup_seq {A} (l : list A) :
  Forall2 (fun i x => l !! i = Some x) (seq 0 (length l)) l.
Proof.
  apply Forall2_same_length_lookup. split; [apply length_seq |].
  intros i x a Hx Ha. apply lookup_seq in Hx. destruct Hx as [-> _].
  exact Ha.
Qed.

Lemma Sorted_Forall2 {A B} (P : A -> B -> Prop) (R : relation A)
    (R' : relation B) l k :
  (forall a1 a2 b1 b2, P a1 b1 -> P a2 b2 -> R a1 a2 -> R' b1 b2) ->
  Forall2 P l k -> Sorted R l -> Sorted R' k.
Proof.
  intros Hrel Hall. induction Hall as [| a b l k Hab Hrest IH];
    intros Hs; [constructor |].
  apply Sorted_inv in Hs. destruct Hs as [Hs Hhd].
  constructor; [apply IH, Hs |].
  destruct Hrest as [| a' b' l k Hab' _]; constructor.
  apply HdRel_inv in Hhd. exact (Hrel _ _ _ _ Hab Hab' Hhd).
Qed.

(** The sort that pandas runs returns the rows in key order, every
    row once. *)
Lemma np_sort_by_sorts {A} (key : A -> string) l :
  heapsort_sorts ->
  exists sorted,
    np_sort_by key l = Some sorted /\
    Sorted (key_le key) sorted /\ sorted ≡ₚ l.
Proof.
  intros Hheap. unfold np_sort_by.
  destruct (np_argsort_sorts (map key l) Hheap)
    as (indexer & -> & Hperm & Hsorted).
  rewrite length_map in Hperm.
  assert (Hkey : forall i x, l !! i = Some x ->
                             row_key (map key l) i = key x).
  { intros i x Hix. unfold row_key.
    apply nth_lookup_Some with (d := EmptyString).
    rewrite list_lookup_fmap, Hix. reflexivity. }
  destruct (Forall2_Permutation_l (fun i x => l !! i = Some x)
              (seq 0 (length l)) indexer l)
    as (sorted & Htake & Hp);
    [symmetry; exact Hperm | apply Forall2_lookup_seq |].
  exists sorted. split; [apply mapM_Some, Htake |]. split.
  - apply (Sorted_Forall2 (fun i x => l !! i = Some x)
             (rows_le (map key l)) (key_le key) indexer sorted);
      [| exact Htake | exact Hsorted].
    intros i j x y Hix Hjy Hij. unfold rows_le in Hij.
    rewrite (Hkey i x Hix), (Hkey j y Hjy) in Hij. exact Hij.
  - symmetry. exact Hp.
Qed.

End ArgsortSorts.

(** ** The DataFrame stage keeps the coerced amounts *)

Section Frames.
Context `{Pandas}.

Lemma cell_num_coerced (o : option cell) :
  cell_num ((fun c => CNum (to_numeric_fillna c)) <$> o) = cell_num o.
Proof. destruct o; reflexivity. Qed.

Lemma cell_value_coerced (o : option cell) :
  cell_value ((fun c => CNum (to_numeric_fillna c)) <$> o) = cell_num o.
Proof. destruct o; reflexivity. Qed.

Lemma In_map_cells f df r' :
  In r' (df_rows (map_cells f df)) ->
  exists r, In r (df_rows df) /\
            row_month r' = row_month r /\ row_cells r' = f (row_cells r).
Proof.
  unfold map_cells; simpl. intros Hin. apply in_map_iff in Hin.
  destruct Hin as (r & <- & Hr). exists r. auto.
Qed.

Lemma keyed_view_map_cells f cat df :
  (forall r, In r (df_rows df) ->
             cell_num (f (row_cells r) !! cat)
             = cell_num (row_cells r !! cat)) ->
  keyed_view cat (map_cells f df) = keyed_view cat df.
Proof.
  intros Hf. unfold keyed_view, map_cells; simpl. rewrite map_map; simpl.
  apply map_ext_in. intros r Hr. rewrite Hf by exact Hr. reflexivity.
Qed.

Lemma keyed_view_coerce c cat df :
  keyed_view cat (coerce_column c df) = keyed_view cat df.
Proof.
  apply keyed_view_map_cells. intros r _. rewrite lookup_alter.
  destruct (decide (c = cat)) as [-> |]; [apply cell_num_coerced | reflexivity].
Qed.

Lemma column_coerce cat df :
  column cat (coerce_column cat df) = map snd (keyed_view cat df).
Proof.
  unfold column, keyed_view, coerce_column, map_cells; simpl.
  rewrite !map_map; simpl. apply map_ext. intros r.
  rewrite lookup_alter_eq. apply cell_value_coerced.
Qed.

Lemma frame_ok_coerce c df : frame_ok df -> frame_ok (coerce_column c df).
Proof.
  intros Hok r' x Hin Hx. apply In_map_cells in Hin.
  destruct Hin as (r & Hr & _ & ->). rewrite lookup_alter.
  destruct (decide (c = x)) as [-> |].
  - rewrite (Hok r x Hr Hx). reflexivity.
  - apply (Hok r x Hr Hx).
Qed.

Lemma numeric_at_coerce c cat df :
  (c = cat \/ numeric_at cat df) -> numeric_at cat (coerce_column c df).
Proof.
  intros Hc r' Hin. apply In_map_cells in Hin.
  destruct Hin as (r & Hr & _ & ->). rewrite lookup_alter.
  destruct (decide (c = cat)) as [-> | Hne].
  - rewrite cell_value_coerced, cell_num_coerced. reflexivity.
  - destruct Hc as [-> | Hnum]; [contradiction | apply Hnum, Hr].
Qed.

Lemma keyed_view_add_zero c cat df :
  frame_ok df -> c ∉ df_columns df ->
  keyed_view cat (add_zero_column c df) = keyed_view cat df.
Proof.
  intros Hok Hc.
  change (keyed_view cat (add_zero_column c df))
    with (keyed_view cat (map_cells (insert c (CNum 0)) df)).
  apply keyed_view_map_cells. intros r Hr. rewrite lookup_insert.
  destruct (decide (c = cat)) as [-> |]; [| reflexivity].
  rewrite (Hok r cat Hr Hc). reflexivity.
Qed.

Lemma frame_ok_add_zero c df : frame_ok df -> frame_ok (add_zero_column c df).
Proof.
  intros Hok r' x Hin Hx. simpl in Hx. apply In_map_cells in Hin.
  destruct Hin as (r & Hr & _ & ->).
  rewrite lookup_insert. destruct (decide (c = x)) as [-> |].
  - exfalso. apply Hx, elem_of_union_l, elem_of_singleton. reflexivity.
  - apply (Hok r x Hr). intros Hin. apply Hx, elem_of_union_r, Hin.
Qed.

Lemma numeric_at_add_zero c cat df :
  (c = cat \/ numeric_at cat df) -> numeric_at cat (add_zero_column c df).
Proof.
  intros Hc r' Hin. apply In_map_cells in Hin.
  destruct Hin as (r & Hr & _ & ->). rewrite lookup_insert.
  destruct (decide (c = cat)) as [-> | Hne]; [reflexivity |].
  destruct Hc as [-> | Hnum]; [contradiction | apply Hnum, Hr].
Qed.

End Frames.

Section Loops.
Context `{Pandas}.

Lemma usage_step_spec df s c :
  df_columns (fst (usage_step (df, s) c)) = df_columns df /\
  (frame_ok df -> frame_ok (fst (usage_step (df, s) c))) /\
  (forall cat, keyed_view cat (fst (usage_step (df, s) c))
               = keyed_view cat df) /\
  (forall x, x ∈ snd (usage_step (df, s) c) <->
             x ∈ s \/ (x = c /\ used_in df c)).
Proof.
  unfold usage_step, used_in.
  destruct (decide (c ∈ df_columns df)) as [Hin | Hout].
  - rewrite column_coerce.
    destruct (decide (0 < Qsum (map snd (keyed_view c df)))) as [Hpos | Hneg];
      cbn [fst snd]; (split; [reflexivity |]);
      (split; [apply frame_ok_coerce |]);
      (split; [intros cat; apply keyed_view_coerce |]); intros x.
    + rewrite elem_of_union, elem_of_singleton. tauto.
    + tauto.
  - cbn [fst snd]. repeat split; auto; tauto.
Qed.

Lemma usage_fold_spec cats : forall df s,
  df_columns (fst (fold_left usage_step cats (df, s))) = df_columns df /\
  (frame_ok df -> frame_ok (fst (fold_left usage_step cats (df, s)))) /\
  (forall cat, keyed_view cat (fst (fold_left usage_step cats (df, s)))
               = keyed_view cat df) /\
  (forall x, x ∈ snd (fold_left usage_step cats (df, s)) <->
             x ∈ s \/ (In x cats /\ used_in df x)).
Proof.
  induction cats as [| c cats IH]; intros df s; cbn [fold_left].
  - cbn [fst snd]. repeat split; auto; try tauto.
    intros [Hs | [[] _]]; exact Hs.
  - destruct (usage_step_spec df s c) as (Hcols & Hok & Hview & Hmem).
    destruct (usage_step (df, s) c) as [df1 s1]; cbn [fst snd] in *.
    destruct (IH df1 s1) as (Hcols' & Hok' & Hview' & Hmem').
    split; [congruence |]. split; [auto |].
    split; [intros cat; rewrite Hview'; apply Hview |].
    intros x. rewrite Hmem', Hmem. unfold used_in.
    rewrite Hcols, Hview. split.
    + intros [[Hs | [-> Hu]] | [Hx Hu]]; simpl; auto.
    + simpl. intros [Hs | [[<- | Hx] Hu]]; auto.
Qed.

Lemma ensure_step_spec df c :
  frame_ok df ->
  frame_ok (ensure_step df c) /\
  c ∈ df_columns (ensure_step df c) /\
  df_columns df ⊆ df_columns (ensure_step df c) /\
  (forall cat, keyed_view cat (ensure_step df c) = keyed_view cat df) /\
  (forall cat, c = cat \/ numeric_at cat df ->
               numeric_at cat (ensure_step df c)).
Proof.
  intros Hok. unfold ensure_step.
  destruct (decide (c ∈ df_columns df)) as [Hin | Hout].
  - split; [apply frame_ok_coerce, Hok |].
    split; [exact Hin |]. split; [reflexivity |].
    split; [intros cat; apply keyed_view_coerce |].
    intros cat; apply numeric_at_coerce.
  - split; [apply frame_ok_add_zero, Hok |].
    split; [apply elem_of_union_l, elem_of_singleton; reflexivity |].
    split; [intros x Hx; apply elem_of_union_r, Hx |].
    split; [intros cat; apply keyed_view_add_zero; assumption |].
    intros cat; apply numeric_at_add_zero.
Qed.

Lemma ensure_fold_spec cats : forall df,
  frame_ok df ->
  frame_ok (fold_left ensure_step cats df) /\
  df_columns df ⊆ df_columns (fold_left ensure_step cats df) /\
  (forall cat, keyed_view cat (fold_left ensure_step cats df)
               = keyed_view cat df) /\
  (forall cat, In cat cats \/ numeric_at cat df ->
               numeric_at cat (fold_left ensure_step cats df)) /\
  (forall cat, In cat cats ->
               cat ∈ df_columns (fold_left ensure_step cats df)).
Proof.
  induction cats as [| c cats IH]; intros df Hok; cbn [fold_left].
  - split; [exact Hok |]. split; [reflexivity |].
    split; [reflexivity |]. split.
    + intros cat [[] | Hn]; exact Hn.
    + intros cat [].
  - destruct (ensure_step_spec df c Hok)
      as (Hok1 & Hc & Hsub & Hview & Hnum).
    destruct (IH _ Hok1) as (Hok' & Hsub' & Hview' & Hnum' & Hcol').
    split; [exact Hok' |].
    split; [intros x Hx; apply Hsub', Hsub, Hx |].
    split; [intros cat; rewrite Hview'; apply Hview |].
    split.
    + intros cat [[-> | Hin] | Hn].
      * apply Hnum'. right. apply Hnum. left. reflexivity.
      * apply Hnum'. left. exact Hin.
      * apply Hnum'. right. apply Hnum. right. exact Hn.
    + intros cat [<- | Hin]; [apply Hsub', Hc | apply Hcol', Hin].
Qed.

Lemma usage_loop_spec df :
  df_columns (fst (usage_loop df)) = df_columns df /\
  (frame_ok df -> frame_ok (fst (usage_loop df))) /\
  (forall cat, keyed_view cat (fst (usage_loop df)) = keyed_view cat df) /\
  (forall x, x ∈ snd (usage_loop df) <->
             In x EXPENSE_CATEGORIES /\ used_in df x).
Proof.
  destruct (usage_fold_spec EXPENSE_CATEGORIES df ∅)
    as (Hcols & Hok & Hview & Hmem).
  split; [exact Hcols |]. split; [exact Hok |]. split; [exact Hview |].
  intros x. unfold usage_loop. rewrite Hmem.
  split; [intros [Hs | Hx]; [| exact Hx] | intros Hx; right; exact Hx].
  exfalso. revert Hs. apply not_elem_of_empty.
Qed.

Lemma ensure_loop_spec df :
  frame_ok df ->
  (forall cat, keyed_view cat (ensure_loop df) = keyed_view cat df) /\
  (forall cat, In cat EXPENSE_CATEGORIES -> numeric_at cat (ensure_loop df)) /\
  (forall cat, In cat EXPENSE_CATEGORIES ->
               cat ∈ df_columns (ensure_loop df)).
Proof.
  intros Hok.
  destruct (ensure_fold_spec EXPENSE_CATEGORIES df Hok)
    as (_ & _ & Hview & Hnum & Hcol).
  split; [exact Hview |]. split; [| exact Hcol].
  intros cat Hcat. apply Hnum. left. exact Hcat.
Qed.

End Loops.

Section Prepare.
Context `{Pandas}.

Lemma Qsum_zeros (l : list Q) : Forall (fun q => q = 0) l -> Qsum l == 0.
Proof.
  induction 1 as [| q l -> _ IH]; simpl; [reflexivity |].
  rewrite IH. reflexivity.
Qed.

Lemma initial_cell cols (r : MonthlyRecord) cat :
  cell_num
    (((fun c => match c with CNaN => CNum 0 | _ => c end)
        <$> ((cell_of_jvalue <$> amounts r) ∪ gset_to_gmap CNaN cols)) !! cat)
  = coerced_amount cat r.
Proof.
  unfold coerced_amount.
  rewrite lookup_fmap, lookup_union, lookup_fmap, lookup_gset_to_gmap.
  destruct (amounts r !! cat) as [[q | s | ] |]; simpl;
    try (destruct (guard (cat ∈ cols)); reflexivity).
Qed.

Lemma keyed_view_initial cat h :
  keyed_view cat (fillna0 (pd_DataFrame h))
  = map (fun r => (month r, coerced_amount cat r)) h.
Proof.
  unfold keyed_view, fillna0, map_cells, pd_DataFrame; simpl.
  rewrite !map_map; simpl. apply map_ext. intros r.
  rewrite initial_cell. reflexivity.
Qed.

Lemma frame_ok_initial h : frame_ok (fillna0 (pd_DataFrame h)).
Proof.
  intros r' c Hin Hc. apply In_map_cells in Hin.
  destruct Hin as (r0 & Hr0 & _ & ->).
  unfold pd_DataFrame in Hr0; simpl in Hr0. apply in_map_iff in Hr0.
  destruct Hr0 as (r & <- & Hr). simpl in *.
  rewrite lookup_fmap, lookup_union, lookup_fmap, lookup_gset_to_gmap.
  assert (Hnone : amounts r !! c = None).
  { apply not_elem_of_dom. intros Hd. apply Hc.
    apply elem_of_union_list. exists (dom (amounts r)). split; [| exact Hd].
    apply list_elem_of_In, in_map_iff. exists r. auto. }
  rewrite Hnone. simpl. rewrite option_guard_False by exact Hc. reflexivity.
Qed.

Lemma absent_column_zero cat h :
  cat ∉ df_columns (fillna0 (pd_DataFrame h)) ->
  Forall (fun q => q = 0) (map (coerced_amount cat) h).
Proof.
  simpl. intros Hc. apply Forall_forall. intros q Hq.
  apply list_elem_of_In, in_map_iff in Hq. destruct Hq as (r & <- & Hr).
  unfold coerced_amount.
  assert (Hnone : amounts r !! cat = None).
  { apply not_elem_of_dom. intros Hd. apply Hc.
    apply elem_of_union_list. exists (dom (amounts r)). split; [| exact Hd].
    apply list_elem_of_In, in_map_iff. exists r. auto. }
  rewrite Hnone. reflexivity.
Qed.

Lemma used_in_initial cat h :
  used_in (fillna0 (pd_DataFrame h)) cat <-> 0 < historical_sum cat h.
Proof.
  unfold used_in, historical_sum. rewrite keyed_view_initial, map_map.
  cbn [snd]. split; [tauto |]. intros Hpos. split; [| exact Hpos].
  destruct (decide (cat ∈ df_columns (fillna0 (pd_DataFrame h))))
    as [Hin | Hout]; [exact Hin | exfalso].
  apply absent_column_zero, Qsum_zeros in Hout. rewrite Hout in Hpos.
  revert Hpos. apply Qlt_irrefl.
Qed.

Lemma keyed_view_sort cat df :
  keyed_view cat (sort_values_month df) = sort_by fst (keyed_view cat df).
Proof.
  unfold keyed_view, sort_values_month; cbn [df_rows].
  symmetry. apply sort_by_map. reflexivity.
Qed.

Lemma df_rows_sort df :
  df_rows (sort_values_month df) = sort_by row_month (df_rows df).
Proof. reflexivity. Qed.

Lemma df_columns_sort df :
  df_columns (sort_values_month df) = df_columns df.
Proof. reflexivity. Qed.

Lemma prepare_unfold h :
  prepare h
  = (sort_values_month
       (ensure_loop (fst (usage_loop (fillna0 (pd_DataFrame h))))),
     snd (usage_loop (fillna0 (pd_DataFrame h)))).
Proof.
  unfold prepare. destruct (usage_loop (fillna0 (pd_DataFrame h))).
  reflexivity.
Qed.

(** [user_categories] is the usage mask of the history. *)
Lemma prepare_user_categories h x :
  x ∈ snd (prepare h) <->
  In x EXPENSE_CATEGORIES /\ 0 < historical_sum x h.
Proof.
  rewrite prepare_unfold. cbn [snd].
  destruct (usage_loop_spec (fillna0 (pd_DataFrame h)))
    as (_ & _ & _ & Hmem).
  rewrite Hmem, used_in_initial. reflexivity.
Qed.

Lemma prepare_frame h :
  (forall cat, keyed_view cat (fst (prepare h))
               = map (fun r => (month r, coerced_amount cat r))
                     (sort_history h)) /\
  (forall cat, In cat EXPENSE_CATEGORIES ->
               numeric_at cat (fst (prepare h))) /\
  (forall cat, In cat EXPENSE_CATEGORIES ->
               cat ∈ df_columns (fst (prepare h))).
Proof.
  rewrite prepare_unfold. cbn [fst].
  destruct (usage_loop_spec (fillna0 (pd_DataFrame h)))
    as (_ & Hok & Hview & _).
  destruct (ensure_loop_spec _ (Hok (frame_ok_initial h)))
    as (Hview' & Hnum & Hcol).
  split; [| split].
  - intros cat.
    rewrite keyed_view_sort, Hview', Hview, keyed_view_initial.
    apply sort_by_map. reflexivity.
  - intros cat Hcat r Hr. apply (Hnum cat Hcat).
    rewrite df_rows_sort in Hr.
    eapply Permutation_in; [apply sort_by_Permutation | exact Hr].
  - intros cat Hcat. rewrite df_columns_sort. apply Hcol, Hcat.
Qed.

(** The numeric column of a category in the prepared frame is the
    history's coerced amounts in month order. *)
Lemma prepare_column h cat :
  In cat EXPENSE_CATEGORIES ->
  column cat (fst (prepare h))
  = map (coerced_amount cat) (sort_history h).
Proof.
  intros Hcat. destruct (prepare_frame h) as (Hview & Hnum & _).
  transitivity (map snd (keyed_view cat (fst (prepare h)))).
  - unfold column, keyed_view. rewrite map_map. cbn [snd].
    apply map_ext_in. intros r Hr. apply (Hnum cat Hcat r Hr).
  - rewrite Hview, map_map. reflexivity.
Qed.

Lemma prepare_months h :
  map row_month (df_rows (fst (prepare h))) = map month (sort_history h).
Proof.
  destruct (prepare_frame h) as (Hview & _).
  transitivity (map fst (keyed_view "" (fst (prepare h)))).
  - unfold keyed_view. rewrite map_map. reflexivity.
  - rewrite Hview, map_map. reflexivity.
Qed.

Lemma prepare_rows_length h :
  length (df_rows (fst (prepare h))) = length h.
Proof.
  rewrite <- (length_map row_month), prepare_months, length_map.
  apply sort_by_length.
Qed.

End Prepare.

(** ** Arithmetic of sums, means and rounding *)

Section Numbers.

Lemma Qsum_Permutation l1 l2 : l1 ≡ₚ l2 -> Qsum l1 == Qsum l2.
Proof.
  induction 1 as [| x l1 l2 _ IH | x y l | l1 l2 l3 _ IH1 _ IH2]; simpl.
  - reflexivity.
  - rewrite IH. reflexivity.
  - ring.
  - rewrite IH1. exact IH2.
Qed.

Lemma Qsum_le l1 l2 : Forall2 Qle l1 l2 -> Qsum l1 <= Qsum l2.
Proof.
  induction 1 as [| x y l1 l2 Hxy _ IH]; simpl.
  - apply Qle_refl.
  - apply Qplus_le_compat; assumption.
Qed.

Lemma mean_le l1 l2 : Forall2 Qle l1 l2 -> mean l1 <= mean l2.
Proof.
  intros Hle. unfold mean. rewrite <- (Forall2_length _ _ _ Hle).
  destruct l1 as [| x l1].
  - inversion Hle; subst. apply Qle_refl.
  - apply Qmult_le_compat_r; [apply Qsum_le, Hle |].
    apply Qinv_le_0_compat. unfold Qle; simpl. lia.
Qed.

Lemma two_decimals_0 : two_decimals 0.
Proof. exists 0%Z. reflexivity. Qed.

Lemma two_decimals_round2 q : two_decimals (round2 q).
Proof. exists (round_half_even (q * 100)). reflexivity. Qed.

Lemma two_decimals_max0 q : two_decimals q -> two_decimals (max0 q).
Proof.
  intros Hq. unfold max0. destruct (Qle_bool q 0);
    [apply two_decimals_0 | exact Hq].
Qed.

Lemma two_decimals_Qsum l : Forall two_decimals l -> two_decimals (Qsum l).
Proof.
  induction 1 as [| q l [z Hz] _ [s Hs]]; simpl.
  - apply two_decimals_0.
  - exists (z + s)%Z. rewrite Hz, Hs. unfold Qeq, Qplus; simpl. lia.
Qed.

Lemma round_half_even_integer q (z : Z) :
  q == inject_Z z -> round_half_even q = z.
Proof.
  intros Hq. unfold round_half_even.
  assert (Hf : Qfloor q = z).
  { rewrite (Qfloor_comp _ _ Hq). apply Qfloor_Z. }
  rewrite Hf.
  assert (Hd : q - inject_Z z == 0) by (rewrite Hq; ring).
  assert (Hle : Qle_bool (q - inject_Z z) (1 # 2) = true).
  { apply Qle_bool_iff. rewrite Hd. discriminate. }
  assert (Hne : Qeq_bool (q - inject_Z z) (1 # 2) = false).
  { destruct (Qeq_bool (q - inject_Z z) (1 # 2)) eqn:E; [| reflexivity].
    apply Qeq_bool_iff in E. rewrite Hd in E. discriminate E. }
  rewrite Hle, Hne. reflexivity.
Qed.

(** Rounding an amount that already has two decimals changes nothing. *)
Lemma round2_two_decimals q : two_decimals q -> round2 q == q.
Proof.
  intros [z Hz]. unfold round2.
  rewrite (round_half_even_integer (q * 100) z).
  - symmetry. exact Hz.
  - rewrite Hz. unfold Qeq, Qmult; simpl. lia.
Qed.

End Numbers.

(** ** The prediction loop *)

Section Predictions.
Context `{Pandas}.

Lemma alist_get_cons {V} k k' (v : V) d :
  alist_get k ((k', v) :: d)
  = if String.eqb k' k then Some v else alist_get k d.
Proof.
  unfold alist_get; simpl. destruct (String.eqb k' k); reflexivity.
Qed.

Lemma predict_loop_spec md X ucs cats : forall ps,
  predict_loop md X ucs cats = Returned ps ->
  map fst ps = cats /\
  (forall c, In c cats ->
     exists p, predict_category md X ucs c = Returned p /\
               alist_get c ps = Some p) /\
  Forall two_decimals (map snd ps).
Proof.
  induction cats as [| c cats IH]; intros ps Hret; simpl in Hret.
  - injection Hret as <-. repeat split; [intros c [] | constructor].
  - destruct (predict_category md X ucs c) as [p | e] eqn:Ep;
      cbn [bind] in Hret; [| discriminate].
    destruct (predict_loop md X ucs cats) as [ps' | e] eqn:Eps;
      cbn [bind] in Hret; [| discriminate].
    injection Hret as <-. destruct (IH ps' eq_refl) as (Hkeys & Hget & Hdec).
    split; [simpl; congruence |]. split.
    + intros c' Hin. rewrite alist_get_cons.
      destruct (String.eqb_spec c c') as [<- | Hne].
      * exists p. auto.
      * destruct Hin as [-> | Hin]; [contradiction | apply Hget, Hin].
    + simpl. constructor; [| exact Hdec].
      unfold predict_category in Ep.
      destruct (decide (c ∈ ucs)).
      * destruct (scalers md !! c); [| discriminate].
        destruct (models md !! c); [| discriminate].
        injection Ep as <-. apply two_decimals_max0, two_decimals_round2.
      * injection Ep as <-. apply two_decimals_0.
Qed.

(** C2.  In a result returned for three or more entries, a category
    of the fixed list whose coerced historical sum is not above 0 is
    predicted as exactly 0, whatever the model bank holds; a category
    whose sum is above 0 gets the output of its own scaler and model
    on the feature row, rounded to two decimals and floored at 0. *)
Theorem C2_unused_category_forced_to_zero md h r cat :
  (3 <= length h)%nat ->
  In cat EXPENSE_CATEGORIES ->
  predict_expenses (Some md) h = Returned r ->
  exists predictions,
    dict_get "predictions" r = Some (PyDict predictions) /\
    (historical_sum cat h <= 0 -> alist_get cat predictions = Some 0) /\
    (0 < historical_sum cat h ->
     exists d X scaler model,
       last_month_date_of (fst (prepare h)) = Returned d /\
       select_columns (feature_columns md)
         (build_features (fst (prepare h)) d) = Returned X /\
       scalers md !! cat = Some scaler /\
       models md !! cat = Some model /\
       alist_get cat predictions
         = Some (max0 (round2 (model (scaler X))))).
Proof.
  intros Hlen Hcat Hret.
  destruct (predict_expenses_returned md h r Hlen Hret)
    as (d & X & ps & Hd & HX & Hps & ->).
  exists ps. split; [reflexivity |].
  destruct (predict_loop_spec _ _ _ _ _ Hps) as (_ & Hget & _).
  destruct (Hget cat Hcat) as (p & Hp & Hlook).
  unfold predict_category in Hp. split.
  - intros Hle. destruct (decide (cat ∈ snd (prepare h))) as [Hin | _].
    + apply prepare_user_categories in Hin. destruct Hin as [_ Hpos].
      exfalso. apply (Qlt_not_le _ _ Hpos Hle).
    + injection Hp as <-. exact Hlook.
  - intros Hpos. destruct (decide (cat ∈ snd (prepare h))) as [_ | Hout].
    + destruct (scalers md !! cat) as [sc |]; [| discriminate].
      destruct (models md !! cat) as [m |]; [| discriminate].
      injection Hp as <-. exists d, X, sc, m. auto.
    + exfalso. apply Hout, prepare_user_categories. auto.
Qed.

(** C5.  In a result returned for three or more entries every
    prediction has at most two decimals (it was rounded, or is 0), and
    the total is the sum of these rounded predictions. *)
Theorem C5_total_is_sum_of_rounded_predictions md h r :
  (3 <= length h)%nat ->
  predict_expenses (Some md) h = Returned r ->
  exists predictions total,
    dict_get "predictions" r = Some (PyDict predictions) /\
    dict_get "total" r = Some (PyNum total) /\
    Forall (fun p => round2 p == p) (map snd predictions) /\
    total == Qsum (map snd predictions).
Proof.
  intros Hlen Hret.
  destruct (predict_expenses_returned md h r Hlen Hret)
    as (d & X & ps & _ & _ & Hps & ->).
  destruct (predict_loop_spec _ _ _ _ _ Hps) as (_ & _ & Hdec).
  exists ps, (round2 (Qsum (map snd ps))).
  split; [reflexivity |]. split; [reflexivity |]. split.
  - eapply Forall_impl; [exact Hdec |]. apply round2_two_decimals.
  - apply round2_two_decimals, two_decimals_Qsum, Hdec.
Qed.

End Predictions.

(** ** The feature vector *)

Section Features.
Context `{Pandas}.

Lemma lag_step_other df features category k :
  ~ In k (feature_keys category) ->
  lag_step df features category !! k = features !! k.
Proof.
  intros Hk. unfold lag_step. simpl in Hk.
  rewrite !lookup_insert_ne; [reflexivity | ..]; intros E; apply Hk; auto.
Qed.

Lemma lag_fold_other df k cats : forall features,
  Forall (fun category => ~ In k (feature_keys category)) cats ->
  fold_left (lag_step df) cats features !! k = features !! k.
Proof.
  induction cats as [| c cats IH]; intros features Hk; cbn [fold_left].
  - reflexivity.
  - apply Forall_cons in Hk. destruct Hk as [Hc Hk].
    rewrite IH by exact Hk. apply lag_step_other, Hc.
Qed.

Lemma month_num_not_a_lag_key :
  Forall (fun category => ~ In "month_num" (feature_keys category))
         EXPENSE_CATEGORIES.
Proof.
  repeat constructor; intros Hin; vm_compute in Hin;
    repeat (destruct Hin as [Hin | Hin]; [discriminate Hin |]);
    exact Hin.
Qed.

Lemma build_features_month_num df d :
  build_features df d !! "month_num" = Some (inject_Z (next_month_num d)).
Proof.
  unfold build_features.
  rewrite lag_fold_other by exact month_num_not_a_lag_key.
  apply lookup_singleton_eq.
Qed.

(** The month that [pd.to_datetime] reads: the last one of the
    history in month order. *)
Lemma last_month_date_of_prepare h :
  last_month_date_of (fst (prepare h))
  = match last (map month (sort_history h)) with
    | None => Raised IndexError
    | Some m => match to_datetime m with
                | Some d => Returned d
                | None => Raised (DateParseError m)
                end
    end.
Proof. unfold last_month_date_of. rewrite prepare_months. reflexivity. Qed.

(** C6.  For a history of three or more entries whose last entry in
    month order is dated in calendar month m, the feature vector is
    built and its month_num is (m mod 12) + 1; when m is 12 this
    is 1. *)
Theorem C6_month_num_wraps h last_month d :
  (3 <= length h)%nat ->
  last (map month (sort_history h)) = Some last_month ->
  to_datetime last_month = Some d ->
  exists features,
    feature_vector h = Returned features /\
    features !! "month_num" = Some (inject_Z (ts_month d mod 12 + 1)) /\
    (ts_month d = 12%Z -> features !! "month_num" = Some 1).
Proof.
  intros _ Hlast Hd.
  exists (build_features (fst (prepare h)) d).
  unfold feature_vector.
  rewrite last_month_date_of_prepare, Hlast, Hd. cbn [bind].
  split; [reflexivity |].
  rewrite build_features_month_num. unfold next_month_num.
  split; [reflexivity |]. intros ->. reflexivity.
Qed.

End Features.

Section FeatureIdempotence.
Context `{Pandas}.

Lemma column_tail3 cat df :
  column cat {| df_columns := df_columns df; df_rows := tail3 (df_rows df) |}
  = tail3 (column cat df).
Proof.
  unfold column, tail3; cbn [df_rows]. rewrite length_map.
  symmetry. apply skipn_map.
Qed.

Lemma lag_fold_ext df1 df2 cats : forall features,
  (forall cat, In cat cats -> column cat df1 = column cat df2) ->
  fold_left (lag_step df1) cats features
  = fold_left (lag_step df2) cats features.
Proof.
  induction cats as [| c cats IH]; intros features Hcol; cbn [fold_left].
  - reflexivity.
  - unfold lag_step at 2 4. rewrite (Hcol c (or_introl eq_refl)).
    apply IH. intros cat Hcat. apply Hcol. right. exact Hcat.
Qed.

(** The features only read the category columns. *)
Lemma build_features_ext df1 df2 d :
  (forall cat, In cat EXPENSE_CATEGORIES -> column cat df1 = column cat df2) ->
  build_features df1 d = build_features df2 d.
Proof.
  intros Hcol. unfold build_features. apply lag_fold_ext.
  intros cat Hcat. rewrite !column_tail3, (Hcol cat Hcat). reflexivity.
Qed.

Lemma sort_values_month_idempotent df :
  sort_values_month (sort_values_month df) = sort_values_month df.
Proof.
  unfold sort_values_month; cbn [df_rows df_columns].
  rewrite sort_by_idempotent. reflexivity.
Qed.

(** The feature vector built from the month-sorted history is the one
    built from the history as given. *)
Lemma feature_vector_sort_history h :
  feature_vector (sort_history h) = feature_vector h.
Proof.
  assert (Hs : sort_history (sort_history h) = sort_history h)
    by apply sort_by_idempotent.
  unfold feature_vector.
  rewrite !last_month_date_of_prepare, Hs.
  destruct (last (map month (sort_history h))) as [m |]; [| reflexivity].
  destruct (to_datetime m) as [d |]; [| reflexivity].
  cbn [bind]. f_equal. apply build_features_ext.
  intros cat Hcat. rewrite !prepare_column by exact Hcat.
  rewrite Hs. reflexivity.
Qed.

End FeatureIdempotence.

(** ** The confidence label *)

Section Confidence.
Context `{Pandas}.

Lemma column_sum_prepare h cat :
  In cat EXPENSE_CATEGORIES ->
  Qsum (column cat (fst (prepare h))) == historical_sum cat h.
Proof.
  intros Hcat. rewrite prepare_column by exact Hcat.
  unfold historical_sum, sort_history. apply Qsum_Permutation.
  apply Permutation_map, sort_by_Permutation.
Qed.

Lemma category_variances_from cats h :
  (forall cat, In cat cats -> In cat EXPENSE_CATEGORIES) ->
  omap (fun cat =>
          if decide (cat ∈ df_columns (fst (prepare h))) then
            if decide (0 < Qsum (column cat (fst (prepare h))))
            then Some (coefficient_of_variation
                         (column cat (fst (prepare h))))
            else None
          else None) cats
  = map (history_cv h) (filter (fun cat => 0 < historical_sum cat h) cats).
Proof.
  destruct (prepare_frame h) as (_ & _ & Hcols).
  induction cats as [| c cats IH]; intros Hsub; [reflexivity |].
  rewrite filter_cons. cbn [omap list_omap].
  assert (Hc : In c EXPENSE_CATEGORIES) by (apply Hsub; left; reflexivity).
  rewrite IH by (intros cat Hcat; apply Hsub; right; exact Hcat).
  destruct (decide (c ∈ df_columns (fst (prepare h)))) as [_ | Hout];
    [| exfalso; apply Hout, Hcols, Hc].
  pose proof (column_sum_prepare h c Hc) as Hsum.
  destruct (decide (0 < Qsum (column c (fst (prepare h))))) as [Hpos | Hneg];
    destruct (decide (0 < historical_sum c h)) as [Hpos' | Hneg'].
  - cbn [map]. unfold history_cv. rewrite prepare_column by exact Hc.
    reflexivity.
  - exfalso. apply Hneg'. rewrite <- Hsum. exact Hpos.
  - exfalso. apply Hneg. rewrite Hsum. exact Hpos'.
  - reflexivity.
Qed.

Lemma category_variances_prepare h :
  category_variances (fst (prepare h))
  = map (history_cv h) (active_categories h).
Proof. apply category_variances_from. auto. Qed.

(** The label that the code computes, on the history itself. *)
Lemma confidence_of_prepare h :
  confidence_of (length h) (fst (prepare h))
  = if (6 <=? length h)%nat then classify (average_cv h) else "medium".
Proof.
  unfold confidence_of, average_cv. rewrite category_variances_prepare.
  destruct (6 <=? length h)%nat; [| reflexivity].
  destruct (active_categories h) as [| c cats]; reflexivity.
Qed.

Lemma returned_confidence md h r :
  (3 <= length h)%nat ->
  predict_expenses (Some md) h = Returned r ->
  dict_get "confidence" r
  = Some (PyStr (if (6 <=? length h)%nat
                 then classify (average_cv h) else "medium")).
Proof.
  intros Hlen Hret.
  destruct (predict_expenses_returned md h r Hlen Hret)
    as (d & X & ps & _ & _ & _ & ->).
  rewrite <- confidence_of_prepare. reflexivity.
Qed.

Lemma filter_none h cats :
  (forall cat, In cat cats -> historical_sum cat h <= 0) ->
  filter (fun cat => 0 < historical_sum cat h) cats = [].
Proof.
  induction cats as [| c cats IH]; intros Hzero; [reflexivity |].
  rewrite filter_cons.
  destruct (decide (0 < historical_sum c h)) as [Hpos | _].
  - exfalso. apply (Qlt_not_le _ _ Hpos). apply Hzero. left. reflexivity.
  - apply IH. intros cat Hcat. apply Hzero. right. exact Hcat.
Qed.

Lemma classify_cases avg :
  (avg < 3 # 10 -> classify (Some avg) = "high") /\
  (6 # 10 < avg -> classify (Some avg) = "low") /\
  (3 # 10 <= avg -> avg <= 6 # 10 -> classify (Some avg) = "medium").
Proof.
  unfold classify.
  destruct (decide (avg < 3 # 10)) as [Hlo | Hlo];
    [| destruct (decide (6 # 10 < avg)) as [Hhi | Hhi]].
  - repeat split; [intros; lra ..].
  - apply Qnot_lt_le in Hlo. repeat split; intros; lra.
  - repeat split; intros; [contradiction ..].
Qed.

Lemma spec_total_Qsum l : spec_total l = Qsum l.
Proof.
  induction l as [| x l IH]; [reflexivity |].
  simpl. rewrite IH. reflexivity.
Qed.

Lemma Qsum_map_Permutation (f g : Q -> Q) l1 l2 :
  l1 ≡ₚ l2 -> (forall x, f x == g x) ->
  Qsum (map f l1) == Qsum (map g l2).
Proof.
  intros Hperm Hfg.
  rewrite (Qsum_Permutation (map f l1) (map f l2))
    by (apply Permutation_map; exact Hperm).
  clear Hperm. induction l2 as [| x l2 IH]; simpl; [reflexivity |].
  rewrite IH, Hfg. reflexivity.
Qed.

Lemma Qsum_map_ext {A} (f g : A -> Q) l :
  (forall x, f x == g x) -> Qsum (map f l) == Qsum (map g l).
Proof.
  intros Hfg. induction l as [| x l IH]; simpl; [reflexivity |].
  rewrite IH, Hfg. reflexivity.
Qed.

(** The code's mean of a column is the specification's mean of the
    amounts in any order. *)
Lemma mean_spec l1 l2 : l1 ≡ₚ l2 -> mean l1 == spec_mean l2.
Proof.
  intros Hperm. unfold mean, spec_mean.
  rewrite (spec_total_Qsum l2), (Qsum_Permutation l1 l2 Hperm),
    (Permutation_length Hperm).
  reflexivity.
Qed.

(** Line 131 computes the specification's coefficient of variation,
    whatever the order of the rows. *)
Lemma coefficient_of_variation_spec l1 l2 :
  sqrt_respects_value -> l1 ≡ₚ l2 ->
  coefficient_of_variation l1 == spec_coefficient_of_variation l2.
Proof.
  intros Hsqrt Hperm.
  pose proof (mean_spec l1 l2 Hperm) as Hmean.
  unfold coefficient_of_variation, spec_coefficient_of_variation,
    std, spec_standard_deviation, eps.
  apply Qdiv_comp; [| rewrite Hmean; reflexivity].
  apply Hsqrt. apply Qdiv_comp.
  - rewrite (spec_total_Qsum (map _ l2)).
    apply Qsum_map_Permutation; [exact Hperm |].
    intros x. rewrite Hmean. unfold Qpower. simpl. reflexivity.
  - rewrite (Permutation_length Hperm).
    unfold Qeq, Qminus, Qplus. simpl. lia.
Qed.

Lemma history_cv_spec h cat :
  sqrt_respects_value ->
  history_cv h cat == spec_coefficient_of_variation (spec_amounts cat h).
Proof.
  intros Hsqrt. unfold history_cv, spec_amounts.
  apply coefficient_of_variation_spec; [exact Hsqrt |].
  apply Permutation_map, sort_by_Permutation.
Qed.

Lemma active_categories_spec h :
  filter (fun cat => 0 < spec_total (spec_amounts cat h)) EXPENSE_CATEGORIES
  = active_categories h.
Proof.
  unfold active_categories. apply list_filter_iff.
  intros cat. unfold historical_sum, spec_amounts.
  rewrite (spec_total_Qsum (map _ h)). reflexivity.
Qed.

Lemma mean_map_spec {A} (f g : A -> Q) l :
  (forall x, f x == g x) -> mean (map f l) == spec_mean (map g l).
Proof.
  intros Hfg. unfold mean, spec_mean.
  rewrite (spec_total_Qsum (map g l)), (Qsum_map_ext f g l Hfg),
    !length_map.
  reflexivity.
Qed.

(** The average that the code classifies is the specification's. *)
Lemma average_cv_spec h :
  sqrt_respects_value ->
  match average_cv h, spec_average_cv h with
  | Some a, Some b => a == b
  | None, None => True
  | _, _ => False
  end.
Proof.
  intros Hsqrt. unfold average_cv, spec_average_cv.
  rewrite active_categories_spec.
  destruct (active_categories h) as [| c cats]; [exact I |].
  apply mean_map_spec. intros cat. apply history_cv_spec. exact Hsqrt.
Qed.

Lemma classify_value a b : a == b -> classify (Some a) = classify (Some b).
Proof.
  intros Hab. unfold classify.
  destruct (decide (a < 3 # 10)) as [Ha | Ha];
    destruct (decide (b < 3 # 10)) as [Hb | Hb];
    try (exfalso; rewrite Hab in Ha; contradiction); [reflexivity |].
  destruct (decide (6 # 10 < a)) as [Ha' | Ha'];
    destruct (decide (6 # 10 < b)) as [Hb' | Hb'];
    try (exfalso; rewrite Hab in Ha'; contradiction); reflexivity.
Qed.

End Confidence.

Section ConfidenceClaims.
Context `{Pandas}.

(** C4.  A result returned for three to five entries has confidence
    "medium".  For six or more entries the label is decided by the
    average, over the categories whose coerced amounts have a positive
    total, of the standard deviation of the category's amounts divided
    by their mean plus one millionth, all as the specification words
    them ([spec_average_cv]): below 0.3 the confidence is "high",
    above 0.6 it is "low", and from 0.3 to 0.6 it is "medium".  The
    square root inside the standard deviation is taken to be a
    function of the number's value. *)
Theorem C4_confidence_thresholds md h r :
  sqrt_respects_value ->
  (3 <= length h)%nat ->
  predict_expenses (Some md) h = Returned r ->
  exists confidence,
    dict_get "confidence" r = Some (PyStr confidence) /\
    ((length h <= 5)%nat -> confidence = "medium") /\
    ((6 <= length h)%nat ->
     forall avg, spec_average_cv h = Some avg ->
       (avg < 3 # 10 -> confidence = "high") /\
       (6 # 10 < avg -> confidence = "low") /\
       (3 # 10 <= avg -> avg <= 6 # 10 -> confidence = "medium")).
Proof.
  intros Hsqrt Hlen Hret. eexists. split;
    [apply (returned_confidence md h r Hlen Hret) |].
  destruct (Nat.leb_spec 6 (length h)) as [H6 | H6]; split.
  - intros H5. lia.
  - intros _ avg Havg.
    pose proof (average_cv_spec h Hsqrt) as Hspec. rewrite Havg in Hspec.
    destruct (average_cv h) as [a |]; [| destruct Hspec].
    rewrite (classify_value a avg Hspec). apply classify_cases.
  - reflexivity.
  - intros H6'. lia.
Qed.

(** C9.  A result returned for six or more entries in which no
    category has a positive coerced historical sum has confidence
    "medium". *)
Theorem C9_no_active_category_medium md h r :
  (6 <= length h)%nat ->
  (forall cat, In cat EXPENSE_CATEGORIES -> historical_sum cat h <= 0) ->
  predict_expenses (Some md) h = Returned r ->
  active_categories h = [] /\
  dict_get "confidence" r = Some (PyStr "medium").
Proof.
  intros Hlen Hzero Hret.
  assert (Hnone : active_categories h = [])
    by (apply filter_none; exact Hzero).
  split; [exact Hnone |].
  rewrite (returned_confidence md h r) by (lia || exact Hret).
  unfold average_cv. rewrite Hnone.
  destruct (6 <=? length h)%nat; reflexivity.
Qed.

Lemma classify_antitone a1 a2 :
  a1 <= a2 ->
  (tier_rank (classify (Some a2)) <= tier_rank (classify (Some a1)))%nat.
Proof.
  intros Hle. unfold classify.
  destruct (decide (a2 < 3 # 10)) as [H2 | H2];
    destruct (decide (a1 < 3 # 10)) as [H1 | H1];
    destruct (decide (6 # 10 < a2)) as [H2' | H2'];
    destruct (decide (6 # 10 < a1)) as [H1' | H1'];
    try (vm_compute; lia);
    exfalso; try apply Qnot_lt_le in H1; try apply Qnot_lt_le in H2;
    try apply Qnot_lt_le in H2'; lra.
Qed.

(** C7.  Of two histories of the same length (three or more entries)
    with the same active categories, if every active category varies
    no more in the first than in the second, the confidence returned
    for the first is not a lower tier than the one returned for the
    second (low < medium < high). *)
Theorem C7_confidence_monotone md h1 h2 r1 r2 :
  length h1 = length h2 ->
  (3 <= length h1)%nat ->
  active_categories h1 = active_categories h2 ->
  (forall cat, In cat (active_categories h1) ->
               history_cv h1 cat <= history_cv h2 cat) ->
  predict_expenses (Some md) h1 = Returned r1 ->
  predict_expenses (Some md) h2 = Returned r2 ->
  exists c1 c2,
    dict_get "confidence" r1 = Some (PyStr c1) /\
    dict_get "confidence" r2 = Some (PyStr c2) /\
    (tier_rank c2 <= tier_rank c1)%nat.
Proof.
  intros Hsame Hlen Hact Hcv Hret1 Hret2.
  do 2 eexists.
  split; [apply (returned_confidence md h1 r1 Hlen Hret1) |].
  split; [apply (returned_confidence md h2 r2); [lia | exact Hret2] |].
  rewrite <- Hsame. destruct (6 <=? length h1)%nat; [| apply Nat.le_refl].
  unfold average_cv. rewrite <- Hact.
  destruct (active_categories h1) as [| c cats] eqn:Ecats;
    [apply Nat.le_refl |].
  apply classify_antitone, mean_le.
  apply Forall2_fmap, Forall_Forall2_diag, Forall_forall.
  intros cat Hcat. apply Hcv, list_elem_of_In, Hcat.
Qed.

End ConfidenceClaims.

(** ** The target-month label *)

Section Label.
Context `{Pandas}.

Lemma returned_next_month md h r :
  (3 <= length h)%nat ->
  predict_expenses (Some md) h = Returned r ->
  exists last_month d,
    last (map month (sort_history h)) = Some last_month /\
    to_datetime last_month = Some d /\
    dict_get "next_month" r = Some (PyStr (next_month_label d)).
Proof.
  intros Hlen Hret.
  destruct (predict_expenses_returned md h r Hlen Hret)
    as (d & X & ps & Hd & _ & _ & ->).
  rewrite last_month_date_of_prepare in Hd.
  destruct (last (map month (sort_history h))) as [m |]; [| discriminate].
  exists m. destruct (to_datetime m) as [d' |] eqn:Em; [| discriminate].
  injection Hd as ->. exists d. auto.
Qed.

(** After a December the label keeps the year of that December. *)
Lemma december_label d :
  ts_month d = 12%Z ->
  next_month_label d = str_of_int (ts_year d) +:+ "-01".
Proof. unfold next_month_label, next_month_num. intros ->. reflexivity. Qed.

End Label.

(** C3.  The code run on a three-entry history whose last month is
    December 2024: the month of the label wraps to 01, but the year in
    the label is still 2024, not 2025. *)
Theorem C3_december_label_keeps_year :
  exists r,
    predict_expenses (Some Sample.bank) Sample.groceries_2024 = Returned r /\
    last (map month (sort_history Sample.groceries_2024)) = Some "2024-12" /\
    to_datetime "2024-12" = Some {| ts_year := 2024; ts_month := 12 |} /\
    dict_get "next_month" r = Some (PyStr "2024-01") /\
    dict_get "next_month" r <> Some (PyStr "2025-01").
Proof.
  exists (Sample.run Sample.groceries_2024).
  split; [vm_compute; reflexivity |].
  split; [vm_compute; reflexivity |].
  split; [vm_compute; reflexivity |].
  split; [vm_compute; reflexivity |].
  vm_compute. discriminate.
Qed.

(** ** The theorems at concrete histories *)

Lemma C1_witness :
  exists r predictions,
    predict_expenses (Some Sample.bank) (firstn 2 Sample.groceries_2024)
      = Returned r /\
    dict_get "predictions" r = Some (PyDict predictions) /\
    map fst predictions = EXPENSE_CATEGORIES /\
    (forall cat, In cat EXPENSE_CATEGORIES ->
                 alist_get cat predictions = Some 0) /\
    dict_get "total" r = Some (PyNum 0) /\
    dict_get "confidence" r = Some (PyStr "low") /\
    dict_get "message" r =
      Some (PyStr
        "Need at least 3 months of history for accurate predictions").
Proof.
  apply (C1_short_history_degenerate_result Sample.bank
           (firstn 2 Sample.groceries_2024)).
  vm_compute. lia.
Defined.

Lemma C10_witness :
  exists r,
    predict_expenses (Some Sample.bank) [] = Returned r /\
    dict_keys r = ["predictions"; "total"; "confidence"; "message"] /\
    dict_get "history_months" r = None /\
    dict_get "next_month" r = None /\
    dict_keys (Sample.run Sample.steady)
      = ["predictions"; "total"; "confidence"; "history_months"; "next_month"].
Proof.
  destruct (C10_degenerate_result_keys Sample.bank [])
    as (r & Hret & Hkeys & Hhm & Hnm & Hlong); [vm_compute; lia |].
  exists r. split; [exact Hret |]. split; [exact Hkeys |].
  split; [exact Hhm |]. split; [exact Hnm |].
  destruct (Hlong Sample.steady (Sample.run Sample.steady)) as (Hk & _);
    [vm_compute; lia | vm_compute; reflexivity | exact Hk].
Defined.

Lemma C2_witness :
  exists predictions,
    dict_get "predictions" (Sample.run Sample.groceries_2024)
      = Some (PyDict predictions) /\
    alist_get "Utilities" predictions = Some 0.
Proof.
  destruct (C2_unused_category_forced_to_zero Sample.bank
              Sample.groceries_2024 (Sample.run Sample.groceries_2024)
              "Utilities")
    as (ps & Hps & Hzero & _).
  - vm_compute; lia.
  - vm_compute; tauto.
  - vm_compute; reflexivity.
  - exists ps. split; [exact Hps |]. apply Hzero. vm_compute. discriminate.
Defined.

Lemma C5_witness :
  exists predictions total,
    dict_get "predictions" (Sample.run Sample.erratic)
      = Some (PyDict predictions) /\
    dict_get "total" (Sample.run Sample.erratic) = Some (PyNum total) /\
    Forall (fun p => round2 p == p) (map snd predictions) /\
    total == Qsum (map snd predictions).
Proof.
  apply (C5_total_is_sum_of_rounded_predictions Sample.bank Sample.erratic).
  - vm_compute; lia.
  - vm_compute; reflexivity.
Defined.

Lemma C6_witness :
  exists features,
    feature_vector Sample.groceries_2024 = Returned features /\
    features !! "month_num" = Some (inject_Z (12 mod 12 + 1)) /\
    (12%Z = 12%Z -> features !! "month_num" = Some 1).
Proof.
  apply (C6_month_num_wraps Sample.groceries_2024 "2024-12"
           {| ts_year := 2024; ts_month := 12 |}).
  - vm_compute; lia.
  - vm_compute; reflexivity.
  - vm_compute; reflexivity.
Defined.

Lemma sqrt6_respects_value : sqrt_respects_value.
Proof.
  intros a b Hab. unfold np_sqrt, Sample.pandas, Sample.sqrt6.
  assert (Hz : a * 1000000000000 == b * 1000000000000)
    by (rewrite Hab; reflexivity).
  rewrite (Qfloor_comp _ _ Hz). reflexivity.
Defined.

Lemma C4_witness :
  (exists confidence avg,
     dict_get "confidence" (Sample.run Sample.erratic)
       = Some (PyStr confidence) /\
     spec_average_cv Sample.erratic = Some avg /\
     6 # 10 < avg /\
     confidence = "low") /\
  (exists confidence,
     dict_get "confidence" (Sample.run Sample.groceries_2024)
       = Some (PyStr confidence) /\
     confidence = "medium").
Proof.
  split.
  - destruct (C4_confidence_thresholds Sample.bank Sample.erratic
                (Sample.run Sample.erratic))
      as (c & Hc & _ & Hlong).
    + exact sqrt6_respects_value.
    + vm_compute; lia.
    + vm_compute; reflexivity.
    + exists c. eexists. split; [exact Hc |]. split; [reflexivity |].
      assert (Hover : 6 # 10 < 2476893210000000 # 2570000006000000)
        by (vm_compute; reflexivity).
      split; [exact Hover |].
      destruct (Hlong ltac:(vm_compute; lia) _ eq_refl) as (_ & Hlow & _).
      apply Hlow, Hover.
  - destruct (C4_confidence_thresholds Sample.bank Sample.groceries_2024
                (Sample.run Sample.groceries_2024))
      as (c & Hc & Hshort & _).
    + exact sqrt6_respects_value.
    + vm_compute; lia.
    + vm_compute; reflexivity.
    + exists c. split; [exact Hc |]. apply Hshort. vm_compute; lia.
Defined.

Lemma C9_witness :
  active_categories Sample.idle = [] /\
  dict_get "confidence" (Sample.run Sample.idle) = Some (PyStr "medium").
Proof.
  apply (C9_no_active_category_medium Sample.bank Sample.idle).
  - vm_compute; lia.
  - intros cat Hcat. vm_compute in Hcat.
    repeat (destruct Hcat as [<- | Hcat]; [vm_compute; discriminate |]).
    destruct Hcat.
  - vm_compute; reflexivity.
Defined.

Lemma C7_witness :
  exists c1 c2,
    dict_get "confidence" (Sample.run Sample.steady) = Some (PyStr c1) /\
    dict_get "confidence" (Sample.run Sample.erratic) = Some (PyStr c2) /\
    (tier_rank c2 <= tier_rank c1)%nat.
Proof.
  apply (C7_confidence_monotone Sample.bank Sample.steady Sample.erratic).
  - vm_compute; reflexivity.
  - vm_compute; lia.
  - vm_compute; reflexivity.
  - intros cat Hcat. vm_compute in Hcat.
    destruct Hcat as [<- | []]. vm_compute. discriminate.
  - vm_compute; reflexivity.
  - vm_compute; reflexivity.
Defined.

(** ** When [predict_expenses] returns *)

Section Returns.
Context `{Pandas}.

Lemma lag_step_is_Some df features category k :
  is_Some (features !! k) \/ In k (feature_keys category) ->
  is_Some (lag_step df features category !! k).
Proof.
  intros Hk. unfold lag_step. rewrite !lookup_insert.
  repeat (destruct (decide _) as [_ | ?]; [eexists; reflexivity |]).
  destruct Hk as [Hk | Hk]; [exact Hk |].
  simpl in Hk. repeat (destruct Hk as [Hk | Hk]; [congruence |]).
  destruct Hk.
Qed.

Lemma lag_fold_is_Some df k cats : forall features,
  is_Some (features !! k)
  \/ (exists category, In category cats /\ In k (feature_keys category)) ->
  is_Some (fold_left (lag_step df) cats features !! k).
Proof.
  induction cats as [| c cats IH]; intros features Hk; cbn [fold_left].
  - destruct Hk as [Hk | (c & [] & _)]. exact Hk.
  - apply IH. destruct Hk as [Hk | (c' & [<- | Hc'] & Hkeys)].
    + left. apply lag_step_is_Some. left. exact Hk.
    + left. apply lag_step_is_Some. right. exact Hkeys.
    + right. exists c'. auto.
Qed.

Lemma build_features_is_Some df d k :
  trained_label k -> is_Some (build_features df d !! k).
Proof.
  intros [-> | Hk]; unfold build_features; apply lag_fold_is_Some.
  - left. rewrite lookup_singleton_eq. eexists; reflexivity.
  - right. exact Hk.
Qed.

Lemma select_columns_returns cols features :
  Forall (fun c => is_Some (features !! c)) cols ->
  exists X, select_columns cols features = Returned X.
Proof.
  induction 1 as [| c cols [v Hv] _ [X HX]]; simpl.
  - exists []. reflexivity.
  - rewrite Hv, HX. cbn [bind]. exists (v :: X). reflexivity.
Qed.

Lemma predict_loop_returns md X ucs cats :
  (forall c, In c cats -> c ∈ ucs ->
             is_Some (scalers md !! c) /\ is_Some (models md !! c)) ->
  exists ps, predict_loop md X ucs cats = Returned ps.
Proof.
  induction cats as [| c cats IH]; intros Hbank; simpl.
  - exists []. reflexivity.
  - destruct IH as [ps Hps];
      [intros c' Hc'; apply Hbank; right; exact Hc' |].
    rewrite Hps. unfold predict_category.
    destruct (decide (c ∈ ucs)) as [Hin | _].
    + destruct (Hbank c (or_introl eq_refl) Hin) as [[sc ->] [m ->]].
      cbn [bind]. eexists. reflexivity.
    + cbn [bind]. eexists. reflexivity.
Qed.

(** With a bank whose feature columns are labels that [features] has
    and that holds a scaler and a model for every active category,
    [predict_expenses] returns for every history of three or more
    entries whose last month [pd.to_datetime] can read. *)
Lemma predict_expenses_returns md h last_month d :
  (3 <= length h)%nat ->
  last (map month (sort_history h)) = Some last_month ->
  to_datetime last_month = Some d ->
  Forall trained_label (feature_columns md) ->
  (forall c, In c EXPENSE_CATEGORIES -> 0 < historical_sum c h ->
             is_Some (scalers md !! c) /\ is_Some (models md !! c)) ->
  exists r, predict_expenses (Some md) h = Returned r.
Proof.
  intros Hlen Hlast Hd Hcols Hbank. unfold predict_expenses.
  destruct (Nat.ltb_spec (length h) 3) as [Hlt | _]; [lia |].
  pose proof (last_month_date_of_prepare h) as Hdate.
  rewrite Hlast, Hd in Hdate.
  pose proof (prepare_user_categories h) as Hucs.
  destruct (prepare h) as [df ucs]; cbn [fst snd] in *.
  rewrite Hdate. cbn [bind].
  destruct (select_columns_returns (feature_columns md)
              (build_features df d)) as [X ->].
  { eapply Forall_impl; [exact Hcols |].
    intros k Hk. apply build_features_is_Some, Hk. }
  cbn [bind].
  destruct (predict_loop_returns md X ucs EXPENSE_CATEGORIES) as [ps ->].
  { intros c Hc Hin. apply Hbank; [exact Hc | apply Hucs, Hin]. }
  cbn [bind]. eexists. reflexivity.
Qed.

End Returns.

(** ** The code run on the sample histories *)

Example groceries_2024_features :
  (fun features : gmap string Q =>
     (features !! "month_num", features !! "Groceries_lag1",
      features !! "Groceries_lag2", features !! "Groceries_lag3",
      features !! "Groceries_rolling_avg_3", features !! "Utilities_lag1"))
    <$> (match feature_vector Sample.groceries_2024 with
         | Returned features => Some features
         | Raised _ => None
         end)
  = Some (Some 1, Some 320, Some 310, Some 300,
          Some ((300 + (310 + (320 + 0))) / 3), Some 0).
Proof. vm_compute. reflexivity. Qed.

Example groceries_2024_mask :
  active_categories Sample.groceries_2024 = ["Groceries"].
Proof. vm_compute. reflexivity. Qed.

Example steady_confidence :
  dict_get "confidence" (Sample.run Sample.steady) = Some (PyStr "high").
Proof. vm_compute. reflexivity. Qed.

Example erratic_confidence :
  dict_get "confidence" (Sample.run Sample.erratic) = Some (PyStr "low").
Proof. vm_compute. reflexivity. Qed.

Example model_not_loaded :
  predict_expenses None Sample.steady
  = Raised (RuntimeError "Model not loaded").
Proof. reflexivity. Qed.

Example round2_examples :
  (round2 (1241 # 7), round2 (1 # 8), round2 (-(1 # 3)),
   max0 (round2 (-(1 # 3))))
  = (17729 # 100, 12 # 100, (-33) # 100, 0).
Proof. vm_compute. reflexivity. Qed.

(** * Further properties of [predict_expenses] *)

Section Floor.
Context `{Pandas}.

Lemma max0_nonneg q : 0 <= max0 q.
Proof.
  unfold max0. destruct (Qle_bool q 0) eqn:E; [apply Qle_refl |].
  apply Qlt_le_weak, Qnot_le_lt. intros Hle.
  apply Qle_bool_iff in Hle. congruence.
Qed.

Lemma Qsum_nonneg l : Forall (fun p => 0 <= p) l -> 0 <= Qsum l.
Proof.
  induction 1 as [| p l Hp _ IH]; simpl; [apply Qle_refl |].
  replace 0 with (0 + 0) by reflexivity. apply Qplus_le_compat; assumption.
Qed.

Lemma predict_loop_nonneg md X ucs cats : forall ps,
  predict_loop md X ucs cats = Returned ps ->
  Forall (fun p => 0 <= p) (map snd ps).
Proof.
  induction cats as [| c cats IH]; intros ps Hret; simpl in Hret.
  - injection Hret as <-. constructor.
  - destruct (predict_category md X ucs c) as [p | e] eqn:Ep;
      cbn [bind] in Hret; [| discriminate].
    destruct (predict_loop md X ucs cats) as [ps' | e] eqn:Eps;
      cbn [bind] in Hret; [| discriminate].
    injection Hret as <-. simpl. constructor; [| apply IH; reflexivity].
    unfold predict_category in Ep. destruct (decide (c ∈ ucs)).
    + destruct (scalers md !! c); [| discriminate].
      destruct (models md !! c); [| discriminate].
      injection Ep as <-. apply max0_nonneg.
    + injection Ep as <-. apply Qle_refl.
Qed.

(** X1.  Whatever the history and the model bank, a returned result
    lists exactly the eight categories, in the order of the fixed list,
    no prediction is negative and the total is not negative. *)
Theorem predictions_never_negative md h r :
  predict_expenses (Some md) h = Returned r ->
  exists predictions total,
    dict_get "predictions" r = Some (PyDict predictions) /\
    dict_get "total" r = Some (PyNum total) /\
    map fst predictions = EXPENSE_CATEGORIES /\
    Forall (fun p => 0 <= p) (map snd predictions) /\
    0 <= total.
Proof.
  intros Hret. destruct (Nat.lt_ge_cases (length h) 3) as [Hshort | Hlen].
  - rewrite predict_expenses_short in Hret by exact Hshort.
    injection Hret as <-.
    exists (map (fun cat => (cat, 0)) EXPENSE_CATEGORIES), 0.
    repeat split; try reflexivity.
    + repeat constructor; apply Qle_refl.
    + apply Qle_refl.
  - destruct (predict_expenses_returned md h r Hlen Hret)
      as (d & X & ps & _ & _ & Hps & ->).
    pose proof (predict_loop_nonneg _ _ _ _ _ Hps) as Hnn.
    destruct (predict_loop_spec _ _ _ _ _ Hps) as (Hkeys & _ & Hdec).
    exists ps, (round2 (Qsum (map snd ps))).
    repeat split; try reflexivity; try assumption.
    rewrite round2_two_decimals by (apply two_decimals_Qsum, Hdec).
    apply Qsum_nonneg, Hnn.
Qed.

End Floor.

Section LagFeatures.
Context `{Pandas}.

Lemma category_keys_apart_spec c c' k :
  In c EXPENSE_CATEGORIES -> In c' EXPENSE_CATEGORIES -> c <> c' ->
  In k (feature_keys c) -> ~ In k (feature_keys c').
Proof.
  intros Hc Hc' Hne Hk Hk'.
  assert (Hall : category_keys_apart = true) by (vm_compute; reflexivity).
  unfold category_keys_apart in Hall.
  rewrite forallb_forall in Hall. specialize (Hall c Hc).
  rewrite forallb_forall in Hall. specialize (Hall c' Hc').
  apply orb_true_iff in Hall. destruct Hall as [Heq | Hclash].
  - apply String.eqb_eq in Heq. contradiction.
  - apply negb_true_iff in Hclash.
    assert (Hyes : keys_clash c c' = true); [| congruence].
    unfold keys_clash. apply existsb_exists. exists k. split; [exact Hk |].
    apply existsb_exists. exists k. split; [exact Hk' |].
    apply String.eqb_refl.
Qed.

Lemma lag_step_own df features c :
  let values := column c df in
  lag_step df features c !! (c +:+ "_lag1") = Some (lag 1 values) /\
  lag_step df features c !! (c +:+ "_lag2") = Some (lag 2 values) /\
  lag_step df features c !! (c +:+ "_lag3") = Some (lag 3 values) /\
  lag_step df features c !! (c +:+ "_rolling_avg_3") = Some (mean values).
Proof.
  assert (Hinj : forall s1 s2, s1 <> s2 -> c +:+ s1 <> c +:+ s2).
  { intros s1 s2 Hne Heq. apply Hne. eapply String.app_inj, Heq. }
  unfold lag_step. cbv zeta.
  repeat split;
    repeat (first [ rewrite lookup_insert_eq; reflexivity
                  | rewrite lookup_insert_ne by (apply Hinj; discriminate) ]).
Qed.

Lemma lag_fold_own df c cats : forall features,
  In c cats ->
  (forall c', In c' cats -> c' <> c ->
              forall k, In k (feature_keys c) -> ~ In k (feature_keys c')) ->
  forall k, In k (feature_keys c) ->
  fold_left (lag_step df) cats features !! k = lag_step df features c !! k
  \/ exists features',
       fold_left (lag_step df) cats features !! k
       = lag_step df features' c !! k.
Proof.
  induction cats as [| a cats IH]; intros features Hc Hapart k Hk;
    [destruct Hc |].
  cbn [fold_left].
  destruct (in_dec string_dec c cats) as [Hin | Hout].
  - right. destruct (IH (lag_step df features a) Hin) with (k := k)
      as [Heq | [f' Heq]]; [| exact Hk | eexists; exact Heq ..].
    intros c' Hc' Hne. apply Hapart; [right; exact Hc' | exact Hne].
  - destruct Hc as [-> | Hc]; [| contradiction].
    left. apply lag_fold_other. apply Forall_forall. intros c' Hc'.
    apply list_elem_of_In in Hc'.
    apply (Hapart c'); [right; exact Hc' | | exact Hk].
    intros ->. contradiction.
Qed.

(** The four features of a category, read from its column. *)
Lemma build_features_lags df d c :
  In c EXPENSE_CATEGORIES ->
  let values := tail3 (column c df) in
  build_features df d !! (c +:+ "_lag1") = Some (lag 1 values) /\
  build_features df d !! (c +:+ "_lag2") = Some (lag 2 values) /\
  build_features df d !! (c +:+ "_lag3") = Some (lag 3 values) /\
  build_features df d !! (c +:+ "_rolling_avg_3") = Some (mean values).
Proof.
  intros Hc values. unfold build_features.
  set (last3 := {| df_columns := df_columns df;
                   df_rows := tail3 (df_rows df) |}).
  assert (Hvalues : column c last3 = values) by apply column_tail3.
  assert (Hown : forall k, In k (feature_keys c) ->
            exists features',
              fold_left (lag_step last3) EXPENSE_CATEGORIES
                {["month_num" := inject_Z (next_month_num d)]} !! k
              = lag_step last3 features' c !! k).
  { intros k Hk.
    destruct (lag_fold_own last3 c EXPENSE_CATEGORIES
                {["month_num" := inject_Z (next_month_num d)]} Hc) with (k := k)
      as [Heq | Hex]; [| exact Hk | eexists; exact Heq | exact Hex].
    intros c' Hc' Hne k0 Hk0.
    apply (category_keys_apart_spec c c' k0); auto. }
  repeat split.
  - destruct (Hown (c +:+ "_lag1")) as [f' ->]; [simpl; auto |].
    rewrite <- Hvalues. apply lag_step_own.
  - destruct (Hown (c +:+ "_lag2")) as [f' ->]; [simpl; auto |].
    rewrite <- Hvalues. apply lag_step_own.
  - destruct (Hown (c +:+ "_lag3")) as [f' ->]; [simpl; auto |].
    rewrite <- Hvalues. apply lag_step_own.
  - destruct (Hown (c +:+ "_rolling_avg_3")) as [f' ->]; [simpl; auto 6 |].
    rewrite <- Hvalues. apply lag_step_own.
Qed.

(** The lag features read the three last entries of the sorted
    history. *)
Lemma lag_features_of_sort_history h cat
    (older : list MonthlyRecord) (r3 r2 r1 : MonthlyRecord) :
  In cat EXPENSE_CATEGORIES ->
  sort_history h = (older ++ [r3; r2; r1])%list ->
  forall features,
    feature_vector h = Returned features ->
    features !! (cat +:+ "_lag1") = Some (coerced_amount cat r1) /\
    features !! (cat +:+ "_lag2") = Some (coerced_amount cat r2) /\
    features !! (cat +:+ "_lag3") = Some (coerced_amount cat r3) /\
    features !! (cat +:+ "_rolling_avg_3")
      = Some (mean [coerced_amount cat r3; coerced_amount cat r2;
                    coerced_amount cat r1]).
Proof.
  intros Hcat Hsorted features Hfv. unfold feature_vector in Hfv.
  destruct (last_month_date_of (fst (prepare h))) as [d | e];
    cbn [bind] in Hfv; [| discriminate].
  injection Hfv as <-.
  pose proof (build_features_lags (fst (prepare h)) d cat Hcat) as Hlags.
  cbv zeta in Hlags. rewrite prepare_column, Hsorted in Hlags by exact Hcat.
  assert (Htail : tail3 (map (coerced_amount cat) (older ++ [r3; r2; r1])%list)
                  = [coerced_amount cat r3; coerced_amount cat r2;
                     coerced_amount cat r1]).
  { unfold tail3. rewrite map_app, length_app, length_map. cbn [map length].
    replace (length older + 3 - 3)%nat
      with (length (map (coerced_amount cat) older) + 0)%nat
      by (rewrite length_map; lia).
    rewrite skipn_app, Nat.add_comm, skipn_all2 by lia.
    replace (0 + length (map (coerced_amount cat) older)
             - length (map (coerced_amount cat) older))%nat with 0%nat by lia.
    reflexivity. }
  rewrite Htail in Hlags. exact Hlags.
Qed.

End LagFeatures.

(** ** When [predict_expenses] returns and what it raises *)

Section Outcomes.
Context `{Pandas}.

Lemma lag_step_is_Some_inv df features c k :
  is_Some (lag_step df features c !! k) ->
  is_Some (features !! k) \/ In k (feature_keys c).
Proof.
  unfold lag_step. rewrite !lookup_insert.
  repeat (destruct (decide _) as [<- | _]; [intros _; right; simpl; tauto |]).
  intros Hk. left. exact Hk.
Qed.

Lemma lag_fold_is_Some_inv df k cats : forall features,
  is_Some (fold_left (lag_step df) cats features !! k) ->
  is_Some (features !! k)
  \/ exists c, In c cats /\ In k (feature_keys c).
Proof.
  induction cats as [| a cats IH]; intros features Hk; cbn [fold_left] in Hk.
  - left. exact Hk.
  - destruct (IH _ Hk) as [Hstep | (c & Hc & Hkeys)].
    + destruct (lag_step_is_Some_inv _ _ _ _ Hstep) as [Hf | Ha].
      * left. exact Hf.
      * right. exists a. split; [left; reflexivity | exact Ha].
    + right. exists c. split; [right; exact Hc | exact Hkeys].
Qed.

(** The [features] dict has the 33 trained labels as its keys, and no
    other key. *)
Lemma build_features_keys df d k :
  is_Some (build_features df d !! k) <-> trained_label k.
Proof.
  split; [| apply build_features_is_Some].
  unfold build_features. intros Hk.
  apply lag_fold_is_Some_inv in Hk. destruct Hk as [Hk | Hk].
  - left. rewrite lookup_singleton in Hk.
    destruct (decide ("month_num" = k)) as [<- |]; [reflexivity |].
    destruct Hk as [? Hk]. discriminate Hk.
  - right. exact Hk.
Qed.

Lemma select_columns_outcome cols features :
  match select_columns cols features with
  | Returned X =>
      length X = length cols /\
      Forall (fun c => is_Some (features !! c)) cols
  | Raised e =>
      exists c, e = KeyError c /\ In c cols /\ features !! c = None
  end.
Proof.
  induction cols as [| c cols IH]; simpl.
  - split; [reflexivity | constructor].
  - destruct (features !! c) as [v |] eqn:Ev.
    + destruct (select_columns cols features) as [X | e]; cbn [bind].
      * destruct IH as [Hlen Hall]. split; [simpl; congruence |].
        constructor; [rewrite Ev; eexists; reflexivity | exact Hall].
      * destruct IH as (c' & -> & Hc' & Hnone). exists c'. auto.
    + exists c. auto.
Qed.

Lemma predict_loop_outcome md X ucs cats :
  match predict_loop md X ucs cats with
  | Returned ps =>
      forall c, In c cats -> c ∈ ucs ->
                is_Some (scalers md !! c) /\ is_Some (models md !! c)
  | Raised e =>
      exists c, e = KeyError c /\ In c cats /\ c ∈ ucs /\
                (scalers md !! c = None \/ models md !! c = None)
  end.
Proof.
  induction cats as [| c cats IH]; simpl; [intros c [] |].
  unfold predict_category at 1.
  destruct (decide (c ∈ ucs)) as [Hin | Hout].
  - destruct (scalers md !! c) as [sc |] eqn:Esc;
      [| exists c; cbn [bind]; auto 6].
    destruct (models md !! c) as [m |] eqn:Em;
      [| exists c; cbn [bind]; auto 6].
    cbn [bind]. destruct (predict_loop md X ucs cats) as [ps | e]; cbn [bind].
    + intros c' [<- | Hc'] Hucs; [| apply IH; assumption].
      rewrite Esc, Em. split; eexists; reflexivity.
    + destruct IH as (c' & -> & Hc' & Hrest). exists c'. auto.
  - cbn [bind]. destruct (predict_loop md X ucs cats) as [ps | e]; cbn [bind].
    + intros c' [<- | Hc'] Hucs; [contradiction | apply IH; assumption].
    + destruct IH as (c' & -> & Hc' & Hrest). exists c'. auto.
Qed.

(** X3.  With the model loaded and three or more entries,
    [predict_expenses] returns exactly when [pd.to_datetime] reads the
    latest month, every feature column of the bank is one of the 33
    labels that the features carry, and the bank has a scaler and a
    model for every category with a positive coerced sum.  When it
    raises instead, the exception is the date error for that month, or
    a [KeyError] naming an unknown feature column or an active category
    that the bank lacks. *)
Theorem predict_expenses_outcome md h last_month :
  (3 <= length h)%nat ->
  last (map month (sort_history h)) = Some last_month ->
  match predict_expenses (Some md) h with
  | Returned r =>
      is_Some (to_datetime last_month) /\
      Forall trained_label (feature_columns md) /\
      (forall c, In c EXPENSE_CATEGORIES -> 0 < historical_sum c h ->
                 is_Some (scalers md !! c) /\ is_Some (models md !! c))
  | Raised e =>
      (e = DateParseError last_month /\ to_datetime last_month = None)
      \/ (exists k, e = KeyError k /\ In k (feature_columns md) /\
                    ~ trained_label k)
      \/ (exists c, e = KeyError c /\ In c EXPENSE_CATEGORIES /\
                    0 < historical_sum c h /\
                    (scalers md !! c = None \/ models md !! c = None))
  end.
Proof.
  intros Hlen Hlast. unfold predict_expenses.
  destruct (Nat.ltb_spec (length h) 3) as [Hlt | _]; [lia |].
  pose proof (last_month_date_of_prepare h) as Hdate.
  rewrite Hlast in Hdate.
  pose proof (prepare_user_categories h) as Hucs.
  destruct (prepare h) as [df ucs]; cbn [fst snd] in *.
  rewrite Hdate.
  destruct (to_datetime last_month) as [d |] eqn:Ed; cbn [bind];
    [| left; auto].
  pose proof (select_columns_outcome (feature_columns md)
                (build_features df d)) as HX.
  destruct (select_columns _ _) as [X | e]; cbn [bind].
  - destruct HX as [_ Hcols].
    pose proof (predict_loop_outcome md X ucs EXPENSE_CATEGORIES) as Hps.
    destruct (predict_loop _ _ _ _) as [ps | e]; cbn [bind].
    + split; [eexists; reflexivity |]. split.
      * eapply Forall_impl; [exact Hcols |].
        intros k Hk. apply (build_features_keys df d), Hk.
      * intros c Hc Hpos. apply Hps; [exact Hc |]. apply Hucs. auto.
    + destruct Hps as (c & -> & Hc & Hin & Hnone).
      right; right. exists c. apply Hucs in Hin. tauto.
  - destruct HX as (c & -> & Hc & Hnone).
    right; left. exists c. split; [reflexivity |]. split; [exact Hc |].
    intros Hlabel. apply (build_features_keys df d) in Hlabel.
    rewrite Hnone in Hlabel. destruct Hlabel as [? Hx]. discriminate Hx.
Qed.

End Outcomes.

(** ** The order of the entries in the request *)

Section EntryOrder.
Context `{Pandas}.

Lemma key_le_trans {A} (key : A -> string) : Transitive (key_le key).
Proof.
  intros x y z Hxy Hyz. unfold key_le in *.
  apply Is_true_true. apply Is_true_true in Hxy, Hyz.
  exact (transitivity (R := String.le) Hxy Hyz).
Qed.

Lemma NoDup_map_eq {A B} (f : A -> B) l x y :
  NoDup (map f l) -> In x l -> In y l -> f x = f y -> x = y.
Proof.
  induction l as [| a l IH]; intros Hnd Hx Hy Hf; [destruct Hx |].
  simpl in Hnd. apply NoDup_cons in Hnd. destruct Hnd as [Ha Hnd].
  destruct Hx as [-> | Hx], Hy as [-> | Hy].
  - reflexivity.
  - exfalso. apply Ha. rewrite Hf. apply list_elem_of_In, in_map, Hy.
  - exfalso. apply Ha. rewrite <- Hf. apply list_elem_of_In, in_map, Hx.
  - apply IH; assumption.
Qed.

(** Entries with pairwise different months have one month order. *)
Lemma sort_history_Permutation h h' :
  NoDup (map month h) -> h ≡ₚ h' -> sort_history h = sort_history h'.
Proof.
  intros Hnd Hperm. unfold sort_history.
  pose proof (key_le_trans month) as Htrans.
  apply (Sorted_unique_strong (key_le month)).
  - intros x1 x2 Hx1 Hx2 H12 H21.
    apply (NoDup_map_eq month h); [exact Hnd | | |].
    + apply list_elem_of_In in Hx1.
      eapply Permutation_in; [apply sort_by_Permutation | exact Hx1].
    + apply list_elem_of_In in Hx2.
      eapply Permutation_in; [symmetry; exact Hperm |].
      eapply Permutation_in; [apply sort_by_Permutation | exact Hx2].
    + apply String.leb_antisym; assumption.
  - apply sort_by_Sorted.
  - apply sort_by_Sorted.
  - rewrite !sort_by_Permutation. exact Hperm.
Qed.

Lemma historical_sum_Permutation cat h h' :
  h ≡ₚ h' -> historical_sum cat h == historical_sum cat h'.
Proof.
  intros Hperm. unfold historical_sum.
  apply Qsum_Permutation, Permutation_map, Hperm.
Qed.

Lemma prepare_same_sorted h h' :
  h ≡ₚ h' -> sort_history h = sort_history h' ->
  snd (prepare h) = snd (prepare h') /\
  last_month_date_of (fst (prepare h))
    = last_month_date_of (fst (prepare h')) /\
  (forall d, build_features (fst (prepare h)) d
             = build_features (fst (prepare h')) d) /\
  confidence_of (length h) (fst (prepare h))
    = confidence_of (length h') (fst (prepare h')).
Proof.
  intros Hperm Hsort.
  assert (Hact : active_categories h = active_categories h').
  { unfold active_categories. apply list_filter_iff. intros cat.
    rewrite (historical_sum_Permutation cat h h' Hperm). reflexivity. }
  split; [| split; [| split]].
  - apply set_eq. intros x. rewrite !prepare_user_categories.
    rewrite (historical_sum_Permutation x h h' Hperm). reflexivity.
  - rewrite !last_month_date_of_prepare, Hsort. reflexivity.
  - intros d. apply build_features_ext. intros cat Hcat.
    rewrite !prepare_column by exact Hcat. rewrite Hsort. reflexivity.
  - rewrite !confidence_of_prepare, (Permutation_length Hperm).
    unfold average_cv, history_cv. rewrite Hact, Hsort. reflexivity.
Qed.

(** X4.  When the entries have pairwise different months, the order in
    which the request lists them does not matter: every permutation of
    the history gives the same outcome, result or exception. *)
Theorem predict_expenses_order_independent model_data h h' :
  NoDup (map month h) ->
  h ≡ₚ h' ->
  predict_expenses model_data h = predict_expenses model_data h'.
Proof.
  intros Hnd Hperm. unfold predict_expenses.
  destruct model_data as [md |]; [| reflexivity].
  rewrite (Permutation_length Hperm).
  destruct (length h' <? 3)%nat; [reflexivity |].
  destruct (prepare_same_sorted h h' Hperm
              (sort_history_Permutation h h' Hnd Hperm))
    as (Hucs & Hdate & Hfeat & Hconf).
  rewrite (Permutation_length Hperm) in Hconf.
  destruct (prepare h) as [df ucs], (prepare h') as [df' ucs'];
    cbn [fst snd] in *.
  subst ucs'. rewrite Hdate.
  destruct (last_month_date_of df') as [d | e]; cbn [bind]; [| reflexivity].
  rewrite Hfeat, Hconf. reflexivity.
Qed.

End EntryOrder.

(** ** One month order *)

Section MonthOrder.
Context `{Pandas} `{Numpy}.

(** Rows with pairwise different keys have one key order: whatever
    algorithm sorts them, the result is the one of [sort_by]. *)
Lemma sorted_order_unique {A} (key : A -> string) l sorted :
  NoDup (map key l) ->
  Sorted (key_le key) sorted -> sorted ≡ₚ l ->
  sorted = sort_by key l.
Proof.
  intros Hnd Hsorted Hperm.
  pose proof (key_le_trans key) as Htrans.
  apply (Sorted_unique_strong (key_le key)).
  - intros x1 x2 Hx1 Hx2 H12 H21.
    apply (NoDup_map_eq key l); [exact Hnd | | |].
    + apply list_elem_of_In in Hx1.
      eapply Permutation_in; [exact Hperm | exact Hx1].
    + apply list_elem_of_In in Hx2.
      eapply Permutation_in; [apply sort_by_Permutation | exact Hx2].
    + apply String.leb_antisym; assumption.
  - exact Hsorted.
  - apply sort_by_Sorted.
  - rewrite sort_by_Permutation. exact Hperm.
Qed.

(** The sort of the code model is the sort that pandas runs, on frames
    of at most 17 rows and on frames whose keys are pairwise
    different. *)
Lemma np_sort_by_model {A} (key : A -> string) l :
  (length l <= 17)%nat \/ (NoDup (map key l) /\ heapsort_sorts) ->
  np_sort_by key l = Some (sort_by key l).
Proof.
  intros [Hshort | [Hnd Hheap]].
  - apply np_sort_by_short. exact Hshort.
  - destruct (np_sort_by_sorts key l Hheap) as (sorted & -> & Hs & Hp).
    f_equal. apply sorted_order_unique; assumption.
Qed.

(** C8, for histories of at most 17 entries and for histories with
    pairwise different months.  Take a history of three or more
    entries that has at most 17 entries or pairwise different months
    (in the latter case NumPy's heapsort is taken to sort).  Then the
    sort that [sort_values] runs returns the order in which
    [predict_expenses] reads the history, returns that order again when
    it is run on it, and returns a history that was in month order
    already as it was; and the feature vector built from the sorted
    history is the one built from the history as given.  With pairwise
    different months that order is moreover what any sort by month
    returns: the only arrangement of the entries in ascending month
    order. *)
Theorem C8_feature_building_idempotent h :
  (3 <= length h)%nat ->
  ((length h <= 17)%nat \/ (NoDup (map month h) /\ heapsort_sorts) ->
   np_sort_by month h = Some (sort_history h) /\
   np_sort_by month (sort_history h) = Some (sort_history h) /\
   (Sorted (key_le month) h -> np_sort_by month h = Some h) /\
   feature_vector (sort_history h) = feature_vector h) /\
  (NoDup (map month h) ->
   forall sorted,
     Sorted (key_le month) sorted -> sorted ≡ₚ h ->
     sorted = sort_history h).
Proof.
  intros _. split.
  - intros Hdomain.
    assert (Hfirst : np_sort_by month h = Some (sort_history h))
      by (apply np_sort_by_model; exact Hdomain).
    split; [exact Hfirst |]. split; [| split].
    + unfold sort_history at 1 2.
      rewrite <- (sort_by_idempotent month h) at 2.
      apply np_sort_by_model.
      destruct Hdomain as [Hshort | [Hnd Hheap]].
      * left. rewrite sort_by_length. exact Hshort.
      * right. split; [| exact Hheap].
        rewrite (sort_by_Permutation month h). exact Hnd.
    + intros Hh. rewrite Hfirst. unfold sort_history.
      rewrite (sort_by_sorted month h Hh). reflexivity.
    + apply feature_vector_sort_history.
  - intros Hnd sorted Hsorted Hperm.
    apply sorted_order_unique; assumption.
Qed.

(** X2.  For each of the eight categories, active or not, the feature
    vector of a history of three or more entries holds the coerced
    amounts of the three latest entries in month order: lag1 is the
    latest, lag2 the one before, lag3 the third latest, and
    rolling_avg_3 is the mean of the three.  The three latest entries
    are the last three that the sort of [sort_values] returns, and the
    history has at most 17 entries or pairwise different months (in
    the latter case NumPy's heapsort is taken to sort). *)
Theorem lag_features_are_latest_months h cat
    (older : list MonthlyRecord) (r3 r2 r1 : MonthlyRecord) :
  In cat EXPENSE_CATEGORIES ->
  (length h <= 17)%nat \/ (NoDup (map month h) /\ heapsort_sorts) ->
  np_sort_by month h = Some (older ++ [r3; r2; r1])%list ->
  forall features,
    feature_vector h = Returned features ->
    features !! (cat +:+ "_lag1") = Some (coerced_amount cat r1) /\
    features !! (cat +:+ "_lag2") = Some (coerced_amount cat r2) /\
    features !! (cat +:+ "_lag3") = Some (coerced_amount cat r3) /\
    features !! (cat +:+ "_rolling_avg_3")
      = Some (mean [coerced_amount cat r3; coerced_amount cat r2;
                    coerced_amount cat r1]).
Proof.
  intros Hcat Hdomain Hnp features Hfv.
  apply (lag_features_of_sort_history h cat older r3 r2 r1 Hcat); [| exact Hfv].
  rewrite (np_sort_by_model month h Hdomain) in Hnp.
  injection Hnp as Hnp. exact Hnp.
Qed.

End MonthOrder.

(** ** What the sort of line 85 returns *)

Section SortValues.
Context `{Numpy}.

(** X20.  The sort that [sort_values] runs (NumPy's quicksort, with a
    heapsort that sorts) returns, for rows of any number and any keys:
    the same rows, in ascending key order.  On at most 17 rows, and on
    rows whose keys are pairwise different, the order is the one of the
    stable sort by which [predict_expenses] is modelled. *)
Theorem sort_values_sorts {A} (key : A -> string) (l : list A) :
  heapsort_sorts ->
  exists sorted,
    np_sort_by key l = Some sorted /\
    Sorted (key_le key) sorted /\
    sorted ≡ₚ l /\
    ((length l <= 17)%nat \/ NoDup (map key l) -> sorted = sort_by key l).
Proof.
  intros Hheap.
  destruct (np_sort_by_sorts key l Hheap) as (sorted & Hrun & Hs & Hp).
  exists sorted. split; [exact Hrun |]. split; [exact Hs |].
  split; [exact Hp |].
  intros Hdomain.
  assert (Hmodel : np_sort_by key l = Some (sort_by key l)).
  { apply np_sort_by_model. destruct Hdomain as [Hshort | Hnd]; auto. }
  rewrite Hrun in Hmodel. injection Hmodel as Hmodel. exact Hmodel.
Qed.

End SortValues.

Lemma sample_heapsort_sorts : heapsort_sorts.
Proof.
  intros keys pl pr a Hle Hlen. apply insertion_sort_range; assumption.
Defined.

Lemma C8_witness :
  (np_sort_by month Sample.groceries_2024 = Some Demo.in_month_order /\
   np_sort_by month Demo.in_month_order = Some Demo.in_month_order /\
   feature_vector Demo.in_month_order
     = feature_vector Sample.groceries_2024) /\
  (np_sort_by month Demo.two_years = Some Demo.two_years_in_month_order /\
   np_sort_by month Demo.two_years_in_month_order
     = Some Demo.two_years_in_month_order /\
   feature_vector Demo.two_years_in_month_order
     = feature_vector Demo.two_years).
Proof.
  assert (Hgroceries : sort_history Sample.groceries_2024
                       = Demo.in_month_order) by (vm_compute; reflexivity).
  assert (Htwo : sort_history Demo.two_years
                 = Demo.two_years_in_month_order)
    by (vm_compute; reflexivity).
  destruct (C8_feature_building_idempotent Sample.groceries_2024)
    as (Hshort & _); [vm_compute; lia |].
  destruct (C8_feature_building_idempotent Demo.in_month_order)
    as (Hshort' & _); [vm_compute; lia |].
  destruct (C8_feature_building_idempotent Demo.two_years)
    as (Hlong & _); [vm_compute; lia |].
  destruct (Hshort ltac:(left; vm_compute; lia)) as (Hnp & _ & _ & Hfv).
  destruct (Hshort' ltac:(left; vm_compute; lia)) as (_ & _ & Hfix & _).
  destruct Hlong as (Hnp2 & Hagain2 & _ & Hfv2).
  { right. split; [| exact sample_heapsort_sorts].
    apply (bool_decide_unpack (NoDup (map month Demo.two_years))).
    vm_compute. exact I. }
  rewrite Hgroceries in Hnp, Hfv. rewrite Htwo in Hnp2, Hagain2, Hfv2.
  split.
  - split; [exact Hnp |]. split; [| exact Hfv].
    apply Hfix. repeat constructor.
  - split; [exact Hnp2 |]. split; [exact Hagain2 | exact Hfv2].
Defined.

(** Twenty entries of one month, in month order as they are: the sort
    that [sort_values] runs returns them in another order (whatever the
    heapsort, which is not reached), and the lag features are then read
    from the entries 2, 19 and 20 instead of 18, 19 and 20. *)
Lemma C8_counterexample :
  (3 <= length Demo.january)%nat /\
  Sorted (key_le month) Demo.january /\
  forall numpy : Numpy,
  exists resorted,
    np_sort_by month Demo.january = Some resorted /\
    resorted <> Demo.january /\
    map (coerced_amount "Groceries") resorted
      = [1; 18; 17; 16; 15; 14; 13; 12; 11; 10; 9; 8; 7; 6; 5; 4; 3; 2;
         19; 20] /\
    map (coerced_amount "Groceries") (tail3 Demo.january) = [18; 19; 20] /\
    map (coerced_amount "Groceries") (tail3 resorted) = [2; 19; 20].
Proof.
  split; [vm_compute; lia |]. split.
  - repeat (constructor; [| first [constructor; vm_compute; reflexivity
                                   | constructor ]]).
    constructor.
  - intros numpy. eexists. split; [vm_compute; reflexivity |].
    split; [| repeat split; vm_compute; reflexivity].
    intros Heq.
    apply (f_equal (fun l => map (coerced_amount "Groceries") l)) in Heq.
    vm_compute in Heq. discriminate Heq.
Qed.

(** ** Steady spending *)

Section Steady.
Context `{Pandas}.

Lemma Qsum_all_zero l : Forall (fun q => q == 0) l -> Qsum l == 0.
Proof.
  induction 1 as [| q l Hq _ IH]; simpl; [reflexivity |].
  rewrite Hq, IH. reflexivity.
Qed.

Lemma Qsum_constant a l :
  Forall (fun q => q == a) l ->
  Qsum l == inject_Z (Z.of_nat (length l)) * a.
Proof.
  induction 1 as [| q l Hq _ IH]; [simpl; ring |].
  cbn [Qsum fold_right]. fold (Qsum l). rewrite Hq, IH.
  cbn [length]. rewrite Nat2Z.inj_succ. unfold Z.succ.
  rewrite inject_Z_plus. ring.
Qed.

Lemma mean_constant a l :
  l <> [] -> Forall (fun q => q == a) l -> mean l == a.
Proof.
  intros Hne Hall. unfold mean. rewrite (Qsum_constant a l Hall).
  field. destruct l as [| q l]; [contradiction |].
  cbn [length]. rewrite Nat2Z.inj_succ. unfold Qeq; simpl. lia.
Qed.

Lemma coefficient_of_variation_constant a l :
  (forall q, q == 0 -> np_sqrt q == 0) ->
  l <> [] -> Forall (fun q => q == a) l ->
  coefficient_of_variation l == 0.
Proof.
  intros Hsqrt Hne Hall. unfold coefficient_of_variation, std.
  assert (Hzero : np_sqrt
            (Qsum (map (fun x => (x - mean l) * (x - mean l)) l)
             / inject_Z (Z.of_nat (length l) - 1)) == 0).
  { apply Hsqrt.
    assert (Hsum : Qsum (map (fun x => (x - mean l) * (x - mean l)) l) == 0).
    { apply Qsum_all_zero, Forall_forall. intros q Hq.
      apply list_elem_of_In, in_map_iff in Hq. destruct Hq as (x & <- & Hx).
      rewrite Forall_forall in Hall.
      rewrite (Hall x) by (apply list_elem_of_In, Hx).
      rewrite (mean_constant a l Hne); [ring | apply Forall_forall, Hall]. }
    rewrite Hsum. reflexivity. }
  rewrite Hzero. reflexivity.
Qed.

(** X5.  Provided the square root of zero is zero: when six or more
    entries are given, some category is active, and every active
    category has the same coerced amount in every entry, the returned
    confidence is "high". *)
Theorem steady_history_high_confidence md h r :
  (forall q, q == 0 -> np_sqrt q == 0) ->
  (6 <= length h)%nat ->
  active_categories h <> [] ->
  (forall cat, In cat (active_categories h) ->
     exists a, forall entry, In entry h -> coerced_amount cat entry == a) ->
  predict_expenses (Some md) h = Returned r ->
  dict_get "confidence" r = Some (PyStr "high").
Proof.
  intros Hsqrt Hlen Hact Hsteady Hret.
  rewrite (returned_confidence md h r) by (lia || exact Hret).
  destruct (Nat.leb_spec 6 (length h)) as [_ | Hlt]; [| lia].
  unfold average_cv.
  destruct (active_categories h) as [| c cats] eqn:Ecats; [contradiction |].
  do 2 f_equal. apply classify_cases.
  assert (Hcv : Forall (fun q => q == 0)
                  (map (history_cv h) (c :: cats))).
  { apply Forall_forall. intros q Hq.
    apply list_elem_of_In, in_map_iff in Hq. destruct Hq as (cat & <- & Hcat).
    destruct (Hsteady cat Hcat) as [a Ha].
    apply (coefficient_of_variation_constant a); [exact Hsqrt | |].
    - intros Hnil. apply (f_equal (@length Q)) in Hnil.
      rewrite length_map in Hnil. unfold sort_history in Hnil.
      rewrite sort_by_length in Hnil. simpl in Hnil. lia.
    - apply Forall_forall. intros q Hq.
      apply list_elem_of_In, in_map_iff in Hq. destruct Hq as (e & <- & He).
      apply Ha. eapply Permutation_in; [apply sort_by_Permutation | exact He]. }
  assert (Hmean : mean (map (history_cv h) (c :: cats)) == 0).
  { apply (mean_constant 0); [discriminate | exact Hcv]. }
  rewrite Hmean. reflexivity.
Qed.

End Steady.

(** * The [/api/predict] endpoint *)

Section RequestChecks.

Lemma check_entries_Passed history entries history' :
  check_entries history entries = Passed history' ->
  history' = history /\
  Forall (fun entry => py_in "month" entry = Some true) entries.
Proof.
  induction entries as [| entry entries IH]; simpl.
  - intros [= <-]. split; [reflexivity | constructor].
  - destruct (py_in "month" entry) as [[|] |] eqn:Ein; try discriminate.
    intros Hrest. destruct (IH Hrest) as [-> Hall].
    split; [reflexivity |]. constructor; assumption.
Qed.

Lemma stops_with_cons verdict entry entries :
  stops_with verdict (entry :: entries) <->
  py_in "month" entry = verdict
  \/ (py_in "month" entry = Some true /\ stops_with verdict entries).
Proof.
  split.
  - intros (i & e & Hi & He & Hbefore). destruct i as [| i].
    + left. injection Hi as ->. exact He.
    + right. split.
      * apply (Hbefore 0%nat entry); [lia | reflexivity].
      * exists i, e. split; [exact Hi |]. split; [exact He |].
        intros j e' Hj He'. apply (Hbefore (S j) e'); [lia | exact He'].
  - intros [Hhere | (Htrue & i & e & Hi & He & Hbefore)].
    + exists 0%nat, entry. split; [reflexivity |]. split; [exact Hhere |].
      intros j e Hj. lia.
    + exists (S i), e. split; [exact Hi |]. split; [exact He |].
      intros [| j] e' Hj He'.
      * injection He' as <-. exact Htrue.
      * apply (Hbefore j e'); [lia | exact He'].
Qed.

(** How the loop over the entries ends. *)
Lemma check_entries_spec history entries :
  ((exists error, check_entries history entries = Refused error)
   <-> stops_with (Some false) entries) /\
  (check_entries history entries = Crashed <-> stops_with None entries).
Proof.
  induction entries as [| entry entries [IHr IHc]].
  - split; split.
    + intros [error Herr]. discriminate Herr.
    + intros (i & e & Hi & _). rewrite lookup_nil in Hi. discriminate Hi.
    + discriminate.
    + intros (i & e & Hi & _). rewrite lookup_nil in Hi. discriminate Hi.
  - rewrite !stops_with_cons. cbn [check_entries].
    destruct (py_in "month" entry) as [[|] |].
    + rewrite IHr, IHc. split; split; try tauto.
      * intros [Hno | [_ Hstop]]; [discriminate Hno | exact Hstop].
      * intros [Hno | [_ Hstop]]; [discriminate Hno | exact Hstop].
    + split; split.
      * intros _. left. reflexivity.
      * intros _. eexists. reflexivity.
      * discriminate.
      * intros [Hno | [Hno _]]; discriminate Hno.
    + split; split.
      * intros [error Herr]. discriminate Herr.
      * intros [Hno | [Hno _]]; discriminate Hno.
      * intros _. left. reflexivity.
      * reflexivity.
Qed.

Lemma py_getitem_in key data value :
  py_getitem key data = Some value ->
  py_not data = false /\ py_in key data = Some true.
Proof.
  destruct data as [| b | q | s | elements | fields]; try discriminate.
  cbn [py_getitem py_in py_not].
  destruct (find (fun kv => String.eqb key (fst kv)) fields) as [kv |] eqn:Ef;
    [| discriminate].
  intros _. apply find_some in Ef. destruct Ef as [Hin Hkey].
  split.
  - destruct fields; [destruct Hin | reflexivity].
  - f_equal. apply existsb_exists. exists kv. auto.
Qed.

(** X6.  The request checks of the endpoint, on any JSON body.  The
    answer is 400 exactly when the body counts as false for Python,
    or ['history' in data] is false (a dict without the key, a string
    without the substring, a list without the element), or the body is
    a dict whose history is not a list, is the empty list, or is a list
    in which the first entry for which ['month' in entry] is not true
    is one for which it is false.  The checks raise, and the answer is
    500, exactly when the body does not count as false and
    ['history' in data] raises (a number or a boolean), or it holds but
    [data['history']] raises (a string or a list), or the history is a
    non-empty list in which the first entry for which
    ['month' in entry] is not true is one for which it raises (a
    number, a boolean or null). *)
Theorem predict_bad_request_iff data :
  ((exists error, check_request data = Refused error) <->
   py_not data = true
   \/ py_in "history" data = Some false
   \/ exists value,
        py_getitem "history" data = Some value /\
        match value with
        | JsArray entries => entries = [] \/ stops_with (Some false) entries
        | _ => True
        end) /\
  (check_request data = Crashed <->
   py_not data = false /\
   (py_in "history" data = None
    \/ (py_in "history" data = Some true /\ py_getitem "history" data = None)
    \/ exists entries,
         py_getitem "history" data = Some (JsArray entries) /\
         stops_with None entries)).
Proof.
  unfold check_request.
  destruct (py_not data) eqn:Enot.
  { split; split.
    - intros _. left. reflexivity.
    - intros _. eexists. reflexivity.
    - discriminate.
    - intros [Hno _]. discriminate Hno. }
  destruct (py_in "history" data) as [[|] |] eqn:Ein.
  - destruct (py_getitem "history" data) as [value |] eqn:Eget.
    + assert (Hentries : forall entries,
                value = JsArray entries -> entries <> [] ->
                ((exists error,
                    check_entries entries entries = Refused error)
                 <-> stops_with (Some false) entries) /\
                (check_entries entries entries = Crashed
                 <-> stops_with None entries))
        by (intros entries _ _; apply check_entries_spec).
      destruct value as [| b | q | s | entries | fields];
        try (split; split;
             [ intros _; right; right; eexists; split; [reflexivity | exact I]
             | intros _; eexists; reflexivity
             | discriminate
             | intros (_ & [Hno | [[_ Hno] | (entries & Hno & _)]]);
               discriminate Hno ]).
      destruct entries as [| entry entries].
      * split; split.
        -- intros _. right. right. eexists. split; [reflexivity |].
           left. reflexivity.
        -- intros _. eexists. reflexivity.
        -- discriminate.
        -- intros (_ & [Hno | [[_ Hno] | (entries & Hsome & Hstop)]]);
             try discriminate Hno.
           injection Hsome as <-.
           destruct Hstop as (i & e & Hi & _).
           rewrite lookup_nil in Hi. discriminate Hi.
      * destruct (Hentries (entry :: entries) eq_refl) as [Hr Hc];
          [discriminate |].
        split; split.
        -- intros Herr. right. right. eexists. split; [reflexivity |].
           right. apply Hr, Herr.
        -- intros [Hno | [Hno | (value & Hsome & Hvalue)]];
             try discriminate Hno.
           injection Hsome as <-.
           destruct Hvalue as [Hnil | Hstop]; [discriminate Hnil |].
           apply Hr, Hstop.
        -- intros Hcrash. split; [reflexivity |]. right. right.
           eexists. split; [reflexivity |]. apply Hc, Hcrash.
        -- intros (_ & [Hno | [[_ Hno] | (entries' & Hsome & Hstop)]]);
             try discriminate Hno.
           injection Hsome as <-. apply Hc, Hstop.
    + split; split.
      * intros [error Herr]. discriminate Herr.
      * intros [Hno | [Hno | (value & Hsome & _)]]; discriminate.
      * intros _. split; [reflexivity |]. right. left. auto.
      * reflexivity.
  - split; split.
    + intros _. right. left. reflexivity.
    + intros _. eexists. reflexivity.
    + discriminate.
    + intros (_ & [Hno | [[Hno _] | (entries & Hsome & _)]]);
        try discriminate Hno.
      apply py_getitem_in in Hsome. destruct Hsome as [_ Hyes].
      congruence.
  - split; split.
    + intros [error Herr]. discriminate Herr.
    + intros [Hno | [Hno | (value & Hsome & _)]]; try discriminate Hno.
      apply py_getitem_in in Hsome. destruct Hsome as [_ Hyes].
      congruence.
    + intros _. split; [reflexivity |]. left. reflexivity.
    + reflexivity.
Qed.

(** On the typed items the general checks are [validate_history]. *)
Lemma py_in_item_json item :
  py_in "month" (item_json item)
  = Some (match item_month item with Some _ => true | None => false end).
Proof.
  unfold item_json, py_in. f_equal.
  destruct (item_month item) as [m |]; [reflexivity |].
  cbn [app]. apply not_true_is_false. intros Hex.
  apply existsb_exists in Hex. destruct Hex as ([k v] & Hin & Hk).
  apply String.eqb_eq in Hk. cbn [fst] in Hk. subst k.
  apply in_map_iff in Hin. destruct Hin as ([k' v'] & [= <- _] & Hin).
  apply list_elem_of_In, elem_of_map_to_list in Hin.
  rewrite lookup_delete_eq in Hin. discriminate Hin.
Qed.

Lemma check_entries_typed history items :
  check_entries history (map item_json items)
  = match validate_history items with
    | Some _ => Passed history
    | None => Refused "Each history entry must have a month field"
    end.
Proof.
  induction items as [| item items IH]; [reflexivity |].
  cbn [map check_entries validate_history].
  rewrite py_in_item_json.
  destruct (item_month item) as [m |]; [| reflexivity].
  rewrite IH. destruct (validate_history items); reflexivity.
Qed.

(** The endpoint model on typed requests refuses a history exactly
    when the general checks refuse the JSON body that it stands for,
    and with the same message; the general checks never raise there. *)
Lemma predict_typed_checks `{Pandas} model_data items error :
  predict model_data (Body (HistoryList items)) = BadRequest400 error
  <-> check_request (JsObject [("history", JsArray (map item_json items))])
      = Refused error.
Proof.
  assert (Hcheck : check_request
                     (JsObject [("history", JsArray (map item_json items))])
                   = match items with
                     | [] => Refused "History must be a non-empty list"
                     | _ => check_entries (map item_json items)
                              (map item_json items)
                     end)
    by (destruct items; reflexivity).
  rewrite Hcheck, check_entries_typed. unfold predict.
  destruct items as [| item items]; [split; congruence |].
  destruct (validate_history (item :: items)) as [history |].
  - destruct (predict_expenses model_data history); split; discriminate.
  - split; congruence.
Qed.

End RequestChecks.

(** An item that is a string passes the check of line 188 when the
    word occurs in it. *)
Lemma text_item_passes :
  check_request Demo.with_text = Passed [JsString "a month ago"].
Proof. reflexivity. Qed.

Section PredictEndpoint.
Context `{Pandas}.

Lemma validate_history_Some items :
  Forall (fun item => is_Some (item_month item)) items ->
  exists history,
    validate_history items = Some history /\
    length history = length items.
Proof.
  induction 1 as [| item items [m Hm] _ (history & Hv & Hlen)]; simpl.
  - exists []. auto.
  - rewrite Hm, Hv. simpl. eexists. split; [reflexivity |].
    simpl. congruence.
Qed.

(** X7.  For a request whose history is a non-empty list of items
    that all have a month: without a loaded model the answer is 500
    with "Model not loaded", whatever the history; with a model and one
    or two items the answer is 200 with the insufficient-history
    result. *)
Theorem predict_well_formed_request items :
  items <> [] ->
  Forall (fun item => is_Some (item_month item)) items ->
  predict None (Body (HistoryList items))
    = ServerError500 (RuntimeError "Model not loaded") /\
  forall md,
    (length items < 3)%nat ->
    predict (Some md) (Body (HistoryList items))
      = Ok200 insufficient_history_result.
Proof.
  intros Hne Hall.
  destruct (validate_history_Some items Hall) as (history & Hv & Hlen).
  destruct items as [| item items]; [contradiction |].
  unfold predict. rewrite Hv. split; [reflexivity |].
  intros md Hshort. rewrite predict_expenses_short by lia. reflexivity.
Qed.

End PredictEndpoint.

(** * The [/api/recommendations] endpoint *)

Section Recommendations.

Lemma budget_recommendations_length total budget :
  (length (budget_recommendations total budget) <= 1)%nat.
Proof.
  unfold budget_recommendations.
  repeat (destruct (decide _)); simpl; lia.
Qed.

(** X8.  Every report ends with the general tip and has between one
    and three recommendations: the guard "fewer than three" of line 266
    never fails. *)
Theorem report_ends_with_general_tip data report :
  get_recommendations data = RecOk200 report ->
  last (recommendations report) = Some general_tip /\
  (1 <= length (recommendations report) <= 3)%nat.
Proof.
  unfold get_recommendations.
  destruct data as [| [predictions |] budget]; try discriminate.
  set (total := py_sum (map snd predictions)).
  set (recs := budget_recommendations total (default 2000 budget)).
  pose proof (budget_recommendations_length total (default 2000 budget))
    as Hlen. fold recs in Hlen.
  assert (Hfinish : forall rs r,
            (length rs <= 2)%nat ->
            (if (length rs <? 3)%nat then (rs ++ [general_tip])%list else rs)
              = r ->
            last r = Some general_tip /\ (1 <= length r <= 3)%nat).
  { intros rs r Hrs <-.
    destruct (Nat.ltb_spec (length rs) 3) as [_ | Hge]; [| lia].
    rewrite last_snoc, length_app. split; [reflexivity | simpl; lia]. }
  cbv zeta.
  destruct (high_categories predictions) as [| [top_category top_amount] rest].
  - intros Hret. injection Hret as <-. cbn [recommendations].
    apply (Hfinish recs); [lia | reflexivity].
  - destruct (Qeq_bool total 0); [discriminate |].
    destruct (decide (30 < top_amount / total * 100));
      intros Hret; injection Hret as <-; cbn [recommendations].
    + eapply Hfinish; [| reflexivity]. rewrite length_app. simpl. lia.
    + apply (Hfinish recs); [lia | reflexivity].
Qed.

End Recommendations.

Section RecommendationReports.

Lemma insert_desc_Permutation x l : insert_desc x l ≡ₚ x :: l.
Proof.
  induction l as [| y l IH]; simpl; [reflexivity |].
  destruct (Qle_bool (snd y) (snd x)); [reflexivity |].
  rewrite IH. apply Permutation_swap.
Qed.

Lemma sort_desc_Permutation l : sort_desc l ≡ₚ l.
Proof.
  induction l as [| x l IH]; simpl; [reflexivity |].
  rewrite insert_desc_Permutation, IH. reflexivity.
Qed.

(** The first element of the sorted list has the largest amount. *)
Lemma sort_desc_head l x rest :
  sort_desc l = x :: rest ->
  In x l /\ forall y, In y l -> snd y <= snd x.
Proof.
  revert x rest. induction l as [| a l IH]; intros x rest Hs; [discriminate |].
  simpl in Hs. destruct (sort_desc l) as [| y s] eqn:Es.
  - assert (Hl : l = []).
    { apply Permutation_nil. rewrite <- Es. apply sort_desc_Permutation. }
    subst l. simpl in Hs. injection Hs as <- <-.
    split; [left; reflexivity |]. intros z [<- | []]. apply Qle_refl.
  - destruct (IH y s eq_refl) as [Hy Hmax]. simpl in Hs.
    destruct (Qle_bool (snd y) (snd a)) eqn:Ele.
    + injection Hs as <- <-. apply Qle_bool_iff in Ele.
      split; [left; reflexivity |]. intros z [<- | Hz]; [apply Qle_refl |].
      eapply Qle_trans; [apply Hmax, Hz | exact Ele].
    + injection Hs as <- <-. split; [right; exact Hy |].
      intros z [<- | Hz]; [| apply Hmax, Hz].
      apply Qlt_le_weak, Qnot_le_lt. intros Hle.
      apply Qle_bool_iff in Hle. congruence.
Qed.

Lemma In_high_categories predictions kv :
  In kv (high_categories predictions) <-> In kv predictions /\ ranked kv.
Proof.
  unfold high_categories, ranked.
  transitivity
    (In kv (List.filter
              (fun kv => negb (Qle_bool (snd kv) 0)
                         && negb (String.eqb (fst kv) "total"))
              predictions)).
  { split; apply Permutation_in;
      [| symmetry]; apply sort_desc_Permutation. }
  rewrite filter_In, andb_true_iff, !negb_true_iff.
  assert (Hpos : Qle_bool (snd kv) 0 = false <-> 0 < snd kv).
  { rewrite <- not_true_iff_false, Qle_bool_iff. split.
    - apply Qnot_le_lt.
    - intros Hlt Hle. apply (Qlt_not_le _ _ Hlt Hle). }
  assert (Hkey : String.eqb (fst kv) "total" = false <-> fst kv <> "total")
    by apply String.eqb_neq.
  tauto.
Qed.

(** What a report is made of. *)
Lemma report_shape predictions budget report :
  get_recommendations (RecBody (Some predictions) budget) = RecOk200 report ->
  let total := py_sum (map snd predictions) in
  let current_budget := default 2000 budget in
  predicted_total report = round2 total /\
  budget_difference report = round2 (current_budget - total) /\
  savings_potential report = round2 (max0 (current_budget - total)) /\
  recommendations report
    = (budget_recommendations total current_budget
       ++ match high_categories predictions with
          | [] => []
          | (top_category, top_amount) :: _ =>
              if decide (30 < top_amount / total * 100)
              then [category_tip top_category (top_amount / total * 100)]
              else []
          end
       ++ [general_tip])%list.
Proof.
  unfold get_recommendations. cbv zeta.
  set (total := py_sum (map snd predictions)).
  set (recs := budget_recommendations total (default 2000 budget)).
  pose proof (budget_recommendations_length total (default 2000 budget))
    as Hlen. fold recs in Hlen.
  destruct (high_categories predictions) as [| [top_category top_amount] rest].
  - destruct (Nat.ltb_spec (length recs) 3) as [_ | Hge]; [| lia].
    intros Hret. injection Hret as <-. repeat split.
  - destruct (Qeq_bool total 0); [discriminate |].
    destruct (decide (30 < top_amount / total * 100)).
    + destruct (Nat.ltb_spec
                  (length (recs ++ [category_tip top_category
                                      (top_amount / total * 100)])) 3)
        as [_ | Hge]; [| rewrite length_app in Hge; simpl in Hge; lia].
      intros Hret. injection Hret as <-. repeat split.
      cbn [recommendations]. rewrite <- app_assoc. reflexivity.
    + destruct (Nat.ltb_spec (length recs) 3) as [_ | Hge]; [| lia].
      intros Hret. injection Hret as <-. repeat split.
Qed.

(** X9.  The endpoint fails with a division by zero (status 500)
    exactly when the amounts sum to zero while some key other than
    ['total'] has a positive amount. *)
Theorem recommendations_zero_division_iff predictions budget :
  get_recommendations (RecBody (Some predictions) budget) = RecZeroDivision500
  <->
  py_sum (map snd predictions) == 0 /\
  exists kv, In kv predictions /\ ranked kv.
Proof.
  unfold get_recommendations. cbv zeta.
  destruct (high_categories predictions) as [| [c a] rest] eqn:Ehigh.
  - split.
    + destruct (_ <? 3)%nat; discriminate.
    + intros (_ & kv & Hkv). apply In_high_categories in Hkv.
      rewrite Ehigh in Hkv. destruct Hkv.
  - assert (Hex : exists kv, In kv predictions /\ ranked kv).
    { exists (c, a). apply In_high_categories. rewrite Ehigh. left.
      reflexivity. }
    destruct (Qeq_bool (py_sum (map snd predictions)) 0) eqn:Ez.
    + apply Qeq_bool_iff in Ez. tauto.
    + split.
      * destruct (decide _); destruct (_ <? 3)%nat; discriminate.
      * intros [Hzero _]. apply Qeq_bool_iff in Hzero. congruence.
Qed.

(** X10.  In a report, a "warning" is given exactly when the amounts
    sum to more than the budget (2000 when the request names none), and
    a "success" exactly when they sum to less than 70% of the budget
    and not to more than the budget; no report has both. *)
Theorem budget_message_iff predictions budget report :
  get_recommendations (RecBody (Some predictions) budget) = RecOk200 report ->
  let total := py_sum (map snd predictions) in
  let current_budget := default 2000 budget in
  ((exists r, In r (recommendations report) /\ rec_type r = "warning")
   <-> current_budget < total) /\
  ((exists r, In r (recommendations report) /\ rec_type r = "success")
   <-> ~ current_budget < total /\ total < current_budget * (7 # 10)).
Proof.
  intros Hret. destruct (report_shape _ _ _ Hret) as (_ & _ & _ & Hrecs).
  cbv zeta. rewrite Hrecs. clear Hrecs Hret.
  set (total := py_sum (map snd predictions)).
  set (b := default 2000 budget).
  assert (Htips : forall r ty,
            In r (match high_categories predictions with
                  | [] => []
                  | (top_category, top_amount) :: _ =>
                      if decide (30 < top_amount / total * 100)
                      then [category_tip top_category
                              (top_amount / total * 100)]
                      else []
                  end ++ [general_tip])%list ->
            rec_type r = ty -> ty = "tip").
  { intros r ty Hin <-. apply in_app_iff in Hin.
    destruct Hin as [Hin | [<- | []]]; [| reflexivity].
    destruct (high_categories predictions) as [| [c a] rest]; [destruct Hin |].
    destruct (decide _); [| destruct Hin].
    destruct Hin as [<- | []]. reflexivity. }
  unfold budget_recommendations.
  destruct (decide (b < total)) as [Hover | Hover];
    [| destruct (decide (total < b * (7 # 10))) as [Hunder | Hunder]];
    split; split;
    try (intros (r & Hin & Hty); apply in_app_iff in Hin;
         destruct Hin as [Hin | Hin];
         [try destruct Hin as [<- | []]; try destruct Hin;
          try discriminate Hty; try tauto
         | apply (Htips r _ Hin) in Hty; discriminate Hty]);
    try tauto.
  - intros _. eexists. split; [left; reflexivity | reflexivity].
  - intros _. eexists. split; [left; reflexivity | reflexivity].
Qed.

End RecommendationReports.

Section ReportFigures.

Lemma round_half_even_bounds q :
  (Qfloor q <= round_half_even q <= Qfloor q + 1)%Z.
Proof.
  unfold round_half_even.
  destruct (Qle_bool _ _); [destruct (Qeq_bool _ _);
                             [destruct (Z.even _) |] |]; lia.
Qed.

Lemma round_half_even_nonneg q : 0 <= q -> (0 <= round_half_even q)%Z.
Proof.
  intros Hq. pose proof (round_half_even_bounds q) as [Hlo _].
  assert (0 <= Qfloor q)%Z; [| lia].
  change 0%Z with (Qfloor 0). apply Qfloor_resp_le, Hq.
Qed.

Lemma round_half_even_nonpos q : q <= 0 -> (round_half_even q <= 0)%Z.
Proof.
  intros Hq. pose proof (round_half_even_bounds q) as [_ Hhi].
  assert (Hf : (Qfloor q <= 0)%Z)
    by (change 0%Z with (Qfloor 0); apply Qfloor_resp_le, Hq).
  destruct (Z.eq_dec (Qfloor q) 0%Z) as [Hzero | Hneg]; [| lia].
  assert (Hq0 : q == 0).
  { apply Qle_antisym; [exact Hq |].
    pose proof (Qfloor_le q) as Hfl. rewrite Hzero in Hfl. exact Hfl. }
  rewrite (round_half_even_integer q 0%Z); [lia | exact Hq0].
Qed.

Lemma round2_nonneg q : 0 <= q -> 0 <= round2 q.
Proof.
  intros Hq. unfold round2.
  assert (Hn : (0 <= round_half_even (q * 100))%Z).
  { apply round_half_even_nonneg. nra. }
  unfold Qle; simpl. lia.
Qed.

Lemma round2_nonpos q : q <= 0 -> round2 q <= 0.
Proof.
  intros Hq. unfold round2.
  assert (Hn : (round_half_even (q * 100) <= 0)%Z).
  { apply round_half_even_nonpos. nra. }
  unfold Qle; simpl. lia.
Qed.

(** Flooring at 0 and rounding to cents commute. *)
Lemma round2_max0 q : round2 (max0 q) == max0 (round2 q).
Proof.
  unfold max0 at 1. destruct (Qle_bool q 0) eqn:Eq.
  - apply Qle_bool_iff in Eq. apply round2_nonpos in Eq.
    unfold max0. apply Qle_bool_iff in Eq. rewrite Eq. reflexivity.
  - assert (Hpos : 0 <= q).
    { apply Qlt_le_weak, Qnot_le_lt. intros Hle.
      apply Qle_bool_iff in Hle. congruence. }
    apply round2_nonneg in Hpos. unfold max0.
    destruct (Qle_bool (round2 q) 0) eqn:Er; [| reflexivity].
    apply Qle_bool_iff in Er. apply Qle_antisym; assumption.
Qed.

(** X11.  In a report the savings potential is the reported budget
    difference floored at 0 (flooring and rounding to cents commute), so
    it is never negative. *)
Theorem savings_potential_is_floored_difference predictions budget report :
  get_recommendations (RecBody (Some predictions) budget) = RecOk200 report ->
  savings_potential report == max0 (budget_difference report) /\
  0 <= savings_potential report.
Proof.
  intros Hret. destruct (report_shape _ _ _ Hret) as (_ & Hdiff & Hsav & _).
  rewrite Hsav, Hdiff. split; [apply round2_max0 |].
  apply round2_nonneg, max0_nonneg.
Qed.

(** X12.  When some key other than ['total'] has a positive amount, a
    report names at most one category in a tip: one with the largest
    amount among the keys other than ['total'], and it does so exactly
    when that amount is more than 30% of the sum of all amounts. *)
Theorem category_tip_names_largest predictions budget report :
  get_recommendations (RecBody (Some predictions) budget) = RecOk200 report ->
  (exists kv, In kv predictions /\ ranked kv) ->
  let total := py_sum (map snd predictions) in
  exists top_category top_amount,
    In (top_category, top_amount) predictions /\
    ranked (top_category, top_amount) /\
    (forall kv, In kv predictions -> fst kv <> "total" ->
                snd kv <= top_amount) /\
    (In (category_tip top_category (top_amount / total * 100))
        (recommendations report)
     <-> 30 < top_amount / total * 100) /\
    (forall r, In r (recommendations report) ->
       r = general_tip
       \/ r = category_tip top_category (top_amount / total * 100)
       \/ In r (budget_recommendations total (default 2000 budget))).
Proof.
  intros Hret (kv0 & Hkv0) total.
  destruct (report_shape _ _ _ Hret) as (_ & _ & _ & Hrecs).
  fold total in Hrecs. rewrite Hrecs. clear Hrecs Hret.
  apply In_high_categories in Hkv0.
  destruct (high_categories predictions) as [| [c a] rest] eqn:Ehigh;
    [destruct Hkv0 |].
  assert (Htop : In (c, a) (high_categories predictions))
    by (rewrite Ehigh; left; reflexivity).
  apply In_high_categories in Htop. destruct Htop as [Hin Hranked].
  exists c, a. split; [exact Hin |]. split; [exact Hranked |]. split.
  { intros kv Hkv Hkey.
    destruct (decide (0 < snd kv)) as [Hpos | Hneg].
    - unfold high_categories in Ehigh.
      apply sort_desc_head in Ehigh. destruct Ehigh as [_ Hmax].
      apply (Hmax kv). apply filter_In. split; [exact Hkv |].
      apply andb_true_iff. split; apply negb_true_iff.
      + apply not_true_iff_false. intros Hle. apply Qle_bool_iff in Hle.
        apply (Qlt_not_le _ _ Hpos Hle).
      + apply String.eqb_neq, Hkey.
    - apply Qnot_lt_le in Hneg. destruct Hranked as [Ha _]. simpl in Ha.
      apply Qlt_le_weak. eapply Qle_lt_trans; [exact Hneg | exact Ha]. }
  assert (Hbudget : forall r,
            In r (budget_recommendations total (default 2000 budget)) ->
            rec_type r <> "tip").
  { intros r. unfold budget_recommendations.
    repeat (destruct (decide _)); intros [<- | []] || intros []; discriminate. }
  split.
  - destruct (decide (30 < a / total * 100)) as [Hbig | Hsmall].
    + split; [intros _; exact Hbig |]. intros _.
      apply in_app_iff. right. left. reflexivity.
    + split; [| intros Hbig; contradiction]. intros Htip. exfalso.
      apply in_app_iff in Htip. destruct Htip as [Htip | [Htip | []]].
      * apply (Hbudget _ Htip). reflexivity.
      * apply (f_equal rec_action) in Htip. discriminate Htip.
  - intros r Hr. apply in_app_iff in Hr. destruct Hr as [Hr | Hr]; [auto |].
    destruct (decide (30 < a / total * 100)).
    + destruct Hr as [<- | [<- | []]]; auto.
    + destruct Hr as [<- | []]; auto.
Qed.

End ReportFigures.

(** * train_model.py *)

Section Trainer.
Context `{Pandas}.

Lemma feature_cols_trained_labels :
  Forall trained_label (feature_cols EXPENSE_CATEGORIES).
Proof.
  unfold feature_cols. constructor; [left; reflexivity |].
  apply Forall_forall. intros k Hk. apply list_elem_of_In, in_flat_map in Hk.
  destruct Hk as (category & Hcat & Hk). right. exists category. auto.
Qed.

Lemma train_fields fit self :
  self_feature_columns (train fit self)
    = Some (feature_cols (self_categories self)) /\
  self_categories (train fit self) = self_categories self /\
  forall c, In c (self_categories self) ->
    self_scalers (train fit self) !! c = Some (fst (fit c)) /\
    self_models (train fit self) !! c = Some (snd (fit c)).
Proof.
  unfold train.
  set (start := {| self_models := self_models self;
                   self_scalers := self_scalers self;
                   self_feature_columns :=
                     Some (feature_cols (self_categories self));
                   self_categories := self_categories self |}).
  assert (Hgen : forall cats p,
    let q := fold_left
      (fun p category =>
         {| self_models := <[category := snd (fit category)]> (self_models p);
            self_scalers := <[category := fst (fit category)]> (self_scalers p);
            self_feature_columns := self_feature_columns p;
            self_categories := self_categories p |}) cats p in
    self_feature_columns q = self_feature_columns p /\
    self_categories q = self_categories p /\
    forall c,
      (In c cats \/
       (self_scalers p !! c = Some (fst (fit c)) /\
        self_models p !! c = Some (snd (fit c)))) ->
      self_scalers q !! c = Some (fst (fit c)) /\
      self_models q !! c = Some (snd (fit c))).
  { induction cats as [| a cats IH]; intros p; cbn [fold_left].
    - split; [reflexivity |]. split; [reflexivity |].
      intros c [[] | Hc]. exact Hc.
    - destruct (IH {| self_models := <[a := snd (fit a)]> (self_models p);
                      self_scalers := <[a := fst (fit a)]> (self_scalers p);
                      self_feature_columns := self_feature_columns p;
                      self_categories := self_categories p |})
        as (Hcols & Hcats & Hbank).
      split; [exact Hcols |]. split; [exact Hcats |].
      intros c Hc. apply Hbank. cbn [self_models self_scalers].
      destruct (decide (a = c)) as [-> | Hne].
      + right. rewrite !lookup_insert_eq. auto.
      + destruct Hc as [[-> | Hc] | Hc]; [contradiction | left; exact Hc |].
        right. rewrite !lookup_insert_ne by exact Hne. exact Hc. }
  destruct (Hgen (self_categories self) start) as (Hcols & Hcats & Hbank).
  split; [exact Hcols |]. split; [exact Hcats |].
  intros c Hc. apply Hbank. left. exact Hc.
Qed.

(** X13.  A predictor trained from scratch and saved gives a bank that
    the server accepts: for every history of three or more entries
    whose latest month [pd.to_datetime] reads, [predict_expenses]
    returns; no feature column and no category is missing. *)
Theorem trained_bank_is_served fit h last_month :
  (3 <= length h)%nat ->
  last (map month (sort_history h)) = Some last_month ->
  is_Some (to_datetime last_month) ->
  exists md r,
    saved_model_data (train fit new_predictor) = Some md /\
    feature_columns md = feature_cols EXPENSE_CATEGORIES /\
    predict_expenses (Some md) h = Returned r.
Proof.
  intros Hlen Hlast [d Hd].
  destruct (train_fields fit new_predictor) as (Hcols & _ & Hbank).
  unfold saved_model_data. rewrite Hcols. cbn [self_categories new_predictor].
  eexists.
  destruct (predict_expenses_returns
              {| feature_columns := feature_cols EXPENSE_CATEGORIES;
                 scalers := self_scalers (train fit new_predictor);
                 models := self_models (train fit new_predictor) |}
              h last_month d Hlen Hlast Hd) as [r Hr].
  - apply feature_cols_trained_labels.
  - intros c Hc _. cbn [scalers models].
    destruct (Hbank c Hc) as [-> ->]. split; eexists; reflexivity.
  - exists r. split; [reflexivity |]. split; [reflexivity | exact Hr].
Qed.

End Trainer.

Section PredictNextMonth.
Context `{Pandas}.

Lemma dict_set_fresh key value d :
  ~ In key (map fst d) -> dict_set key value d = (d ++ [(key, value)])%list.
Proof.
  induction d as [| [k v] d IH]; intros Hfresh; [reflexivity |].
  simpl in *. destruct (String.eqb_spec k key) as [-> | Hne].
  - exfalso. apply Hfresh. left. reflexivity.
  - rewrite IH by (intros Hin; apply Hfresh; right; exact Hin). reflexivity.
Qed.

Lemma fold_left_Qplus l : forall a, fold_left Qplus l a == a + Qsum l.
Proof.
  induction l as [| x l IH]; intros a; simpl; [ring |].
  rewrite IH. ring.
Qed.

Lemma py_sum_Qsum l : py_sum l == Qsum l.
Proof. unfold py_sum. rewrite fold_left_Qplus. ring. Qed.

Lemma predict_all_spec self X cats : forall acc d,
  NoDup (map fst acc ++ cats) ->
  predict_all self X cats acc = inr d ->
  exists ps, d = (acc ++ ps)%list /\ Forall2 (predicted_by self X) cats ps.
Proof.
  induction cats as [| c cats IH]; intros acc d Hnd Hret; simpl in Hret.
  - injection Hret as <-. exists []. rewrite app_nil_r. split; constructor.
  - destruct (self_scalers self !! c) as [sc |] eqn:Esc; [| discriminate].
    destruct (self_models self !! c) as [m |] eqn:Em; [| discriminate].
    assert (Hfresh : ~ In c (map fst acc)).
    { intros Hin. apply NoDup_app in Hnd. destruct Hnd as (_ & Hdisj & _).
      apply (Hdisj c); [apply list_elem_of_In, Hin | constructor]. }
    rewrite dict_set_fresh in Hret by exact Hfresh.
    destruct (IH (acc ++ [(c, max0 (round2 (m (sc X))))])%list d)
      as (ps & -> & Hps); [| exact Hret |].
    + rewrite map_app. cbn [map fst]. rewrite <- app_assoc. exact Hnd.
    + exists ((c, max0 (round2 (m (sc X)))) :: ps).
      rewrite <- app_assoc. split; [reflexivity |].
      constructor; [| exact Hps].
      split; [reflexivity |]. exists sc, m. auto.
Qed.

Lemma predicted_by_facts self X cats ps :
  Forall2 (predicted_by self X) cats ps ->
  map fst ps = cats /\
  Forall two_decimals (map snd ps) /\
  Forall (fun p => 0 <= p) (map snd ps).
Proof.
  induction 1 as [| c kv cats ps Hkv _ (Hkeys & Hdec & Hnn)];
    [repeat split; constructor |].
  destruct Hkv as (Hk & sc & mo & _ & _ & Hv). simpl.
  split; [congruence |]. rewrite Hv. split; constructor; auto.
  - apply two_decimals_max0, two_decimals_round2.
  - apply max0_nonneg.
Qed.

(** What a normal return of [predict_next_month] is made of. *)
Lemma predict_next_month_returned self df d :
  predict_next_month self df = inr d ->
  exists last_month date columns X predictions,
    (3 <= length (df_rows df))%nat /\
    last (map row_month (df_rows (sort_values_month df))) = Some last_month /\
    to_datetime last_month = Some date /\
    self_feature_columns self = Some columns /\
    select_columns columns
      (fold_left
         (history_lag_step (sort_values_month df)
            {| df_columns := df_columns df;
               df_rows := tail3 (df_rows (sort_values_month df)) |})
         (self_categories self)
         {["month_num" := inject_Z (next_month_num date)]}) = Returned X /\
    predict_all self X (self_categories self) [] = inr predictions /\
    d = dict_set "total" (round2 (py_sum (map snd predictions))) predictions.
Proof.
  unfold predict_next_month.
  destruct (Nat.ltb_spec (length (df_rows df)) 3) as [| Hlen]; [discriminate |].
  destruct (last _) as [m |] eqn:Elast; [| discriminate].
  destruct (to_datetime m) as [date |] eqn:Edate; [| discriminate].
  destruct (self_feature_columns self) as [columns |]; [| discriminate].
  destruct (select_columns _ _) as [X | e] eqn:EX; [| discriminate].
  destruct (predict_all _ _ _ _) as [e | ps] eqn:Eps; [discriminate |].
  intros Hret. injection Hret as <-.
  exists m, date, columns, X, ps. repeat split; auto.
Qed.

(** X14.  For a predictor whose categories are pairwise different and
    do not include ['total'], the dict that [predict_next_month]
    returns lists the categories in order, then ['total']; no
    prediction is negative, and the total is the sum of the rounded
    predictions. *)
Theorem predict_next_month_total self df d :
  NoDup (self_categories self) ->
  ~ In "total" (self_categories self) ->
  predict_next_month self df = inr d ->
  exists predictions total,
    d = (predictions ++ [("total", total)])%list /\
    map fst predictions = self_categories self /\
    Forall (fun p => 0 <= p) (map snd predictions) /\
    total == Qsum (map snd predictions).
Proof.
  intros Hnd Htotal Hret.
  destruct (predict_next_month_returned _ _ _ Hret)
    as (m & date & columns & X & ps & _ & _ & _ & _ & _ & Hps & ->).
  destruct (predict_all_spec self X _ [] ps Hnd Hps) as (ps' & -> & Hall).
  cbn [app] in *.
  destruct (predicted_by_facts _ _ _ _ Hall) as (Hkeys & Hdec & Hnn).
  exists ps', (round2 (py_sum (map snd ps'))).
  split; [apply dict_set_fresh; rewrite Hkeys; exact Htotal |].
  split; [exact Hkeys |]. split; [exact Hnn |].
  rewrite round2_two_decimals.
  - apply py_sum_Qsum.
  - destruct (two_decimals_Qsum _ Hdec) as [z Hz]. exists z.
    rewrite py_sum_Qsum. exact Hz.
Qed.

End PredictNextMonth.

Section ServerAndTrainer.
Context `{Pandas} `{Numpy}.

Lemma history_lag_fold_present df last3 cats : forall features,
  (forall c, In c cats -> c ∈ df_columns df) ->
  fold_left (history_lag_step df last3) cats features
  = fold_left (lag_step last3) cats features.
Proof.
  induction cats as [| c cats IH]; intros features Hcols; cbn [fold_left].
  - reflexivity.
  - rewrite IH by (intros c' Hc'; apply Hcols; right; exact Hc').
    f_equal. unfold history_lag_step.
    destruct (decide (c ∈ df_columns df)) as [_ | Hout]; [reflexivity |].
    exfalso. apply Hout, Hcols. left. reflexivity.
Qed.

Lemma alist_get_app_l {V} k (d d' : list (string * V)) v :
  alist_get k d = Some v -> alist_get k (d ++ d') = Some v.
Proof.
  induction d as [| [k0 v0] d IH]; [discriminate |].
  cbn [app]. rewrite !alist_get_cons.
  destruct (String.eqb k0 k); [trivial | exact IH].
Qed.

Lemma predicted_by_get self X cats ps c :
  Forall2 (predicted_by self X) cats ps -> In c cats ->
  exists scaler model,
    self_scalers self !! c = Some scaler /\
    self_models self !! c = Some model /\
    alist_get c ps = Some (max0 (round2 (model (scaler X)))).
Proof.
  induction 1 as [| a [k v] cats ps Hkv _ IH]; intros Hc; [destruct Hc |].
  destruct Hkv as (Hk & sc & mo & Hsc & Hmo & Hv). simpl in Hk, Hv. subst k v.
  rewrite alist_get_cons. destruct (String.eqb_spec a c) as [-> | Hne].
  - exists sc, mo. auto.
  - destruct Hc as [-> | Hc]; [contradiction | apply IH, Hc].
Qed.

Lemma EXPENSE_CATEGORIES_NoDup : NoDup EXPENSE_CATEGORIES.
Proof.
  apply (bool_decide_unpack (NoDup EXPENSE_CATEGORIES)).
  vm_compute. exact I.
Qed.

(** X15.  The server masks what the trainer's predictor would say,
    for a history of at most 17 entries or with pairwise different
    months (in the latter case NumPy's heapsort is taken to sort).  The
    trainer sorts the frame again (line 138); on the frame that
    [predict_expenses] prepares from such a history the sort that
    pandas runs returns the rows as they are.  When
    [predict_next_month], with the same bank and the eight categories,
    returns on that frame, [predict_expenses] returns too; its
    prediction for a category with a positive coerced sum is the one of
    [predict_next_month], and for any other category it is 0. *)
Theorem server_masks_predict_next_month md h d :
  (length h <= 17)%nat \/ (NoDup (map month h) /\ heapsort_sorts) ->
  predict_next_month (load md EXPENSE_CATEGORIES) (fst (prepare h)) = inr d ->
  np_sort_by row_month (df_rows (fst (prepare h)))
    = Some (df_rows (fst (prepare h))) /\
  exists r predictions,
    predict_expenses (Some md) h = Returned r /\
    dict_get "predictions" r = Some (PyDict predictions) /\
    forall cat, In cat EXPENSE_CATEGORIES ->
      alist_get cat predictions
      = if decide (0 < historical_sum cat h) then alist_get cat d else Some 0.
Proof.
  intros Hdomain Hret. split.
  { assert (Hrows : sort_by row_month (df_rows (fst (prepare h)))
                    = df_rows (fst (prepare h))).
    { rewrite prepare_unfold. cbn [fst]. rewrite df_rows_sort.
      apply sort_by_idempotent. }
    rewrite <- Hrows at 2. apply np_sort_by_model.
    destruct Hdomain as [Hshort | [Hnd Hheap]].
    - left. rewrite prepare_rows_length. exact Hshort.
    - right. split; [| exact Hheap].
      rewrite prepare_months. unfold sort_history.
      rewrite (sort_by_Permutation month h). exact Hnd. }
  destruct (predict_next_month_returned _ _ _ Hret)
    as (m & date & columns & X & ps & Hlen & Hlast & Hdate & Hcols & HX
        & Hps & ->).
  cbn [load self_feature_columns self_categories] in *.
  injection Hcols as <-.
  assert (Hsorted : sort_values_month (fst (prepare h)) = fst (prepare h)).
  { rewrite prepare_unfold. cbn [fst]. apply sort_values_month_idempotent. }
  rewrite Hsorted in Hlast, HX.
  rewrite prepare_rows_length in Hlen.
  destruct (prepare_frame h) as (_ & _ & Hpresent).
  rewrite history_lag_fold_present in HX by exact Hpresent.
  fold (build_features (fst (prepare h)) date) in HX.
  destruct (predict_all_spec _ X _ [] ps EXPENSE_CATEGORIES_NoDup Hps)
    as (ps' & -> & Hall).
  cbn [app] in *.
  assert (Hd : last_month_date_of (fst (prepare h)) = Returned date).
  { unfold last_month_date_of. rewrite Hlast, Hdate. reflexivity. }
  destruct (predict_loop_returns md X (snd (prepare h)) EXPENSE_CATEGORIES)
    as [preds Hpreds].
  { intros c Hc _.
    destruct (predicted_by_get _ _ _ _ c Hall Hc) as (sc & mo & Hsc & Hmo & _).
    cbn [load self_scalers self_models] in Hsc, Hmo.
    rewrite Hsc, Hmo. split; eexists; reflexivity. }
  exists [("predictions", PyDict preds);
          ("total", PyNum (round2 (Qsum (map snd preds))));
          ("confidence",
           PyStr (confidence_of (length h) (fst (prepare h))));
          ("history_months", PyInt (Z.of_nat (length h)));
          ("next_month", PyStr (next_month_label date))].
  exists preds. split; [| split; [reflexivity |]].
  - unfold predict_expenses.
    destruct (Nat.ltb_spec (length h) 3) as [Hlt | _]; [lia |].
    destruct (prepare h) as [df ucs]; cbn [fst snd] in *.
    rewrite Hd. cbn [bind]. rewrite HX. cbn [bind]. rewrite Hpreds.
    cbn [bind]. reflexivity.
  - intros cat Hcat.
    destruct (predict_loop_spec _ _ _ _ _ Hpreds) as (_ & Hget & _).
    destruct (Hget cat Hcat) as (p & Hp & ->).
    destruct (predicted_by_get _ _ _ _ cat Hall Hcat)
      as (sc & mo & Hsc & Hmo & Hlook).
    cbn [load self_scalers self_models] in Hsc, Hmo.
    unfold predict_category in Hp. rewrite Hsc, Hmo in Hp.
    rewrite dict_set_fresh.
    + rewrite (alist_get_app_l _ _ _ _ Hlook).
      destruct (decide (cat ∈ snd (prepare h))) as [Hin | Hout];
        destruct (decide (0 < historical_sum cat h)) as [Hpos | Hneg];
        try congruence.
      * exfalso. apply Hneg. apply prepare_user_categories in Hin. tauto.
      * exfalso. apply Hout, prepare_user_categories. auto.
    + destruct (predicted_by_facts _ _ _ _ Hall) as (-> & _).
      vm_compute. intros Hin.
      repeat (destruct Hin as [Hin | Hin]; [discriminate Hin |]). exact Hin.
Qed.

End ServerAndTrainer.

(** * generate_training_data.py: training features against serving
      features *)

Section TrainingFeatures.

Lemma shift_lookup {A} lag (series : list A) i :
  (i < length series)%nat ->
  shift lag series !! i
  = Some (if (lag <=? i)%nat then series !! (i - lag)%nat else None).
Proof.
  intros Hi. unfold shift.
  assert (Hrep : length (replicate (Nat.min lag (length series)) (@None A))
                 = Nat.min lag (length series)) by apply length_replicate.
  destruct (Nat.leb_spec lag i) as [Hle | Hlt].
  - rewrite lookup_app_r by lia. rewrite Hrep.
    replace (Nat.min lag (length series)) with lag by lia.
    rewrite list_lookup_fmap, lookup_take_lt by lia.
    destruct (series !! (i - lag)%nat) as [x |] eqn:Ex; [reflexivity |].
    apply lookup_ge_None in Ex. lia.
  - rewrite lookup_app_l by lia.
    apply lookup_replicate. split; [reflexivity | lia].
Qed.

Lemma tail3_short {A} (l : list A) : (length l <= 3)%nat -> tail3 l = l.
Proof.
  intros Hl. unfold tail3. replace (length l - 3)%nat with 0%nat by lia.
  reflexivity.
Qed.

Lemma tail3_app_long {A} (a b : list A) :
  (3 <= length b)%nat -> tail3 (a ++ b) = tail3 b.
Proof.
  intros Hb. unfold tail3. rewrite length_app, skipn_app.
  rewrite skipn_all2 by lia. cbn [app]. f_equal. lia.
Qed.

Lemma tail3_length {A} (l : list A) : (length (tail3 l) <= 3)%nat.
Proof. unfold tail3. rewrite length_skipn. lia. Qed.

Lemma lag_tail3 k (l : list Q) :
  (1 <= k <= 3)%nat -> lag k (tail3 l) = lag k l.
Proof.
  intros Hk. destruct (Nat.le_gt_cases (length l) 3) as [Hshort | Hlong].
  - rewrite tail3_short by exact Hshort. reflexivity.
  - unfold lag, tail3. rewrite length_skipn.
    replace (length l - (length l - 3))%nat with 3%nat by lia.
    destruct (Nat.leb_spec k 3) as [_ | Hgt]; [| lia].
    destruct (Nat.leb_spec k (length l)) as [_ | Hgt]; [| lia].
    rewrite !nth_lookup, lookup_drop. do 2 f_equal. lia.
Qed.

(** X16.  Training and serving agree on the lag features: in the
    training table the lag column (lag 1, 2 or 3) of a row holds what
    the server's [lag] reads from the last three of the months before
    that row - the amount that many months back, or 0 when the row has
    fewer earlier months. *)
Theorem training_lag_matches_serving k (series : list Q) i :
  (1 <= k <= 3)%nat ->
  (i < length series)%nat ->
  lag_column k series !! i = Some (lag k (tail3 (firstn i series))) /\
  ((k <= i)%nat ->
   lag_column k series !! i = series !! (i - k)%nat).
Proof.
  intros Hlag Hi. rewrite lag_tail3 by exact Hlag.
  unfold lag_column, lag.
  rewrite list_lookup_fmap, (shift_lookup k series i Hi).
  rewrite length_take, Nat.min_l by lia. cbn [fmap option_fmap option_map].
  destruct (Nat.leb_spec k i) as [Hle | Hlt]; [| split; [reflexivity | lia]].
  assert (Hsome : exists x, series !! (i - k)%nat = Some x).
  { apply lookup_lt_is_Some. lia. }
  destruct Hsome as [x Hx]. rewrite Hx. cbn [default from_option].
  split; [| reflexivity].
  f_equal. rewrite nth_lookup, lookup_take_lt, Hx by lia. reflexivity.
Qed.

(** The window only ever needs the three latest values. *)
Lemma tail3_app_tail3 {A} (p q : list A) :
  tail3 (tail3 p ++ q) = tail3 (p ++ q).
Proof.
  destruct (Nat.le_gt_cases (length p) 3) as [Hshort | Hlong].
  - rewrite (tail3_short p) by exact Hshort. reflexivity.
  - rewrite <- (firstn_skipn (length p - 3) p) at 2.
    fold (tail3 p). rewrite <- app_assoc.
    apply eq_sym, tail3_app_long. rewrite length_app.
    unfold tail3. rewrite length_skipn. lia.
Qed.

Lemma rolling_mean_from_lookup series : forall prefix i,
  (i < length series)%nat ->
  rolling_mean_from (tail3 prefix) series !! i
  = Some (mean (tail3 (prefix ++ firstn (S i) series))).
Proof.
  induction series as [| x series IH]; intros prefix i Hi; [simpl in Hi; lia |].
  cbn [rolling_mean_from]. rewrite tail3_app_tail3. destruct i as [| i].
  - reflexivity.
  - cbn [lookup list_lookup firstn].
    rewrite IH by (simpl in Hi; lia).
    rewrite <- app_assoc. reflexivity.
Qed.

(** X17.  In the training table the rolling average of a row is the
    mean of that row's own amount and of up to two amounts before it:
    it is what the server computes from the history that ends with that
    row, not from the months before it. *)
Theorem training_rolling_average_includes_row (series : list Q) i :
  (i < length series)%nat ->
  rolling_avg_3_column series !! i
  = Some (mean (tail3 (firstn (S i) series))).
Proof.
  intros Hi. unfold rolling_avg_3_column.
  apply (rolling_mean_from_lookup series [] i Hi).
Qed.

End TrainingFeatures.

(** * Forecast and recommendations together *)

Section ForecastAndRecommendations.
Context `{Pandas}.

Lemma round_half_even_comp q q' :
  q == q' -> round_half_even q = round_half_even q'.
Proof.
  intros Hq. unfold round_half_even.
  rewrite (Qfloor_comp _ _ Hq).
  assert (Hd : q - inject_Z (Qfloor q') == q' - inject_Z (Qfloor q'))
    by (rewrite Hq; reflexivity).
  rewrite (Qleb_comp _ _ Hd (1 # 2) (1 # 2) (Qeq_refl _)).
  assert (He : Qeq_bool (q - inject_Z (Qfloor q')) (1 # 2)
               = Qeq_bool (q' - inject_Z (Qfloor q')) (1 # 2)).
  { destruct (Qeq_bool (q' - inject_Z (Qfloor q')) (1 # 2)) eqn:E.
    - apply Qeq_bool_iff. apply Qeq_bool_iff in E. rewrite Hd. exact E.
    - apply not_true_iff_false. intros E'. apply Qeq_bool_iff in E'.
      rewrite Hd in E'. apply Qeq_bool_iff in E'. congruence. }
  rewrite He. reflexivity.
Qed.

Lemma round2_comp q q' : q == q' -> round2 q == round2 q'.
Proof.
  intros Hq. unfold round2.
  rewrite (round_half_even_comp (q * 100) (q' * 100)); [reflexivity |].
  rewrite Hq. reflexivity.
Qed.

Lemma Qsum_app l1 l2 : Qsum (l1 ++ l2) == Qsum l1 + Qsum l2.
Proof.
  induction l1 as [| x l1 IH]; simpl; [ring |]. rewrite IH. ring.
Qed.

(** X18.  The sum of the report counts a key ['total'] like any other
    key, although line 252 keeps that key out of the ranking: when the
    predictions end with a ['total'] that holds the sum of the other
    amounts, the predicted total of the report is twice that sum,
    rounded. *)
Theorem total_key_is_counted_twice predictions total budget report :
  total == Qsum (map snd predictions) ->
  get_recommendations
    (RecBody (Some (predictions ++ [("total", total)])%list) budget)
    = RecOk200 report ->
  predicted_total report == round2 (2 * total).
Proof.
  intros Htotal Hret.
  destruct (report_shape _ _ _ Hret) as (Hsum & _).
  cbv zeta in Hsum. rewrite Hsum. apply round2_comp.
  rewrite py_sum_Qsum, map_app, Qsum_app. simpl. rewrite <- Htotal. ring.
Qed.

Lemma nonneg_sum_zero l :
  Forall (fun p => 0 <= p) l -> Qsum l == 0 -> Forall (fun p => p <= 0) l.
Proof.
  induction 1 as [| p l Hp Hl IH]; intros Hsum; [constructor |].
  simpl in Hsum. pose proof (Qsum_nonneg l Hl) as Hrest.
  constructor; [lra |]. apply IH. lra.
Qed.

(** X19.  The predictions of a forecast are always accepted by the
    recommendations endpoint: it answers with a report, never with a
    division by zero, and the predicted total of the report is the
    total of the forecast. *)
Theorem forecast_predictions_get_a_report md h r predictions budget :
  predict_expenses (Some md) h = Returned r ->
  dict_get "predictions" r = Some (PyDict predictions) ->
  exists report total,
    get_recommendations (RecBody (Some predictions) budget)
      = RecOk200 report /\
    dict_get "total" r = Some (PyNum total) /\
    predicted_total report == total.
Proof.
  intros Hret Hget.
  assert (Hfacts : Forall (fun p => 0 <= p) (map snd predictions) /\
                   exists total,
                     dict_get "total" r = Some (PyNum total) /\
                     total == round2 (Qsum (map snd predictions))).
  { destruct (Nat.lt_ge_cases (length h) 3) as [Hshort | Hlen].
    - rewrite predict_expenses_short in Hret by exact Hshort.
      injection Hret as <-. injection Hget as <-.
      split.
      + cbn [map snd EXPENSE_CATEGORIES].
        repeat (constructor; [apply Qle_refl |]). constructor.
      + exists 0. split; [reflexivity | vm_compute; reflexivity].
    - destruct (predict_expenses_returned md h r Hlen Hret)
        as (d & X & ps & _ & _ & Hps & ->).
      injection Hget as <-.
      split; [apply (predict_loop_nonneg _ _ _ _ _ Hps) |].
      eexists. split; reflexivity. }
  destruct Hfacts as (Hnn & total & Htotal & Hvalue).
  destruct (get_recommendations (RecBody (Some predictions) budget))
    as [report | error |] eqn:Erec.
  - exists report, total.
    split; [reflexivity |]. split; [exact Htotal |].
    destruct (report_shape _ _ _ Erec) as (Hsum & _).
    cbv zeta in Hsum. rewrite Hsum, Hvalue. apply round2_comp, py_sum_Qsum.
  - exfalso. revert Erec. unfold get_recommendations. cbv zeta.
    destruct (high_categories predictions) as [| [c a] rest];
      [destruct (_ <? 3)%nat; discriminate |].
    destruct (Qeq_bool _ _); [discriminate |].
    destruct (decide _); destruct (_ <? 3)%nat; discriminate.
  - exfalso.
    assert (Hzero : py_sum (map snd predictions) == 0 /\
                    exists kv, In kv predictions /\ ranked kv).
    { revert Erec. unfold get_recommendations. cbv zeta.
      destruct (high_categories predictions) as [| [c a] rest] eqn:Ehigh;
        [destruct (_ <? 3)%nat; discriminate |].
      destruct (Qeq_bool _ _) eqn:Ez;
        [| destruct (decide _); destruct (_ <? 3)%nat; discriminate].
      intros _. split; [apply Qeq_bool_iff, Ez |].
      exists (c, a). apply In_high_categories. rewrite Ehigh.
      left. reflexivity. }
    destruct Hzero as (Hzero & kv & Hin & Hpos & _).
    rewrite py_sum_Qsum in Hzero.
    pose proof (nonneg_sum_zero _ Hnn Hzero) as Hall.
    rewrite Forall_forall in Hall.
    assert (Hle : snd kv <= 0).
    { apply Hall, list_elem_of_In, in_map, Hin. }
    apply (Qlt_not_le _ _ Hpos Hle).
Qed.

End ForecastAndRecommendations.

(** * The further theorems at concrete inputs *)

Lemma predictions_never_negative_witness :
  exists predictions total,
    dict_get "predictions" (Sample.run Sample.erratic)
      = Some (PyDict predictions) /\
    dict_get "total" (Sample.run Sample.erratic) = Some (PyNum total) /\
    map fst predictions = EXPENSE_CATEGORIES /\
    Forall (fun p => 0 <= p) (map snd predictions) /\
    0 <= total.
Proof.
  apply (predictions_never_negative Sample.bank Sample.erratic).
  vm_compute. reflexivity.
Defined.

Lemma returned_value {A} (o : outcome A) (a0 : A) :
  Demo.returned o = true ->
  o = Returned (match o with Returned a => a | Raised _ => a0 end).
Proof. destruct o; [reflexivity | discriminate]. Defined.

Lemma lag_features_are_latest_months_witness :
  Demo.features_of Sample.groceries_2024 !! "Groceries_lag1"
    = Some (coerced_amount "Groceries" Demo.december) /\
  Demo.features_of Sample.groceries_2024 !! "Groceries_lag2"
    = Some (coerced_amount "Groceries" Demo.november) /\
  Demo.features_of Sample.groceries_2024 !! "Groceries_lag3"
    = Some (coerced_amount "Groceries" Demo.october) /\
  Demo.features_of Sample.groceries_2024 !! "Groceries_rolling_avg_3"
    = Some (mean [coerced_amount "Groceries" Demo.october;
                  coerced_amount "Groceries" Demo.november;
                  coerced_amount "Groceries" Demo.december]).
Proof.
  apply (lag_features_are_latest_months Sample.groceries_2024 "Groceries"
           [] Demo.october Demo.november Demo.december).
  - vm_compute. tauto.
  - left. vm_compute. lia.
  - vm_compute. reflexivity.
  - apply (returned_value (feature_vector Sample.groceries_2024) ∅).
    vm_compute. reflexivity.
Defined.

Lemma predict_expenses_outcome_witness :
  is_Some (to_datetime "2024-12") /\
  Forall trained_label (feature_columns Sample.bank) /\
  (forall c, In c EXPENSE_CATEGORIES ->
             0 < historical_sum c Sample.groceries_2024 ->
             is_Some (scalers Sample.bank !! c) /\
             is_Some (models Sample.bank !! c)).
Proof.
  pose proof (predict_expenses_outcome Sample.bank Sample.groceries_2024
                "2024-12") as Hw.
  assert (Hrun : predict_expenses (Some Sample.bank) Sample.groceries_2024
                 = Returned (Sample.run Sample.groceries_2024))
    by (vm_compute; reflexivity).
  rewrite Hrun in Hw. apply Hw.
  - vm_compute. lia.
  - vm_compute. reflexivity.
Defined.

Lemma predict_expenses_order_independent_witness :
  predict_expenses (Some Sample.bank) Sample.groceries_2024
  = predict_expenses (Some Sample.bank) Demo.in_month_order.
Proof.
  apply (predict_expenses_order_independent (Some Sample.bank)
           Sample.groceries_2024 Demo.in_month_order).
  - apply (bool_decide_unpack (NoDup (map month Sample.groceries_2024))).
    vm_compute. exact I.
  - change Sample.groceries_2024
      with ([Demo.december] ++ [Demo.october; Demo.november])%list.
    apply Permutation_app_comm.
Defined.

Lemma sqrt6_zero q : q == 0 -> Sample.sqrt6 q == 0.
Proof.
  intros Hq. unfold Sample.sqrt6.
  assert (Hz : q * 1000000000000 == 0) by (rewrite Hq; reflexivity).
  rewrite (Qfloor_comp _ _ Hz). reflexivity.
Defined.

Lemma steady_history_high_confidence_witness :
  dict_get "confidence" (Sample.run Sample.steady) = Some (PyStr "high").
Proof.
  apply (steady_history_high_confidence Sample.bank Sample.steady).
  - exact sqrt6_zero.
  - vm_compute. lia.
  - vm_compute. discriminate.
  - intros cat Hcat. vm_compute in Hcat. destruct Hcat as [<- | []].
    exists 300. intros entry Hentry.
    repeat (destruct Hentry as [<- | Hentry]; [vm_compute; reflexivity |]).
    destruct Hentry.
  - vm_compute. reflexivity.
Defined.

Lemma predict_bad_request_iff_witness :
  (exists error, check_request Demo.without_month = Refused error) /\
  check_request Demo.with_number = Crashed.
Proof.
  split.
  - apply (proj2 (proj1 (predict_bad_request_iff Demo.without_month))).
    right. right. eexists. split; [reflexivity |]. right.
    exists 1%nat. eexists. split; [reflexivity |].
    split; [reflexivity |].
    intros [| j] e Hj He; [| lia]. injection He as <-. reflexivity.
  - apply (proj2 (proj2 (predict_bad_request_iff Demo.with_number))).
    split; [reflexivity |]. right. right. eexists. split; [reflexivity |].
    exists 1%nat. eexists. split; [reflexivity |].
    split; [reflexivity |].
    intros [| j] e Hj He; [| lia]. injection He as <-. reflexivity.
Defined.

Lemma predict_well_formed_request_witness :
  predict None (Body (HistoryList Demo.one_month))
    = ServerError500 (RuntimeError "Model not loaded") /\
  predict (Some Sample.bank) (Body (HistoryList Demo.one_month))
    = Ok200 insufficient_history_result.
Proof.
  destruct (predict_well_formed_request Demo.one_month) as [Hnone Hsome].
  - discriminate.
  - repeat constructor. eexists. reflexivity.
  - split; [exact Hnone |]. apply Hsome. vm_compute. lia.
Defined.

Lemma report_ends_with_general_tip_witness :
  last (recommendations
          (Demo.report_of (RecBody (Some Demo.basket) None)))
    = Some general_tip /\
  (1 <= length (recommendations
                  (Demo.report_of (RecBody (Some Demo.basket) None)))
     <= 3)%nat.
Proof.
  apply (report_ends_with_general_tip (RecBody (Some Demo.basket) None)).
  vm_compute. reflexivity.
Defined.

Lemma recommendations_zero_division_iff_witness :
  get_recommendations (RecBody (Some Demo.cancelling) (Some 100))
  = RecZeroDivision500.
Proof.
  apply (proj2 (recommendations_zero_division_iff Demo.cancelling (Some 100))).
  split; [vm_compute; reflexivity |].
  exists ("Groceries", 5). split; [left; reflexivity |].
  split; [vm_compute; reflexivity | discriminate].
Defined.

Lemma budget_message_iff_witness :
  exists r,
    In r (recommendations
            (Demo.report_of (RecBody (Some Demo.basket) None))) /\
    rec_type r = "warning".
Proof.
  apply (proj1 (budget_message_iff Demo.basket None
                  (Demo.report_of (RecBody (Some Demo.basket) None))
                  ltac:(vm_compute; reflexivity))).
  vm_compute. reflexivity.
Defined.

Lemma savings_potential_is_floored_difference_witness :
  savings_potential (Demo.report_of (RecBody (Some Demo.basket) None))
    == max0 (budget_difference
               (Demo.report_of (RecBody (Some Demo.basket) None))) /\
  0 <= savings_potential (Demo.report_of (RecBody (Some Demo.basket) None)).
Proof.
  apply (savings_potential_is_floored_difference Demo.basket None).
  vm_compute. reflexivity.
Defined.

Lemma category_tip_names_largest_witness :
  exists top_category top_amount,
    In (top_category, top_amount) Demo.basket /\
    ranked (top_category, top_amount) /\
    (forall kv, In kv Demo.basket -> fst kv <> "total" ->
                snd kv <= top_amount) /\
    (In (category_tip top_category
           (top_amount / py_sum (map snd Demo.basket) * 100))
        (recommendations (Demo.report_of (RecBody (Some Demo.basket) None)))
     <-> 30 < top_amount / py_sum (map snd Demo.basket) * 100) /\
    (forall r,
       In r (recommendations
               (Demo.report_of (RecBody (Some Demo.basket) None))) ->
       r = general_tip
       \/ r = category_tip top_category
                (top_amount / py_sum (map snd Demo.basket) * 100)
       \/ In r (budget_recommendations (py_sum (map snd Demo.basket))
                  (default 2000 None))).
Proof.
  apply (category_tip_names_largest Demo.basket None).
  - vm_compute. reflexivity.
  - exists ("Groceries", 300). split; [left; reflexivity |].
    split; [vm_compute; reflexivity | discriminate].
Defined.

Lemma trained_bank_is_served_witness :
  exists md r,
    saved_model_data (train Demo.fit new_predictor) = Some md /\
    feature_columns md = feature_cols EXPENSE_CATEGORIES /\
    predict_expenses (Some md) Sample.groceries_2024 = Returned r.
Proof.
  apply (trained_bank_is_served Demo.fit Sample.groceries_2024 "2024-12").
  - vm_compute. lia.
  - vm_compute. reflexivity.
  - vm_compute. eexists. reflexivity.
Defined.

Lemma predict_next_month_total_witness :
  exists predictions total,
    Demo.next_month_of (train Demo.fit new_predictor)
      (fst (prepare Sample.groceries_2024))
      = (predictions ++ [("total", total)])%list /\
    map fst predictions = EXPENSE_CATEGORIES /\
    Forall (fun p => 0 <= p) (map snd predictions) /\
    total == Qsum (map snd predictions).
Proof.
  apply (predict_next_month_total (train Demo.fit new_predictor)
           (fst (prepare Sample.groceries_2024))).
  - apply (bool_decide_unpack (NoDup EXPENSE_CATEGORIES)). vm_compute. exact I.
  - vm_compute. intros Hin.
    repeat (destruct Hin as [Hin | Hin]; [discriminate Hin |]). exact Hin.
  - vm_compute. reflexivity.
Defined.

Lemma sort_values_sorts_witness :
  np_sort_by month Demo.two_years = Some Demo.two_years_in_month_order /\
  Sorted (key_le month) Demo.two_years_in_month_order /\
  Demo.two_years_in_month_order ≡ₚ Demo.two_years /\
  Demo.two_years_in_month_order = sort_by month Demo.two_years.
Proof.
  destruct (sort_values_sorts month Demo.two_years sample_heapsort_sorts)
    as (sorted & Hrun & Hs & Hp & Hmodel).
  assert (Hsorted : sorted = Demo.two_years_in_month_order).
  { assert (Hnp : np_sort_by month Demo.two_years
                  = Some Demo.two_years_in_month_order)
      by (vm_compute; reflexivity).
    rewrite Hrun in Hnp. injection Hnp as Hnp. exact Hnp. }
  rewrite Hsorted in Hrun, Hs, Hp, Hmodel.
  split; [exact Hrun |]. split; [exact Hs |]. split; [exact Hp |].
  apply Hmodel. right.
  apply (bool_decide_unpack (NoDup (map month Demo.two_years))).
  vm_compute. exact I.
Defined.

Lemma server_masks_predict_next_month_witness :
  np_sort_by row_month (df_rows (fst (prepare Sample.groceries_2024)))
    = Some (df_rows (fst (prepare Sample.groceries_2024))) /\
  exists r predictions,
    predict_expenses (Some Sample.bank) Sample.groceries_2024 = Returned r /\
    dict_get "predictions" r = Some (PyDict predictions) /\
    alist_get "Groceries" predictions
      = alist_get "Groceries"
          (Demo.next_month_of (load Sample.bank EXPENSE_CATEGORIES)
             (fst (prepare Sample.groceries_2024))) /\
    alist_get "Utilities" predictions = Some 0.
Proof.
  destruct (server_masks_predict_next_month Sample.bank Sample.groceries_2024
              (Demo.next_month_of (load Sample.bank EXPENSE_CATEGORIES)
                 (fst (prepare Sample.groceries_2024))))
    as (Hsort & r & predictions & Hr & Hp & Hmask).
  { right. split; [| exact sample_heapsort_sorts].
    apply (bool_decide_unpack (NoDup (map month Sample.groceries_2024))).
    vm_compute. exact I. }
  { vm_compute; reflexivity. }
  split; [exact Hsort |].
  exists r, predictions. split; [exact Hr |]. split; [exact Hp |]. split.
  - rewrite (Hmask "Groceries") by (vm_compute; tauto).
    destruct (decide _) as [_ | Hno]; [reflexivity |].
    exfalso. apply Hno. vm_compute. reflexivity.
  - rewrite (Hmask "Utilities") by (vm_compute; tauto).
    destruct (decide _) as [Hyes | _]; [| reflexivity].
    exfalso. vm_compute in Hyes. discriminate Hyes.
Defined.

Lemma training_lag_matches_serving_witness :
  lag_column 2 Demo.series !! 3%nat
    = Some (lag 2 (tail3 (firstn 3 Demo.series))) /\
  ((2 <= 3)%nat -> lag_column 2 Demo.series !! 3%nat = Demo.series !! 1%nat).
Proof.
  apply (training_lag_matches_serving 2 Demo.series 3).
  - lia.
  - vm_compute. lia.
Defined.

Lemma training_rolling_average_includes_row_witness :
  rolling_avg_3_column Demo.series !! 3%nat
  = Some (mean (tail3 (firstn 4 Demo.series))).
Proof.
  apply (training_rolling_average_includes_row Demo.series 3).
  vm_compute. lia.
Defined.

Lemma total_key_is_counted_twice_witness :
  predicted_total
    (Demo.report_of
       (RecBody (Some (Demo.basket ++ [("total", 2100)])%list) None))
  == round2 (2 * 2100).
Proof.
  apply (total_key_is_counted_twice Demo.basket 2100 None).
  - vm_compute. reflexivity.
  - vm_compute. reflexivity.
Defined.

Lemma forecast_predictions_get_a_report_witness :
  exists report total,
    get_recommendations
      (RecBody (Some (Demo.predictions_of (Sample.run Sample.erratic)))
               (Some 500))
      = RecOk200 report /\
    dict_get "total" (Sample.run Sample.erratic) = Some (PyNum total) /\
    predicted_total report == total.
Proof.
  apply (forecast_predictions_get_a_report Sample.bank Sample.erratic).
  - vm_compute. reflexivity.
  - vm_compute. reflexivity.
Defined.
